(** * runqlen: the reporting engine and the session loop of
      libbpf-tools/runqlen.c

    The user-space half of runqlen reads a table of per-CPU histograms that
    a BPF program fills, clears what it has read, and prints either the
    histogram or a run-queue occupancy percentage, once per interval.

    The embedding follows the C file function by function:
    [open_and_attach_perf_event], [sig_handler], [print_runq_occupancy],
    [print_linear_hists] and [main].  The constants [MAX_SLOTS] and
    [MAX_CPU_NR] and the element type of [struct hist] come from runqlen.h,
    which is not part of the sources at hand: they are section variables. *)

From Stdlib Require Import ZArith QArith Lia Lqa String.
From stdpp Require Import base list.

Open Scope Z_scope.

(** ** Machine integers *)

(** [__u64] arithmetic wraps modulo 2^64. *)
Definition u64_max : Z := 2 ^ 64.
Definition u64 (z : Z) : Z := z mod u64_max.

(** [int] is 32 bits wide; [--x] at [INT_MIN] overflows, which ISO C leaves
    undefined: [int_dec] returns [None] there. *)
Definition INT_MIN : Z := - 2 ^ 31.
Definition int_dec (x : Z) : option Z :=
  if x =? INT_MIN then None else Some (x - 1).

(** ** Floating point

    [print_runq_occupancy] divides in [double] and keeps the quotient in a
    [float].  A [float_model] gives the two roundings as functions on the
    rationals; every arithmetic operation of the C expression is the exact
    operation followed by the rounding of its type. *)
Record float_model := FloatModel {
  to_double : Q -> Q;
  to_float : Q -> Q
}.

(** Arithmetic without rounding error. *)
Definition exact_arith : float_model :=
  {| to_double := fun x => x; to_float := fun x => x |}.

(** What the statements below need of a rounding: it is monotone, it is a
    projection, and it is exact on the numbers [m / 2^k] whose numerator [m]
    fits in the significand (53 bits for [double], 24 for [float]).  IEEE 754
    round-to-nearest on binary64 and binary32 has these properties for the
    magnitudes that occur here. *)
Record float_model_ok (fm : float_model) : Prop := FloatModelOk {
  to_double_mono :
    forall x y, (x <= y)%Q -> (to_double fm x <= to_double fm y)%Q;
  to_float_mono :
    forall x y, (x <= y)%Q -> (to_float fm x <= to_float fm y)%Q;
  to_double_idem :
    forall x, (to_double fm (to_double fm x) == to_double fm x)%Q;
  to_double_exact :
    forall m k, Z.abs m <= 2 ^ 53 -> 0 <= k <= 64 ->
      (to_double fm (inject_Z m / inject_Z (2 ^ k))
       == inject_Z m / inject_Z (2 ^ k))%Q;
  to_float_exact :
    forall m k, Z.abs m <= 2 ^ 24 -> 0 <= k <= 64 ->
      (to_float fm (inject_Z m / inject_Z (2 ^ k))
       == inject_Z m / inject_Z (2 ^ k))%Q
}.

(** ** Data *)

(** [struct hist]: an array [slots] of [MAX_SLOTS] unsigned counters. *)
Definition hist := list Z.

(** [struct env], the command line options. *)
Record env := Env {
  per_cpu : bool;
  runqocc : bool;
  timestamp : bool;
  interval : Z;
  times : Z;
  verbose : bool
}.

(** The initial value of the global [env]. *)
Definition env_default : env :=
  {| per_cpu := false; runqocc := false; timestamp := false;
     interval := 99999999; times := 99999999; verbose := false |}.

Definition set_times (e : env) (t : Z) : env :=
  {| per_cpu := per_cpu e; runqocc := runqocc e; timestamp := timestamp e;
     interval := interval e; times := t; verbose := verbose e |}.

(** What the program writes to standard output, one constructor per
    [printf] of the file (and one for the call of [print_linear_hist], the
    formatter of trace_helpers, with its three arguments). *)
Inductive out_line :=
| OccCpu (cpu : nat) (pct : Q)      (* "runqocc, CPU %-3d %6.2f%%\n" *)
| OccAll (pct : Q)                  (* "runqocc: %0.2f%%\n" *)
| CpuHeader (cpu : nat)             (* "cpu = %d\n" *)
| LinearHist (vals : list Z) (vals_size : nat) (val_type : string)
| Banner                            (* "Sampling run queue length... " *)
| Newline                           (* "\n" *)
| Timestamp.                        (* "%-8s\n" of the wall clock *)

(** ** The reporter monad

    The two report functions read and write [bss->hists] and print.  [M] is
    a state monad over the table and the output written so far; [None] is an
    access outside the table (undefined in C) or a loop that ran out of
    fuel. *)
Record rstate := RState {
  st_hists : list hist;
  st_out : list out_line
}.

Definition M (A : Type) : Type := rstate -> option (A * rstate).

Definition ret {A} (a : A) : M A := fun s => Some (a, s).

Definition bind {A B} (m : M A) (k : A -> M B) : M B :=
  fun s => match m s with
           | Some (a, s') => k a s'
           | None => None
           end.

Definition fail {A} : M A := fun _ => None.

Notation "x <-- m ;; k" := (bind m (fun x => k))
  (at level 60, m at next level, right associativity).
Notation "m ;;; k" := (bind m (fun _ => k))
  (at level 60, right associativity).

(** [hist = bss->hists[i]] *)
Definition read_hists (i : nat) : M hist :=
  fun s => match st_hists s !! i with
           | Some h => Some (h, s)
           | None => None
           end.

(** [bss->hists[i] = h] *)
Definition write_hists (i : nat) (h : hist) : M unit :=
  fun s => if decide (i < length (st_hists s))%nat
           then Some (tt, {| st_hists := <[i := h]> (st_hists s);
                             st_out := st_out s |})
           else None.

Definition printf (l : out_line) : M unit :=
  fun s => Some (tt, {| st_hists := st_hists s; st_out := st_out s ++ [l] |}).

(** ** The reporter *)

Section Reporter.

(** From runqlen.h. *)
Variable MAX_SLOTS : nat.

Variable fm : float_model.

(** The globals [env] and [nr_cpus]. *)
Variable e : env.
Variable nr_cpus : Z.

(** [static struct hist zero;] *)
Definition zero : hist := replicate MAX_SLOTS 0.

(** One round of the inner [for] of [print_runq_occupancy]. *)
Definition slot_step (h : hist) (acc : Z * Z) (slot : nat) : Z * Z :=
  let '(idle, queued) := acc in
  let val := default 0 (h !! slot) in
  if decide (slot = 0%nat)
  then (u64 (idle + val), queued)
  else (idle, u64 (queued + val)).

(** [for (slot = 0; slot < MAX_SLOTS; slot++)] *)
Definition scan_slots (h : hist) (acc : Z * Z) : Z * Z :=
  foldl (slot_step h) acc (seq 0 MAX_SLOTS).

(** [max(1ULL, samples)], converted to [double] for the division. *)
Definition runqocc_divisor (samples : Z) : Q :=
  to_double fm (inject_Z (Z.max 1 samples)).

(** [queued * 1.0 / max(1ULL, samples)], stored in a [float]. *)
Definition runqocc_ratio (queued samples : Z) : Q :=
  let num := to_double fm (to_double fm (inject_Z queued) * 1) in
  to_float fm (to_double fm (num / runqocc_divisor samples)).

(** [100 * runqocc], a [float] product. *)
Definition runqocc_pct (queued samples : Z) : Q :=
  to_float fm (to_float fm 100 * runqocc_ratio queued samples).

(** The [do ... while] of [print_runq_occupancy].  [idle] and [queued] are
    declared outside the loop: they are parameters of the loop, handed from
    one round to the next. *)
Fixpoint runq_occupancy_loop (fuel : nat) (i : nat) (idle queued : Z)
  : M unit :=
  match fuel with
  | O => fail
  | S fuel' =>
      h <-- read_hists i ;;
      write_hists i zero ;;;
      let '(idle', queued') := scan_slots h (idle, queued) in
      let samples := u64 (idle' + queued') in
      (if per_cpu e
       then printf (OccCpu i (runqocc_pct queued' samples))
       else printf (OccAll (runqocc_pct queued' samples))) ;;;
      if per_cpu e && (Z.of_nat (S i) <? nr_cpus)
      then runq_occupancy_loop fuel' (S i) idle' queued'
      else ret tt
  end.

(** The loop body runs for [i = 0] and then only while [i < nr_cpus]. *)
Definition loop_fuel : nat := S (Z.to_nat nr_cpus).

Definition print_runq_occupancy : M unit :=
  runq_occupancy_loop loop_fuel 0 0 0.

(** The [do ... while] of [print_linear_hists]. *)
Fixpoint linear_hists_loop (fuel : nat) (i : nat) : M unit :=
  match fuel with
  | O => fail
  | S fuel' =>
      h <-- read_hists i ;;
      write_hists i zero ;;;
      (if per_cpu e then printf (CpuHeader i) else ret tt) ;;;
      printf (LinearHist h MAX_SLOTS "runqlen") ;;;
      if per_cpu e && (Z.of_nat (S i) <? nr_cpus)
      then linear_hists_loop fuel' (S i)
      else ret tt
  end.

Definition print_linear_hists : M unit :=
  linear_hists_loop loop_fuel 0.

End Reporter.

(** ** The process and its surroundings *)

(** What one round of [open_and_attach_perf_event] meets for a CPU. *)
Inductive attach_result :=
| AttachOk          (* both calls succeed *)
| PerfOpenFails     (* [perf_event_open] returns a negative [fd] *)
| AttachFails.      (* [bpf_program__attach_perf_event] returns an error *)

(** The answers of the kernel and of the libraries to the calls of [main]
    before the loop starts. *)
Record world := World {
  argp_err : Z;                     (* [argp_parse] *)
  rlimit_err : Z;                   (* [bump_memlock_rlimit] *)
  open_ok : bool;                   (* [runqlen_bpf__open] is not [NULL] *)
  possible_cpus : Z;                (* [libbpf_num_possible_cpus] *)
  calloc_ok : bool;                 (* [calloc] is not [NULL] *)
  load_err : Z;                     (* [runqlen_bpf__load] *)
  attach : nat -> attach_result
}.

(** A [struct bpf_link *]: [None] is [NULL], [Some i] the link made for
    CPU [i]. *)
Definition link := option nat.

(** The calls and writes of the process that an observer sees, in order.
    A message to [stderr] is recorded by its fixed text. *)
Inductive event :=
| Stdout (l : out_line)
| Stderr (msg : string)
| PerfEventOpen (cpu : nat)
| AttachPerfEvent (cpu : nat)
| CloseFd (cpu : nat)
| SetTargPerCpu (b : bool)          (* [obj->rodata->targ_per_cpu = ...] *)
| SignalInstalled
| Report (lines : list out_line)    (* one call of a report function *)
| LinkDestroy (l : link)            (* [bpf_link__destroy(links[i])] *)
| FreeLinks
| ObjDestroy.

(** How a run ends: with an exit status, in undefined behaviour, or not
    within the steps it was given. *)
Inductive outcome :=
| Exit (status : Z)
| Undefined
| Running.

(** [open_and_attach_perf_event]: the [for] over the CPUs, leaving at the
    first failure with -1. *)
Fixpoint attach_loop (w : world) (cpus : list nat) (links : list link)
    (tr : list event) : Z * list link * list event :=
  match cpus with
  | [] => (0, links, tr)
  | i :: rest =>
      match attach w i with
      | PerfOpenFails =>
          (-1, links,
           tr ++ [PerfEventOpen i; Stderr "failed to init perf sampling"])
      | AttachFails =>
          (-1, <[i := None]> links,
           tr ++ [PerfEventOpen i; AttachPerfEvent i;
                  Stderr "failed to attach perf event on cpu"; CloseFd i])
      | AttachOk =>
          attach_loop w rest (<[i := Some i]> links)
                      (tr ++ [PerfEventOpen i; AttachPerfEvent i])
      end
  end.

Definition open_and_attach_perf_event (w : world) (nr_cpus : Z)
    (links : list link) (tr : list event) : Z * list link * list event :=
  attach_loop w (seq 0 (Z.to_nat nr_cpus)) links tr.

(** ** The loop of [main]

    The loop is a machine that runs one statement at a time, so that the
    delivery of SIGINT and the stores of the BPF program can fall between
    any two statements. *)

(** The places of the [while (1)] loop of [main]. *)
Inductive pc :=
| PSleep        (* in [sleep(env.interval)] *)
| PNewline      (* before [printf("\n")] *)
| PTimestamp    (* before [if (env.timestamp)] *)
| PReport       (* before the call of the report function *)
| PCheck        (* before [if (exiting || --env.times == 0)] *)
| PLeft         (* after [break] *)
| PUndefined.   (* undefined behaviour met *)

Record session := Session {
  s_pc : pc;
  s_exiting : bool;                 (* [static volatile bool exiting] *)
  s_times : Z;                      (* [env.times] *)
  s_hists : list hist;              (* [obj->bss->hists] *)
  s_trace : list event
}.

(** [sig_handler]: the handler body is [exiting = true].  A signal that
    arrives while the process sleeps also ends the [sleep] call. *)
Definition sig_handler (s : session) : session :=
  {| s_pc := match s_pc s with PSleep => PNewline | p => p end;
     s_exiting := true;
     s_times := s_times s;
     s_hists := s_hists s;
     s_trace := s_trace s |}.

(** A store of the BPF program into one counter of the shared table. *)
Definition sampler_store (cpu slot : nat) (v : Z) (s : session) : session :=
  {| s_pc := s_pc s;
     s_exiting := s_exiting s;
     s_times := s_times s;
     s_hists := match s_hists s !! cpu with
                | Some h => <[cpu := <[slot := v]> h]> (s_hists s)
                | None => s_hists s
                end;
     s_trace := s_trace s |}.

Section Main.

(** From runqlen.h. *)
Variable MAX_SLOTS : nat.

Variable fm : float_model.

(** [env] as [parse_arg] left it; only [env.times] changes later, and it
    lives in the [session]. *)
Variable e : env.
Variable nr_cpus : Z.

Definition goto (p : pc) (s : session) : session :=
  {| s_pc := p; s_exiting := s_exiting s; s_times := s_times s;
     s_hists := s_hists s; s_trace := s_trace s |}.

Definition emit (ev : event) (s : session) : session :=
  {| s_pc := s_pc s; s_exiting := s_exiting s; s_times := s_times s;
     s_hists := s_hists s; s_trace := s_trace s ++ [ev] |}.

(** [if (env.runqocc) print_runq_occupancy(obj->bss);
     else print_linear_hists(obj->bss);] *)
Definition report : M unit :=
  if runqocc e
  then print_runq_occupancy MAX_SLOTS fm e nr_cpus
  else print_linear_hists MAX_SLOTS e nr_cpus.

(** One statement of the loop body. *)
Definition loop_step (s : session) : session :=
  match s_pc s with
  | PSleep => goto PNewline s
  | PNewline => goto PTimestamp (emit (Stdout Newline) s)
  | PTimestamp =>
      goto PReport (if timestamp e then emit (Stdout Timestamp) s else s)
  | PReport =>
      match report {| st_hists := s_hists s; st_out := [] |} with
      | Some (_, r) =>
          {| s_pc := PCheck; s_exiting := s_exiting s;
             s_times := s_times s; s_hists := st_hists r;
             s_trace := s_trace s ++ [Report (st_out r)] |}
      | None => goto PUndefined s
      end
  | PCheck =>
      if s_exiting s then goto PLeft s
      else match int_dec (s_times s) with
           | Some t =>
               {| s_pc := if t =? 0 then PLeft else PSleep;
                  s_exiting := s_exiting s; s_times := t;
                  s_hists := s_hists s; s_trace := s_trace s |}
           | None => goto PUndefined s
           end
  | PLeft => s
  | PUndefined => s
  end.

(** What can happen next: the process runs one statement, a SIGINT is
    delivered, or the BPF program writes a counter. *)
Inductive action :=
| Step
| Signal
| Sampler (cpu slot : nat) (v : Z).

Definition act (a : action) (s : session) : session :=
  match a with
  | Step => loop_step s
  | Signal => sig_handler s
  | Sampler cpu slot v => sampler_store cpu slot v s
  end.

Definition run_loop (sch : list action) (s : session) : session :=
  foldl (fun s a => act a s) s sch.

(** The [cleanup:] label of [main]. [links] is [None] when [calloc]
    returned [NULL]; reading [links[0]] is then undefined. *)
Definition cleanup (links : option (list link)) (err : Z)
    (tr : list event) : outcome * list event :=
  let status := if err =? 0 then 0 else 1 in
  match links with
  | Some ls =>
      (Exit status,
       tr ++ map (fun i => LinkDestroy (default None (ls !! i)))
                 (seq 0 (Z.to_nat nr_cpus))
          ++ [FreeLinks; ObjDestroy])
  | None =>
      if 0 <? nr_cpus then (Undefined, tr)
      else (Exit status, tr ++ [FreeLinks; ObjDestroy])
  end.

End Main.

(** ** [main] *)

(** The session when [main] enters the loop: [exiting] is clear and the
    table, which lives in the zero-initialised [.bss] of the BPF object, has
    [MAX_CPU_NR] rows. *)
Definition session_start (MAX_SLOTS MAX_CPU_NR : nat) (e : env)
    (tr : list event) : session :=
  {| s_pc := PSleep; s_exiting := false; s_times := times e;
     s_hists := replicate MAX_CPU_NR (zero MAX_SLOTS);
     s_trace := tr |}.

(** [main], for the answers [w] of the surroundings, the options [e] and
    the schedule [sch] of what happens once the loop is entered. *)
Definition main (MAX_SLOTS MAX_CPU_NR : nat) (fm : float_model)
    (w : world) (e : env) (sch : list (action))
    : outcome * list event :=
  let err := argp_err w in
  if negb (err =? 0) then (Exit err, []) else
  let err := rlimit_err w in
  if negb (err =? 0) then (Exit 1, [Stderr "failed to increase rlimit"]) else
  if negb (open_ok w)
  then (Exit 1, [Stderr "failed to open and/or load BPF object"]) else
  let nr_cpus := possible_cpus w in
  if Z.of_nat MAX_CPU_NR <? nr_cpus
  then (Exit 1, [Stderr "The number of cpu cores is too much"]) else
  if negb (calloc_ok w)
  then cleanup nr_cpus None err [Stderr "failed to alloc links"] else
  let links : list link := replicate (Z.to_nat nr_cpus) None in
  let tr := [SetTargPerCpu (per_cpu e)] in
  let err := load_err w in
  if negb (err =? 0)
  then cleanup nr_cpus (Some links) err
               (tr ++ [Stderr "failed to load BPF object"])
  else
  let '(rc, links, tr) := open_and_attach_perf_event w nr_cpus links tr in
  if negb (rc =? 0) then cleanup nr_cpus (Some links) err tr else
  let s0 := session_start MAX_SLOTS MAX_CPU_NR e
                          (tr ++ [Stdout Banner; SignalInstalled]) in
  let s := run_loop MAX_SLOTS fm e nr_cpus sch s0 in
  match s_pc s with
  | PLeft => cleanup nr_cpus (Some links) err (s_trace s)
  | PUndefined => (Undefined, s_trace s)
  | _ => (Running, s_trace s)
  end.

(** ** Vocabulary of the statements *)

(** How often the body of the two [do ... while] loops runs: once, and in
    per-CPU mode once for every further CPU below [nr_cpus]. *)
Definition rounds (e : env) (nr_cpus : Z) : nat :=
  if per_cpu e then Z.to_nat (Z.max 1 nr_cpus) else 1%nat.

(** Rounds still to run when a [do ... while] loop is at index [i]. *)
Definition rounds_from (e : env) (nr_cpus : Z) (i : nat) : nat :=
  if per_cpu e then Nat.max 1 (Z.to_nat nr_cpus - i) else 1%nat.

(** The line [print_runq_occupancy] prints in round [i] when the
    accumulators hold [acc] after the inner loop. *)
Definition occ_line (fm : float_model) (e : env) (i : nat) (acc : Z * Z)
    : out_line :=
  let samples := u64 (fst acc + snd acc) in
  if per_cpu e
  then OccCpu i (runqocc_pct fm (snd acc) samples)
  else OccAll (runqocc_pct fm (snd acc) samples).

(** The lines of consecutive rounds over [rows], from round [i] on. *)
Fixpoint occ_lines (MAX_SLOTS : nat) (fm : float_model) (e : env)
    (i : nat) (acc : Z * Z) (rows : list hist) : list out_line :=
  match rows with
  | [] => []
  | h :: rest =>
      let acc' := scan_slots MAX_SLOTS h acc in
      occ_line fm e i acc' :: occ_lines MAX_SLOTS fm e (S i) acc' rest
  end.

(** The same for [print_linear_hists]. *)
Fixpoint lin_lines (MAX_SLOTS : nat) (e : env) (i : nat) (rows : list hist)
    : list out_line :=
  match rows with
  | [] => []
  | h :: rest =>
      (if per_cpu e then [CpuHeader i] else [])
        ++ LinearHist h MAX_SLOTS "runqlen"
        :: lin_lines MAX_SLOTS e (S i) rest
  end.

(** The percentage an occupancy line carries. *)
Definition line_pct (l : out_line) : option Q :=
  match l with
  | OccCpu _ p => Some p
  | OccAll p => Some p
  | _ => None
  end.

(** A histogram as the header declares it: [MAX_SLOTS] counters of [bits]
    bits each. *)
Definition hist_wf (MAX_SLOTS : nat) (bits : Z) (h : hist) : Prop :=
  length h = MAX_SLOTS /\ Forall (fun v => 0 <= v < 2 ^ bits) h.

(** [hists[MAX_CPU_NR]] *)
Definition table_wf (MAX_SLOTS MAX_CPU_NR : nat) (bits : Z)
    (tbl : list hist) : Prop :=
  length tbl = MAX_CPU_NR /\ Forall (hist_wf MAX_SLOTS bits) tbl.

(** Rows that are arrays of [MAX_SLOTS] counters, none negative. *)
Definition rows_ok (MAX_SLOTS : nat) (rows : list hist) : Prop :=
  Forall (fun h => length h = MAX_SLOTS /\ Forall (fun v => 0 <= v) h) rows.

(** The number of samples a histogram, and a list of them, holds. *)
Definition hist_total (h : hist) : Z := foldr Z.add 0 h.

Definition table_total (rows : list hist) : Z :=
  foldr (fun h t => hist_total h + t) 0 rows.

(** All samples of the histogram are in bucket 0. *)
Definition all_idle (h : hist) : Prop :=
  forall k v, (1 <= k)%nat -> h !! k = Some v -> v = 0.

(** The CPUs whose links a trace destroys, the report calls it makes, and
    the rounds of the loop it begins (each starts with the empty line). *)
Definition destroyed_links (tr : list event) : list nat :=
  omap (fun ev => match ev with LinkDestroy (Some i) => Some i | _ => None end)
       tr.

Definition report_calls (tr : list event) : list (list out_line) :=
  omap (fun ev => match ev with Report ls => Some ls | _ => None end) tr.

Definition rounds_begun (tr : list event) : list unit :=
  omap (fun ev => match ev with Stdout Newline => Some tt | _ => None end) tr.

(** The reports made so far, as a number. *)
Definition ticks_done (s : session) : Z :=
  Z.of_nat (length (report_calls (s_trace s))).

(** Schedules: the number of statements run, and the absence of SIGINT. *)
Definition is_step (a : action) : bool :=
  match a with Step => true | _ => false end.

Definition is_signal (a : action) : bool :=
  match a with Signal => true | _ => false end.

Definition steps (sch : list action) : nat :=
  length (filter (fun a => is_step a = true) sch).

Definition no_signal (sch : list action) : Prop :=
  Forall (fun a => is_signal a = false) sch.

(** A world in which everything up to the attachment succeeds. *)
Definition setup_ok (MAX_CPU_NR : nat) (w : world) : Prop :=
  argp_err w = 0 /\ rlimit_err w = 0 /\ open_ok w = true /\
  possible_cpus w <= Z.of_nat MAX_CPU_NR /\ calloc_ok w = true /\
  load_err w = 0.

(** ** Invariants of the loop *)

(** Where a session that started with [env.times = t0] and met no SIGINT
    stands after [n] statements of the loop.  Each round of the loop is five
    statements; [base] reports preceded the loop. *)
Definition loop_inv (e : env) (nr_cpus : Z) (t0 base : Z) (n : Z)
    (s : session) : Prop :=
  s_exiting s = false
  /\ (rounds e nr_cpus <= length (s_hists s))%nat
  /\ let t := s_times s in
     let round := t0 - t in
     match s_pc s with
     | PSleep =>
         n = 5 * round /\ ticks_done s = base + round /\ 0 <= round
         /\ (1 <= t0 -> 1 <= t)
     | PNewline =>
         n = 5 * round + 1 /\ ticks_done s = base + round /\ 0 <= round
         /\ (1 <= t0 -> 1 <= t)
     | PTimestamp =>
         n = 5 * round + 2 /\ ticks_done s = base + round /\ 0 <= round
         /\ (1 <= t0 -> 1 <= t)
     | PReport =>
         n = 5 * round + 3 /\ ticks_done s = base + round /\ 0 <= round
         /\ (1 <= t0 -> 1 <= t)
     | PCheck =>
         n = 5 * round + 4 /\ ticks_done s = base + round + 1 /\ 0 <= round
         /\ (1 <= t0 -> 1 <= t)
     | PLeft => 1 <= t0 /\ t = 0 /\ ticks_done s = base + t0 /\ 5 * t0 <= n
     | PUndefined => t0 <= 0 /\ t = INT_MIN /\ 5 * round + 4 <= n
     end.

(** Where a round that began with trace [tr] stands after [n] statements,
    whatever signals and sampler stores came in between. *)
Definition round_inv (e : env) (nr_cpus : Z) (tr : list event) (n : nat)
    (s : session) : Prop :=
  (rounds e nr_cpus <= length (s_hists s))%nat
  /\ match n with
     | 0%nat => s_pc s = PNewline /\ s_trace s = tr
     | 1%nat => s_pc s = PTimestamp /\ s_trace s = tr ++ [Stdout Newline]
     | 2%nat =>
         s_pc s = PReport
         /\ s_trace s = tr ++ [Stdout Newline]
                           ++ (if timestamp e then [Stdout Timestamp] else [])
     | 3%nat =>
         s_pc s = PCheck
         /\ exists lines,
              s_trace s = tr ++ [Stdout Newline]
                             ++ (if timestamp e then [Stdout Timestamp] else [])
                             ++ [Report lines]
     | _ => True
     end.

(** Every round begun has made its report, unless the session stands
    between the empty line and the report of the current round. *)
Definition reports_inv (e : env) (nr_cpus : Z) (s : session) : Prop :=
  (rounds e nr_cpus <= length (s_hists s))%nat
  /\ match s_pc s with
     | PTimestamp | PReport =>
         length (rounds_begun (s_trace s))
         = S (length (report_calls (s_trace s)))
     | _ =>
         length (rounds_begun (s_trace s))
         = length (report_calls (s_trace s))
     end.

(** ** The reading of the specification

    The specification describes an occupancy computed from one histogram,
    an aggregate summed over the table, and a budget that ends the session
    after as many reports.  These definitions follow its words; the
    statements below compare them with the code. *)

(** "idle = bucket 0 value, queued = sum of all other buckets,
    samples = idle + queued, occupancy = 100 * queued / max(1, samples)" *)
Definition spec_occupancy (h : hist) : Q :=
  let idle := default 0 (h !! 0%nat) in
  let queued := foldr Z.add 0 (drop 1 h) in
  (100 * (inject_Z queued / inject_Z (Z.max 1 (idle + queued))))%Q.

(** "a Histogram whose bucket k is the sum across all input Histograms'
    bucket k" *)
Definition spec_aggregate (MAX_SLOTS : nat) (hs : list hist) : hist :=
  map (fun k => foldr Z.add 0 (map (fun h => default 0 (h !! k)) hs))
      (seq 0 MAX_SLOTS).

(** "one invocation of the reporter reads and resets the histogram of every
    processor index and emits a single output whose bucket k is the sum
    across all processors' bucket k", for the linear report. *)
Definition spec_aggregate_report (MAX_SLOTS : nat) (e : env) (nr_cpus : Z)
    (tbl : list hist) : Prop :=
  exists r,
    print_linear_hists MAX_SLOTS e nr_cpus (RState tbl []) = Some (tt, r)
    /\ (forall i, Z.of_nat i < nr_cpus ->
                  st_hists r !! i = Some (zero MAX_SLOTS))
    /\ st_out r
       = [LinearHist (spec_aggregate MAX_SLOTS (take (Z.to_nat nr_cpus) tbl))
                     MAX_SLOTS "runqlen"].

(** "a session with sample-count budget k that receives no cancellation
    signal emits exactly k report ticks, then terminates with exit code 0":
    from some number of statements on, every run without SIGINT has ended
    with status 0 after exactly [k] reports. *)
Definition spec_budget_claim (MAX_SLOTS MAX_CPU_NR : nat) (fm : float_model)
    (w : world) (e : env) (k : Z) : Prop :=
  exists n, forall sch,
    no_signal sch -> (n <= steps sch)%nat ->
    exists tr,
      main MAX_SLOTS MAX_CPU_NR fm w (set_times e k) sch = (Exit 0, tr)
      /\ Z.of_nat (length (report_calls tr)) = k.

(** ** Sample inputs *)

(** The tick of the scenario of the specification: two CPUs, four slots. *)
Definition tick1 : list hist := [[5; 2; 1; 0]; [0; 0; 0; 3]].

(** [runqlen] with [-C] when [c], with [-O] when [o], interval 1 and
    count [n]. *)
Definition env_flags (c o : bool) (n : Z) : env :=
  {| per_cpu := c; runqocc := o; timestamp := false;
     interval := 1; times := n; verbose := false |}.

(** A world in which every call of the set-up succeeds, with [n] CPUs. *)
Definition world_ok (n : Z) : world :=
  {| argp_err := 0; rlimit_err := 0; open_ok := true; possible_cpus := n;
     calloc_ok := true; load_err := 0; attach := fun _ => AttachOk |}.

(** The same, but the attachment for CPU [j] fails at [perf_event_open]. *)
Definition world_attach_fails (n : Z) (j : nat) : world :=
  {| argp_err := 0; rlimit_err := 0; open_ok := true; possible_cpus := n;
     calloc_ok := true; load_err := 0;
     attach := fun i => if decide (i = j) then PerfOpenFails else AttachOk |}.

(** Worlds in which one call of the set-up fails. *)
Definition world_rlimit_fails (n : Z) : world :=
  {| argp_err := 0; rlimit_err := -1; open_ok := true; possible_cpus := n;
     calloc_ok := true; load_err := 0; attach := fun _ => AttachOk |}.

Definition world_open_fails (n : Z) : world :=
  {| argp_err := 0; rlimit_err := 0; open_ok := false; possible_cpus := n;
     calloc_ok := true; load_err := 0; attach := fun _ => AttachOk |}.

Definition world_calloc_fails (n : Z) : world :=
  {| argp_err := 0; rlimit_err := 0; open_ok := true; possible_cpus := n;
     calloc_ok := false; load_err := 0; attach := fun _ => AttachOk |}.

Definition world_load_fails (n : Z) : world :=
  {| argp_err := 0; rlimit_err := 0; open_ok := true; possible_cpus := n;
     calloc_ok := true; load_err := -22; attach := fun _ => AttachOk |}.

(** ** The command line: [parse_arg] and [libbpf_print_fn] *)

(** The keys [parse_arg] switches on. *)
Inductive arg_key :=
| KeyVerbose        (* ['v'] *)
| KeyCpus           (* ['C'] *)
| KeyRunqocc        (* ['O'] *)
| KeyTimestamp      (* ['T'] *)
| KeyArg            (* [ARGP_KEY_ARG], a positional argument *)
| KeyOther.         (* any other key: the [default] case *)

(** What [parse_arg] works on: the global [env], its own
    [static int pos_args], and what it has written to [stderr]. *)
Record parse_state := ParseState {
  ps_env : env;
  ps_pos_args : Z;
  ps_err : list string
}.

(** How a call of [parse_arg] ends: it returns 0, it returns
    [ARGP_ERR_UNKNOWN], or it calls [argp_usage], which prints the usage and
    ends the process ([main] passes no flags to [argp_parse]). *)
Inductive parse_result :=
| ParseOk (st : parse_state)
| ParseUnknown (st : parse_state)
| ParseUsage (st : parse_state).

Definition set_per_cpu (e : env) (b : bool) : env :=
  {| per_cpu := b; runqocc := runqocc e; timestamp := timestamp e;
     interval := interval e; times := times e; verbose := verbose e |}.

Definition set_runqocc (e : env) (b : bool) : env :=
  {| per_cpu := per_cpu e; runqocc := b; timestamp := timestamp e;
     interval := interval e; times := times e; verbose := verbose e |}.

Definition set_timestamp (e : env) (b : bool) : env :=
  {| per_cpu := per_cpu e; runqocc := runqocc e; timestamp := b;
     interval := interval e; times := times e; verbose := verbose e |}.

Definition set_verbose (e : env) (b : bool) : env :=
  {| per_cpu := per_cpu e; runqocc := runqocc e; timestamp := timestamp e;
     interval := interval e; times := times e; verbose := b |}.

Definition set_interval (e : env) (t : Z) : env :=
  {| per_cpu := per_cpu e; runqocc := runqocc e; timestamp := timestamp e;
     interval := t; times := times e; verbose := verbose e |}.

Definition with_env (st : parse_state) (e : env) : parse_state :=
  {| ps_env := e; ps_pos_args := ps_pos_args st; ps_err := ps_err st |}.

Definition complain (st : parse_state) (msg : string) : parse_state :=
  {| ps_env := ps_env st; ps_pos_args := ps_pos_args st;
     ps_err := ps_err st ++ [msg] |}.

Definition count_pos_arg (st : parse_state) : parse_state :=
  {| ps_env := ps_env st; ps_pos_args := ps_pos_args st + 1;
     ps_err := ps_err st |}.

(** The conversion of the [long] that [strtol] returns to the [int]
    [env.times]: the value modulo 2^32, as the compilers define it. *)
Definition int_of_long (v : Z) : Z := (v + 2 ^ 31) mod 2 ^ 32 - 2 ^ 31.

Section ParseArg.

(** [strtol(arg, NULL, 10)] of the C library: the value it returns and the
    [errno] it leaves (0 when it reports no error). *)
Variable strtol : string -> Z * Z.

(** [parse_arg].  [env.interval] is a [time_t] and takes the [long] as it
    is. *)
Definition parse_arg (key : arg_key) (arg : string) (st : parse_state)
  : parse_result :=
  match key with
  | KeyVerbose => ParseOk (with_env st (set_verbose (ps_env st) true))
  | KeyCpus => ParseOk (with_env st (set_per_cpu (ps_env st) true))
  | KeyRunqocc => ParseOk (with_env st (set_runqocc (ps_env st) true))
  | KeyTimestamp => ParseOk (with_env st (set_timestamp (ps_env st) true))
  | KeyArg =>
      if ps_pos_args st =? 0 then
        let '(v, errno) := strtol arg in
        let st := with_env st (set_interval (ps_env st) v) in
        if negb (errno =? 0)
        then ParseUsage (complain st "invalid internal")
        else ParseOk (count_pos_arg st)
      else if ps_pos_args st =? 1 then
        let '(v, errno) := strtol arg in
        let st := with_env st (set_times (ps_env st) (int_of_long v)) in
        if negb (errno =? 0)
        then ParseUsage (complain st "invalid times")
        else ParseOk (count_pos_arg st)
      else
        ParseUsage (complain st "unrecognized positional argument")
  | KeyOther => ParseUnknown st
  end.

(** Calls of [parse_arg] one after the other on the same globals, up to the
    call that ends the process. *)
Fixpoint parse_calls (calls : list (arg_key * string)) (st : parse_state)
  : parse_result :=
  match calls with
  | [] => ParseOk st
  | (key, arg) :: rest =>
      match parse_arg key arg st with
      | ParseOk st' => parse_calls rest st'
      | ParseUnknown st' => parse_calls rest st'
      | ParseUsage st' => ParseUsage st'
      end
  end.

End ParseArg.

(** The state before the first call: the initial [env], no positional
    argument seen. *)
Definition parse_start : parse_state :=
  {| ps_env := env_default; ps_pos_args := 0; ps_err := [] |}.

(** [enum libbpf_print_level] of libbpf. *)
Inductive libbpf_print_level :=
| LIBBPF_WARN
| LIBBPF_INFO
| LIBBPF_DEBUG.

(** [libbpf_print_fn]: [msg] is the text [format] and [args] make and [n]
    what [vfprintf] returns for it. *)
Definition libbpf_print_fn (e : env) (level : libbpf_print_level)
    (msg : string) (n : Z) : Z * list event :=
  match level with
  | LIBBPF_DEBUG => if verbose e then (n, [Stderr msg]) else (0, [])
  | _ => (n, [Stderr msg])
  end.

(** ** Vocabulary for the command line *)

(** The positional arguments among the calls, and whether an option key
    occurs. *)
Definition positionals (calls : list (arg_key * string)) : list string :=
  omap (fun c => match fst c with KeyArg => Some (snd c) | _ => None end)
       calls.

Definition is_key (k : arg_key) (c : arg_key * string) : bool :=
  match k, fst c with
  | KeyVerbose, KeyVerbose => true
  | KeyCpus, KeyCpus => true
  | KeyRunqocc, KeyRunqocc => true
  | KeyTimestamp, KeyTimestamp => true
  | KeyArg, KeyArg => true
  | KeyOther, KeyOther => true
  | _, _ => false
  end.

Definition has_key (k : arg_key) (calls : list (arg_key * string)) : bool :=
  existsb (is_key k) calls.

(** A decimal reading of [strtol] for the sample runs: digits only, no
    error. *)
Fixpoint digits_value (acc : Z) (s : string) : Z :=
  match s with
  | EmptyString => acc
  | String c rest =>
      let d := Z.of_nat (Ascii.nat_of_ascii c) - 48 in
      if (0 <=? d) && (d <=? 9) then digits_value (10 * acc + d) rest
      else acc
  end.

Definition strtol_digits (s : string) : Z * Z := (digits_value 0 s, 0).

(** The diagnostic the positional arguments [ps] lead to, if any: the first
    must convert, then the second, and there is no third. *)
Definition usage_message (strtol : string -> Z * Z) (ps : list string)
  : option string :=
  match ps with
  | [] => None
  | a :: r =>
      if negb (snd (strtol a) =? 0) then Some "invalid internal"%string
      else match r with
           | [] => None
           | b :: r' =>
               if negb (snd (strtol b) =? 0) then Some "invalid times"%string
               else match r' with
                    | [] => None
                    | _ :: _ =>
                        Some "unrecognized positional argument"%string
                    end
           end
  end.

(** The calls end in [argp_usage] after the one diagnostic [m]. *)
Definition usage_with (strtol : string -> Z * Z)
    (calls : list (arg_key * string)) (st : parse_state) (m : string)
  : Prop :=
  exists st',
    parse_calls strtol calls st = ParseUsage st'
    /\ ps_err st' = ps_err st ++ [m].

(** The calls all return, without a diagnostic, and leave [interval],
    [times] and [pos_args] at the values given. *)
Definition parsed_with (strtol : string -> Z * Z)
    (calls : list (arg_key * string)) (st : parse_state) (iv tm n : Z)
  : Prop :=
  exists st',
    parse_calls strtol calls st = ParseOk st'
    /\ ps_err st' = ps_err st
    /\ interval (ps_env st') = iv
    /\ times (ps_env st') = tm
    /\ ps_pos_args st' = n.

(** ** Vocabulary for the further facts *)

(** A line that reports no sample: occupancy 0, or the all-zero histogram
    (the line [cpu = i] says nothing about samples). *)
Definition quiet_line (MAX_SLOTS : nat) (l : out_line) : Prop :=
  match l with
  | OccCpu _ p => (p == 0)%Q
  | OccAll p => (p == 0)%Q
  | CpuHeader _ => True
  | LinearHist h _ _ => h = zero MAX_SLOTS
  | _ => False
  end.

(** The events the loop of [main] adds to the trace: what it prints and the
    reports it makes. *)
Definition loop_event (ev : event) : Prop :=
  match ev with
  | Stdout _ => True
  | Report _ => True
  | _ => False
  end.

(** The timestamps printed so far. *)
Definition timestamps (tr : list event) : list unit :=
  omap (fun ev => match ev with Stdout Timestamp => Some tt | _ => None end)
       tr.

(** A session that started with a count of 1 or more: it has met no
    undefined behaviour, and while it is in the loop the count is still 1
    or more. *)
Definition alive_inv (e : env) (nr_cpus : Z) (s : session) : Prop :=
  (rounds e nr_cpus <= length (s_hists s))%nat
  /\ s_pc s <> PUndefined
  /\ (s_pc s <> PLeft -> 1 <= s_times s).

(** The statements between a place of the loop and the [break] when
    [exiting] is set, and the reports made on the way. *)
Definition dist_to_exit (p : pc) : nat :=
  match p with
  | PSleep => 5
  | PNewline => 4
  | PTimestamp => 3
  | PReport => 2
  | PCheck => 1
  | PLeft => 0
  | PUndefined => 0
  end.

Definition reports_ahead (p : pc) : nat :=
  match p with
  | PSleep | PNewline | PTimestamp | PReport => 1
  | _ => 0
  end.

(** With [-T] every report has its timestamp, printed just before it;
    without, there is none. *)
Definition stamps_inv (e : env) (nr_cpus : Z) (s : session) : Prop :=
  (rounds e nr_cpus <= length (s_hists s))%nat
  /\ if timestamp e
     then match s_pc s with
          | PReport =>
              length (timestamps (s_trace s))
              = S (length (report_calls (s_trace s)))
          | _ =>
              length (timestamps (s_trace s))
              = length (report_calls (s_trace s))
          end
     else timestamps (s_trace s) = [].

(** * Facts *)

(** ** The reporter monad *)

Lemma read_hists_middle (pre post : list hist) (h : hist) out :
  read_hists (length pre) (RState (pre ++ h :: post) out)
  = Some (h, RState (pre ++ h :: post) out).
Proof.
  unfold read_hists; simpl.
  by rewrite list_lookup_middle.
Qed.

Lemma write_hists_middle (pre post : list hist) (h h' : hist) out :
  write_hists (length pre) h' (RState (pre ++ h :: post) out)
  = Some (tt, RState (pre ++ h' :: post) out).
Proof.
  unfold write_hists; simpl.
  rewrite decide_True.
  - replace (length pre) with (length pre + 0)%nat by lia.
    by rewrite insert_app_r.
  - rewrite length_app; simpl; lia.
Qed.

Section ReporterFacts.

Variable MAX_SLOTS : nat.
Variable fm : float_model.
Variable e : env.
Variable nr_cpus : Z.

Lemma rounds_from_0 : rounds_from e nr_cpus 0 = rounds e nr_cpus.
Proof. unfold rounds_from, rounds. destruct (per_cpu e); lia. Qed.

Lemma rounds_from_pos i : (1 <= rounds_from e nr_cpus i)%nat.
Proof. unfold rounds_from. destruct (per_cpu e); lia. Qed.

Lemma loop_goes_on i :
  per_cpu e && (Z.of_nat (S i) <? nr_cpus) = true
  -> rounds_from e nr_cpus i = S (rounds_from e nr_cpus (S i)).
Proof.
  unfold rounds_from.
  destruct (per_cpu e); simpl; [|done].
  intros H%Z.ltb_lt. lia.
Qed.

Lemma loop_stops i :
  per_cpu e && (Z.of_nat (S i) <? nr_cpus) = false
  -> rounds_from e nr_cpus i = 1%nat.
Proof.
  unfold rounds_from.
  destruct (per_cpu e); simpl; [|done].
  intros H%Z.ltb_ge. lia.
Qed.

Lemma runq_occupancy_loop_rows (rows : list hist) :
  forall fuel i acc pre post out,
    length pre = i ->
    length rows = rounds_from e nr_cpus i ->
    (length rows <= fuel)%nat ->
    runq_occupancy_loop MAX_SLOTS fm e nr_cpus fuel i (fst acc) (snd acc)
      (RState (pre ++ rows ++ post) out)
    = Some (tt, RState (pre ++ replicate (length rows) (zero MAX_SLOTS)
                            ++ post)
                       (out ++ occ_lines MAX_SLOTS fm e i acc rows)).
Proof.
  induction rows as [|h rest IH]; intros fuel i acc pre post out Hi Hn Hf.
  - pose proof (rounds_from_pos i). simpl in Hn. lia.
  - destruct fuel as [|fuel]; [simpl in Hf; lia|].
    subst i. simpl runq_occupancy_loop. unfold bind at 1.
    simpl app. rewrite read_hists_middle.
    unfold bind at 1. rewrite write_hists_middle.
    rewrite <- surjective_pairing.
    destruct (scan_slots MAX_SLOTS h acc) as [idle' queued'] eqn:Hscan.
    unfold bind at 1.
    assert (Hpr : forall s,
      (if per_cpu e
       then printf (OccCpu (length pre)
              (runqocc_pct fm queued' (u64 (idle' + queued'))))
       else printf (OccAll
              (runqocc_pct fm queued' (u64 (idle' + queued'))))) s
      = Some (tt, RState (st_hists s)
                (st_out s ++ [occ_line fm e (length pre) (idle', queued')]))).
    { intros s. unfold occ_line. simpl. by destruct (per_cpu e). }
    rewrite Hpr. simpl st_hists. simpl st_out.
    destruct (per_cpu e && (Z.of_nat (S (length pre)) <? nr_cpus)) eqn:Hgo.
    + apply loop_goes_on in Hgo.
      specialize (IH fuel (S (length pre)) (idle', queued')
                     (pre ++ [zero MAX_SLOTS]) post
                     (out ++ [occ_line fm e (length pre) (idle', queued')])).
      simpl in IH. rewrite <- !app_assoc in IH. simpl in IH.
      rewrite IH.
      * done.
      * rewrite length_app. simpl. lia.
      * simpl in Hn. lia.
      * simpl in Hf. lia.
    + apply loop_stops in Hgo.
      simpl in Hn. rewrite Hgo in Hn.
      destruct rest; [|simpl in Hn; lia].
      done.
Qed.


Lemma linear_hists_loop_rows (rows : list hist) :
  forall fuel i pre post out,
    length pre = i ->
    length rows = rounds_from e nr_cpus i ->
    (length rows <= fuel)%nat ->
    linear_hists_loop MAX_SLOTS e nr_cpus fuel i
      (RState (pre ++ rows ++ post) out)
    = Some (tt, RState (pre ++ replicate (length rows) (zero MAX_SLOTS)
                            ++ post)
                       (out ++ lin_lines MAX_SLOTS e i rows)).
Proof.
  induction rows as [|h rest IH]; intros fuel i pre post out Hi Hn Hf.
  - pose proof (rounds_from_pos i). simpl in Hn. lia.
  - destruct fuel as [|fuel]; [simpl in Hf; lia|].
    subst i. simpl linear_hists_loop. unfold bind at 1.
    simpl app. rewrite read_hists_middle.
    unfold bind at 1. rewrite write_hists_middle.
    unfold bind at 1.
    set (hdr := if per_cpu e then [CpuHeader (length pre)] else []).
    assert (Hpr : forall s,
      (if per_cpu e then printf (CpuHeader (length pre)) else ret tt) s
      = Some (tt, RState (st_hists s) (st_out s ++ hdr))).
    { intros [hs o]. unfold hdr. destruct (per_cpu e); simpl; [done|].
      unfold ret. by rewrite app_nil_r. }
    rewrite Hpr. simpl st_hists. simpl st_out.
    unfold bind at 1. unfold printf at 1. simpl st_hists. simpl st_out.
    destruct (per_cpu e && (Z.of_nat (S (length pre)) <? nr_cpus)) eqn:Hgo.
    + apply loop_goes_on in Hgo.
      specialize (IH fuel (S (length pre)) (pre ++ [zero MAX_SLOTS]) post
        ((out ++ hdr) ++ [LinearHist h MAX_SLOTS "runqlen"])).
      simpl in IH. rewrite <- !app_assoc in IH. simpl in IH.
      rewrite <- !app_assoc. rewrite IH.
      * done.
      * rewrite length_app. simpl. lia.
      * simpl in Hn. lia.
      * simpl in Hf. lia.
    + apply loop_stops in Hgo.
      simpl in Hn. rewrite Hgo in Hn.
      destruct rest; [|simpl in Hn; lia].
      simpl. rewrite <- !app_assoc. done.
Qed.

(** The two report functions in closed form: the first [rounds] rows are
    read and cleared, and each contributes its lines. *)
Lemma print_runq_occupancy_rows (tbl : list hist) out :
  (rounds e nr_cpus <= length tbl)%nat ->
  print_runq_occupancy MAX_SLOTS fm e nr_cpus (RState tbl out)
  = Some (tt, RState (replicate (rounds e nr_cpus) (zero MAX_SLOTS)
                        ++ drop (rounds e nr_cpus) tbl)
                     (out ++ occ_lines MAX_SLOTS fm e 0 (0, 0)
                               (take (rounds e nr_cpus) tbl))).
Proof.
  intros Hlen. unfold print_runq_occupancy.
  pose proof (runq_occupancy_loop_rows (take (rounds e nr_cpus) tbl)
    (loop_fuel nr_cpus) 0%nat (0, 0) [] (drop (rounds e nr_cpus) tbl) out)
    as H.
  simpl in H. rewrite take_drop in H.
  rewrite length_take, Nat.min_l in H by done.
  apply H; [done| by rewrite rounds_from_0 |].
  unfold rounds, loop_fuel. destruct (per_cpu e); lia.
Qed.

Lemma print_linear_hists_rows (tbl : list hist) out :
  (rounds e nr_cpus <= length tbl)%nat ->
  print_linear_hists MAX_SLOTS e nr_cpus (RState tbl out)
  = Some (tt, RState (replicate (rounds e nr_cpus) (zero MAX_SLOTS)
                        ++ drop (rounds e nr_cpus) tbl)
                     (out ++ lin_lines MAX_SLOTS e 0
                               (take (rounds e nr_cpus) tbl))).
Proof.
  intros Hlen. unfold print_linear_hists.
  pose proof (linear_hists_loop_rows (take (rounds e nr_cpus) tbl)
    (loop_fuel nr_cpus) 0%nat [] (drop (rounds e nr_cpus) tbl) out) as H.
  simpl in H. rewrite take_drop in H.
  rewrite length_take, Nat.min_l in H by done.
  apply H; [done| by rewrite rounds_from_0 |].
  unfold rounds, loop_fuel. destruct (per_cpu e); lia.
Qed.

End ReporterFacts.

(** ** Rounding *)

Lemma exact_arith_ok : float_model_ok exact_arith.
Proof. split; simpl; intros; (done || apply Qeq_refl). Qed.

Section Rounding.

Variable fm : float_model.
Hypothesis fm_ok : float_model_ok fm.

Lemma to_double_proper x y :
  (x == y)%Q -> (to_double fm x == to_double fm y)%Q.
Proof.
  intros Hxy. apply Qle_antisym; apply (to_double_mono fm fm_ok);
    rewrite Hxy; apply Qle_refl.
Qed.

Lemma to_float_proper x y :
  (x == y)%Q -> (to_float fm x == to_float fm y)%Q.
Proof.
  intros Hxy. apply Qle_antisym; apply (to_float_mono fm fm_ok);
    rewrite Hxy; apply Qle_refl.
Qed.

(** Integers that fit in the significand are exact. *)
Lemma to_double_int (z : Z) :
  Z.abs z <= 2 ^ 53 -> (to_double fm (inject_Z z) == inject_Z z)%Q.
Proof.
  intros Hz.
  assert (Hq : (inject_Z z == inject_Z z / inject_Z (2 ^ 0))%Q).
  { change (inject_Z (2 ^ 0)) with 1%Q. unfold Qdiv. field. }
  eapply Qeq_trans; [apply (to_double_proper _ _ Hq)|].
  eapply Qeq_trans; [apply (to_double_exact fm fm_ok); lia|].
  apply Qeq_sym, Hq.
Qed.

Lemma to_float_int (z : Z) :
  Z.abs z <= 2 ^ 24 -> (to_float fm (inject_Z z) == inject_Z z)%Q.
Proof.
  intros Hz.
  assert (Hq : (inject_Z z == inject_Z z / inject_Z (2 ^ 0))%Q).
  { change (inject_Z (2 ^ 0)) with 1%Q. unfold Qdiv. field. }
  eapply Qeq_trans; [apply (to_float_proper _ _ Hq)|].
  eapply Qeq_trans; [apply (to_float_exact fm fm_ok); lia|].
  apply Qeq_sym, Hq.
Qed.

Lemma to_double_0 : (to_double fm 0 == 0)%Q.
Proof. apply (to_double_int 0). by vm_compute. Qed.

Lemma to_double_1 : (to_double fm 1 == 1)%Q.
Proof. apply (to_double_int 1). by vm_compute. Qed.

Lemma to_float_0 : (to_float fm 0 == 0)%Q.
Proof. apply (to_float_int 0). by vm_compute. Qed.

Lemma to_float_1 : (to_float fm 1 == 1)%Q.
Proof. apply (to_float_int 1). by vm_compute. Qed.

Lemma to_float_100 : (to_float fm 100 == 100)%Q.
Proof. apply (to_float_int 100). by vm_compute. Qed.

Lemma to_double_nonneg x : (0 <= x)%Q -> (0 <= to_double fm x)%Q.
Proof.
  intros Hx. rewrite <- to_double_0.
  by apply (to_double_mono fm fm_ok).
Qed.

(** The divisor is at least 1 whatever the sample count: the quotient is
    never taken by zero. *)
Lemma runqocc_divisor_ge_1 samples : (1 <= runqocc_divisor fm samples)%Q.
Proof.
  unfold runqocc_divisor. rewrite <- to_double_1 at 1.
  apply (to_double_mono fm fm_ok).
  change 1%Q with (inject_Z 1). rewrite <- Zle_Qle. lia.
Qed.

Lemma runqocc_ratio_bounds queued samples :
  0 <= queued <= Z.max 1 samples ->
  (0 <= runqocc_ratio fm queued samples <= 1)%Q.
Proof.
  intros [Hq0 Hqs]. unfold runqocc_ratio.
  pose proof (runqocc_divisor_ge_1 samples) as Hden.
  set (num := to_double fm (to_double fm (inject_Z queued) * 1)).
  assert (Hnum0 : (0 <= num)%Q).
  { apply to_double_nonneg.
    assert (0 <= to_double fm (inject_Z queued))%Q; [|lra].
    apply to_double_nonneg. change 0%Q with (inject_Z 0).
    by rewrite <- Zle_Qle. }
  assert (Hnum1 : (num <= runqocc_divisor fm samples)%Q).
  { unfold num, runqocc_divisor.
    rewrite <- (to_double_idem fm fm_ok (inject_Z (Z.max 1 samples))).
    apply (to_double_mono fm fm_ok).
    assert (to_double fm (inject_Z queued)
            <= to_double fm (inject_Z (Z.max 1 samples)))%Q; [|lra].
    apply (to_double_mono fm fm_ok). by rewrite <- Zle_Qle. }
  split.
  - rewrite <- to_float_0. apply (to_float_mono fm fm_ok).
    apply to_double_nonneg. apply Qle_shift_div_l; lra.
  - rewrite <- to_float_1. apply (to_float_mono fm fm_ok).
    rewrite <- to_double_1. apply (to_double_mono fm fm_ok).
    apply Qle_shift_div_r; lra.
Qed.

Lemma runqocc_pct_bounds queued samples :
  0 <= queued <= Z.max 1 samples ->
  (0 <= runqocc_pct fm queued samples <= 100)%Q.
Proof.
  intros H. apply runqocc_ratio_bounds in H. unfold runqocc_pct.
  pose proof to_float_100 as H100.
  split.
  - rewrite <- to_float_0. apply (to_float_mono fm fm_ok).
    rewrite H100. lra.
  - rewrite <- H100 at 2. apply (to_float_mono fm fm_ok).
    rewrite H100. lra.
Qed.

Lemma to_double_eq_0 x : (x == 0)%Q -> (to_double fm x == 0)%Q.
Proof.
  intros Hx. rewrite (to_double_proper x 0 Hx). apply to_double_0.
Qed.

Lemma to_float_eq_0 x : (x == 0)%Q -> (to_float fm x == 0)%Q.
Proof.
  intros Hx. rewrite (to_float_proper x 0 Hx). apply to_float_0.
Qed.

Lemma runqocc_pct_0 samples : (runqocc_pct fm 0 samples == 0)%Q.
Proof.
  unfold runqocc_pct, runqocc_ratio.
  apply to_float_eq_0.
  assert (Hq : (to_float fm (to_double fm (to_double fm
                  (to_double fm (inject_Z 0) * 1)
                  / runqocc_divisor fm samples)) == 0)%Q).
  { apply to_float_eq_0, to_double_eq_0.
    assert (Hnum : (to_double fm (to_double fm (inject_Z 0) * 1) == 0)%Q).
    { apply to_double_eq_0. change (inject_Z 0) with 0%Q.
      rewrite to_double_0. lra. }
    rewrite Hnum. unfold Qdiv. lra. }
  rewrite Hq. lra.
Qed.

Lemma to_double_dyadic (m k : Z) (x : Q) :
  Z.abs m <= 2 ^ 53 -> 0 <= k <= 64 ->
  (x == inject_Z m / inject_Z (2 ^ k))%Q ->
  (to_double fm x == x)%Q.
Proof.
  intros Hm Hk Hx.
  eapply Qeq_trans; [apply (to_double_proper _ _ Hx)|].
  eapply Qeq_trans; [by apply (to_double_exact fm fm_ok)|].
  apply Qeq_sym, Hx.
Qed.

Lemma to_float_dyadic (m k : Z) (x : Q) :
  Z.abs m <= 2 ^ 24 -> 0 <= k <= 64 ->
  (x == inject_Z m / inject_Z (2 ^ k))%Q ->
  (to_float fm x == x)%Q.
Proof.
  intros Hm Hk Hx.
  eapply Qeq_trans; [apply (to_float_proper _ _ Hx)|].
  eapply Qeq_trans; [by apply (to_float_exact fm fm_ok)|].
  apply Qeq_sym, Hx.
Qed.

Lemma to_double_le (m k : Z) (x b : Q) :
  Z.abs m <= 2 ^ 53 -> 0 <= k <= 64 ->
  (b == inject_Z m / inject_Z (2 ^ k))%Q ->
  (x <= b)%Q -> (to_double fm x <= b)%Q.
Proof.
  intros Hm Hk Hb Hx.
  eapply Qle_trans; [apply (to_double_mono fm fm_ok), Hx|].
  rewrite (to_double_dyadic m k b) by done. apply Qle_refl.
Qed.

Lemma to_double_ge (m k : Z) (x a : Q) :
  Z.abs m <= 2 ^ 53 -> 0 <= k <= 64 ->
  (a == inject_Z m / inject_Z (2 ^ k))%Q ->
  (a <= x)%Q -> (a <= to_double fm x)%Q.
Proof.
  intros Hm Hk Ha Hx.
  eapply Qle_trans; [|apply (to_double_mono fm fm_ok), Hx].
  rewrite (to_double_dyadic m k a) by done. apply Qle_refl.
Qed.

Lemma to_float_le (m k : Z) (x b : Q) :
  Z.abs m <= 2 ^ 24 -> 0 <= k <= 64 ->
  (b == inject_Z m / inject_Z (2 ^ k))%Q ->
  (x <= b)%Q -> (to_float fm x <= b)%Q.
Proof.
  intros Hm Hk Hb Hx.
  eapply Qle_trans; [apply (to_float_mono fm fm_ok), Hx|].
  rewrite (to_float_dyadic m k b) by done. apply Qle_refl.
Qed.

Lemma to_float_ge (m k : Z) (x a : Q) :
  Z.abs m <= 2 ^ 24 -> 0 <= k <= 64 ->
  (a == inject_Z m / inject_Z (2 ^ k))%Q ->
  (a <= x)%Q -> (a <= to_float fm x)%Q.
Proof.
  intros Hm Hk Ha Hx.
  eapply Qle_trans; [|apply (to_float_mono fm fm_ok), Hx].
  rewrite (to_float_dyadic m k a) by done. apply Qle_refl.
Qed.

(** The value printed for [queued = 6] and [samples = 11], under any
    rounding: 6/11 lies between 1/2 and 3/4, which are exact. *)
Lemma runqocc_pct_6_11 : (50 <= runqocc_pct fm 6 11 <= 75)%Q.
Proof.
  unfold runqocc_pct, runqocc_ratio, runqocc_divisor.
  change (Z.max 1 11) with 11.
  assert (Hnum : (to_double fm (to_double fm (inject_Z 6) * 1) == 6)%Q).
  { assert (Hx : (to_double fm (inject_Z 6) * 1 == 6)%Q).
    { rewrite (to_double_int 6) by (by vm_compute). by vm_compute. }
    eapply Qeq_trans; [|exact Hx].
    apply (to_double_dyadic 6 0); [by vm_compute | lia |].
    rewrite Hx. by vm_compute. }
  assert (Hden : (to_double fm (inject_Z 11) == 11)%Q).
  { apply (to_double_int 11). by vm_compute. }
  set (q := to_double fm (to_double fm (to_double fm (inject_Z 6) * 1)
                          / to_double fm (inject_Z 11))).
  assert (Hq : (1 # 2 <= q <= 3 # 4)%Q).
  { unfold q. split.
    - apply (to_double_ge 1 1); [by vm_compute | lia | by vm_compute |].
      rewrite Hnum, Hden. by vm_compute.
    - apply (to_double_le 3 2); [by vm_compute | lia | by vm_compute |].
      rewrite Hnum, Hden. by vm_compute. }
  assert (Hr : (1 # 2 <= to_float fm q <= 3 # 4)%Q).
  { split.
    - apply (to_float_ge 1 1); [by vm_compute | lia | by vm_compute |].
      apply Hq.
    - apply (to_float_le 3 2); [by vm_compute | lia | by vm_compute |].
      apply Hq. }
  pose proof to_float_100 as H100.
  split.
  - apply (to_float_ge 50 0); [by vm_compute | lia | by vm_compute |].
    rewrite H100. lra.
  - apply (to_float_le 75 0); [by vm_compute | lia | by vm_compute |].
    rewrite H100. lra.
Qed.

End Rounding.

(** ** The accumulators of the occupancy loop *)

Lemma u64_small z : 0 <= z < u64_max -> u64 z = z.
Proof. intros H. unfold u64. by apply Z.mod_small. Qed.

Lemma hist_total_nonneg (h : hist) :
  Forall (fun v => 0 <= v) h -> 0 <= hist_total h.
Proof.
  induction 1 as [|v t Hv _ IH]; unfold hist_total in *; simpl; lia.
Qed.

Lemma hist_total_app (h1 h2 : hist) :
  hist_total (h1 ++ h2) = hist_total h1 + hist_total h2.
Proof.
  induction h1 as [|v t IH]; unfold hist_total in *; simpl; lia.
Qed.

Lemma hist_total_split (h : hist) :
  hist_total h = hist_total (take 1 h) + hist_total (drop 1 h).
Proof. by rewrite <- hist_total_app, take_drop. Qed.

Lemma table_total_nonneg (rows : list hist) :
  Forall (Forall (fun v => 0 <= v)) rows -> 0 <= table_total rows.
Proof.
  induction 1 as [|h t Hh _ IH]; unfold table_total in *; simpl; [done|].
  apply hist_total_nonneg in Hh. lia.
Qed.

Section Scan.

Variable h : hist.
Hypothesis h_nonneg : Forall (fun v => 0 <= v) h.

Lemma scan_tail (n : nat) :
  forall (a : nat) (idle queued : Z),
    (1 <= a)%nat ->
    0 <= queued ->
    queued + hist_total (take n (drop a h)) < u64_max ->
    foldl (slot_step h) (idle, queued) (seq a n)
    = (idle, queued + hist_total (take n (drop a h))).
Proof.
  induction n as [|n IH]; intros a idle queued Ha Hq Hlt.
  - unfold hist_total. simpl. by rewrite Z.add_0_r.
  - simpl seq. simpl foldl.
    rewrite decide_False by lia.
    destruct (h !! a) as [v|] eqn:Hv.
    + rewrite (drop_S _ _ _ Hv) in Hlt |- *. simpl in Hlt |- *.
      assert (0 <= v) by (eapply (Forall_lookup_1 _ _ _ _ h_nonneg); done).
      assert (0 <= hist_total (take n (drop (S a) h))).
      { apply hist_total_nonneg.
        eapply Forall_take, Forall_drop, h_nonneg. }
      unfold hist_total in *.
      rewrite u64_small by lia.
      rewrite IH; [f_equal; lia | lia | lia | lia].
    + apply lookup_ge_None in Hv. simpl default.
      rewrite drop_ge in Hlt |- * by lia.
      rewrite take_nil in Hlt |- *. simpl in Hlt |- *.
      rewrite Z.add_0_r in Hlt |- *.
      rewrite u64_small by lia.
      rewrite IH; [| lia | lia |].
      * rewrite drop_ge by lia. rewrite take_nil. simpl. f_equal; lia.
      * rewrite drop_ge by lia. rewrite take_nil. simpl. lia.
Qed.

End Scan.

(** Without wrap-around the inner loop adds bucket 0 to [idle] and the
    other buckets to [queued]. *)
Lemma scan_slots_exact (h : hist) (idle queued : Z) :
  Forall (fun v => 0 <= v) h ->
  0 <= idle -> 0 <= queued ->
  idle + queued + hist_total h < u64_max ->
  scan_slots (length h) h (idle, queued)
  = (idle + hist_total (take 1 h), queued + hist_total (drop 1 h)).
Proof.
  intros Hnn Hi Hq Hlt. unfold scan_slots.
  destruct h as [|v t].
  - simpl. unfold hist_total. simpl. by rewrite !Z.add_0_r.
  - pose proof Hnn as Hnn'. apply Forall_cons_1 in Hnn' as [Hv Ht].
    apply hist_total_nonneg in Ht.
    assert (Htot : hist_total (v :: t) = v + hist_total t) by done.
    simpl length. simpl seq. simpl foldl.
    rewrite u64_small by lia.
    assert (Hdrop : take (length t) (drop 1 (v :: t)) = t).
    { simpl. by rewrite drop_0, firstn_all. }
    rewrite (scan_tail (v :: t) Hnn (length t) 1 (idle + v) queued);
      rewrite ?Hdrop; [| lia | lia | lia].
    simpl. rewrite drop_0. unfold hist_total. simpl. f_equal; lia.
Qed.

(** ** The lines of the occupancy report *)

Lemma hist_wf_nonneg MAX_SLOTS bits (h : hist) :
  hist_wf MAX_SLOTS bits h -> Forall (fun v => 0 <= v) h.
Proof. intros [_ H]. eapply Forall_impl; [exact H|]. simpl. lia. Qed.

Lemma hist_total_bound MAX_SLOTS bits (h : hist) :
  hist_wf MAX_SLOTS bits h ->
  hist_total h <= Z.of_nat MAX_SLOTS * (2 ^ bits - 1).
Proof.
  intros [Hlen H]. subst MAX_SLOTS.
  induction H as [|v t Hv _ IH]; unfold hist_total in *; simpl length.
  - simpl. lia.
  - simpl foldr. lia.
Qed.

Lemma table_total_bound MAX_SLOTS bits (rows : list hist) :
  Forall (hist_wf MAX_SLOTS bits) rows ->
  table_total rows
  <= Z.of_nat (length rows) * (Z.of_nat MAX_SLOTS * (2 ^ bits - 1)).
Proof.
  induction 1 as [|h t Hh _ IH]; unfold table_total in *; simpl length.
  - simpl. lia.
  - simpl foldr. apply hist_total_bound in Hh. lia.
Qed.

Lemma all_idle_queued_0 (h : hist) :
  all_idle h -> hist_total (drop 1 h) = 0.
Proof.
  intros Hidle.
  assert (H0 : Forall (fun v => v = 0) (drop 1 h)).
  { apply Forall_lookup_2. intros k v Hk. rewrite lookup_drop in Hk.
    apply (Hidle (1 + k)%nat v); [lia | done]. }
  induction H0 as [|v t Hv _ IH]; unfold hist_total in *; simpl; lia.
Qed.

Section OccLines.

Variable MAX_SLOTS : nat.
Variable fm : float_model.
Variable e : env.
Hypothesis fm_ok : float_model_ok fm.

Lemma occ_line_pct i acc :
  line_pct (occ_line fm e i acc)
  = Some (runqocc_pct fm (snd acc) (u64 (fst acc + snd acc))).
Proof. unfold occ_line. by destruct (per_cpu e). Qed.

Lemma occ_lines_bounds (rows : list hist) :
  forall i idle queued,
    rows_ok MAX_SLOTS rows ->
    0 <= idle -> 0 <= queued ->
    idle + queued + table_total rows < u64_max ->
    Forall (fun l => exists p, line_pct l = Some p /\ (0 <= p <= 100)%Q)
           (occ_lines MAX_SLOTS fm e i (idle, queued) rows).
Proof.
  induction rows as [|h rest IH]; intros i idle queued Hok Hi Hq Hlt.
  - constructor.
  - apply Forall_cons_1 in Hok as [[Hlen Hnn] Hok].
    pose proof (table_total_nonneg rest) as Hrest.
    assert (0 <= table_total rest).
    { apply Hrest. eapply Forall_impl; [exact Hok|]. by intros ? [_ ?]. }
    pose proof (hist_total_nonneg _ Hnn) as Hh.
    pose proof (hist_total_split h) as Hsplit.
    assert (0 <= hist_total (take 1 h))
      by (apply hist_total_nonneg, Forall_take, Hnn).
    assert (0 <= hist_total (drop 1 h))
      by (apply hist_total_nonneg, Forall_drop, Hnn).
    change (table_total (h :: rest))
      with (hist_total h + table_total rest) in Hlt.
    assert (Hscan : scan_slots MAX_SLOTS h (idle, queued)
      = (idle + hist_total (take 1 h), queued + hist_total (drop 1 h))).
    { rewrite <- Hlen. apply scan_slots_exact; (done || lia). }
    cbn [occ_lines]. rewrite Hscan.
    constructor.
    + eexists. split; [apply occ_line_pct|]. cbn [fst snd].
      rewrite u64_small by lia.
      apply runqocc_pct_bounds; [done | lia].
    + apply IH; [done | lia | lia | lia].
Qed.

Lemma occ_lines_all_idle (rows : list hist) :
  forall i idle j l,
    rows_ok MAX_SLOTS rows ->
    0 <= idle ->
    idle + table_total rows < u64_max ->
    occ_lines MAX_SLOTS fm e i (idle, 0) rows !! j = Some l ->
    (forall k h, (k <= j)%nat -> rows !! k = Some h -> all_idle h) ->
    exists p, line_pct l = Some p /\ (p == 0)%Q.
Proof.
  induction rows as [|h rest IH]; intros i idle j l Hok Hi Hlt Hl Hidle.
  - done.
  - apply Forall_cons_1 in Hok as [[Hlen Hnn] Hok].
    assert (0 <= table_total rest).
    { apply table_total_nonneg.
      eapply Forall_impl; [exact Hok|]. by intros ? [_ ?]. }
    pose proof (hist_total_split h) as Hsplit.
    assert (0 <= hist_total (take 1 h))
      by (apply hist_total_nonneg, Forall_take, Hnn).
    assert (Hq0 : hist_total (drop 1 h) = 0).
    { apply all_idle_queued_0, (Hidle 0%nat); [lia | done]. }
    change (table_total (h :: rest))
      with (hist_total h + table_total rest) in Hlt.
    assert (Hscan : scan_slots MAX_SLOTS h (idle, 0)
      = (idle + hist_total (take 1 h), 0 + hist_total (drop 1 h))).
    { rewrite <- Hlen. apply scan_slots_exact; (done || lia). }
    cbn [occ_lines] in Hl. rewrite Hscan in Hl.
    rewrite Hq0, Z.add_0_l in Hl.
    destruct j as [|j]; simpl in Hl.
    + injection Hl as <-. eexists. split; [apply occ_line_pct|].
      cbn [fst snd]. by apply runqocc_pct_0.
    + eapply (IH (S i) _ j l); [done | | | exact Hl |]; [lia | lia |].
      intros k h' Hk Hh'. apply (Hidle (S k) h'); [lia | done].
Qed.

End OccLines.

(** ** The reporter: claims *)

Lemma hist_total_0_all_idle (h : hist) :
  Forall (fun v => 0 <= v) h -> hist_total h = 0 -> all_idle h.
Proof.
  intros Hnn Htot.
  assert (H0 : Forall (fun v => v = 0) h).
  { induction Hnn as [|v t Hv Ht IH]; [constructor|].
    pose proof (hist_total_nonneg t Ht) as Hpos.
    change (hist_total (v :: t)) with (v + hist_total t) in Htot.
    constructor; [lia | apply IH; lia]. }
  intros k v _ Hk. by apply (Forall_lookup_1 _ _ _ _ H0 Hk).
Qed.

Lemma occ_lines_length MAX_SLOTS fm e (rows : list hist) :
  forall i acc, length (occ_lines MAX_SLOTS fm e i acc rows) = length rows.
Proof.
  induction rows as [|h rest IH]; intros i acc; simpl; [done|].
  by rewrite IH.
Qed.

Lemma rounds_le_table (MAX_CPU_NR : nat) e nr_cpus (tbl : list hist) :
  length tbl = MAX_CPU_NR ->
  (1 <= MAX_CPU_NR)%nat ->
  nr_cpus <= Z.of_nat MAX_CPU_NR ->
  (rounds e nr_cpus <= length tbl)%nat.
Proof. intros -> H1 Hn. unfold rounds. destruct (per_cpu e); lia. Qed.

(** X16: every percentage of an occupancy report lies between 0 and 100,
    and the divisor of the quotient is at least 1, so that no division by
    zero occurs.  The accumulators run across the rows of a tick: line [j]
    is 0 when every row from 0 to [j] has all its samples in bucket 0, in
    particular when those rows hold no sample at all.  The counters have
    [bits] bits and the table is small enough for the 64-bit accumulators
    not to wrap. *)
Theorem occupancy_pct_in_range (MAX_SLOTS MAX_CPU_NR : nat) (bits : Z)
    (fm : float_model) (e : env) (nr_cpus : Z) (tbl : list hist)
    (out : list out_line) :
  float_model_ok fm ->
  0 <= bits ->
  Z.of_nat MAX_CPU_NR * Z.of_nat MAX_SLOTS * 2 ^ bits <= u64_max ->
  table_wf MAX_SLOTS MAX_CPU_NR bits tbl ->
  (1 <= MAX_CPU_NR)%nat ->
  nr_cpus <= Z.of_nat MAX_CPU_NR ->
  exists tbl' lines,
    print_runq_occupancy MAX_SLOTS fm e nr_cpus (RState tbl out)
    = Some (tt, RState tbl' (out ++ lines))
    /\ length lines = rounds e nr_cpus
    /\ Forall (fun l => exists p, line_pct l = Some p /\ (0 <= p <= 100)%Q)
              lines
    /\ (forall j l,
          lines !! j = Some l ->
          (forall k h, (k <= j)%nat -> tbl !! k = Some h -> all_idle h) ->
          exists p, line_pct l = Some p /\ (p == 0)%Q)
    /\ (forall j l,
          lines !! j = Some l ->
          (forall k h, (k <= j)%nat -> tbl !! k = Some h -> hist_total h = 0) ->
          exists p, line_pct l = Some p /\ (p == 0)%Q)
    /\ (forall samples, (1 <= runqocc_divisor fm samples)%Q).
Proof.
  intros Hfm Hbits Hfit [Hlen Hwf] H1 Hnr.
  pose proof (rounds_le_table MAX_CPU_NR e nr_cpus tbl Hlen H1 Hnr) as Hr.
  set (n := rounds e nr_cpus) in *.
  assert (Hrows : rows_ok MAX_SLOTS (take n tbl)).
  { apply Forall_take. eapply Forall_impl; [exact Hwf|].
    intros h Hh. split; [apply Hh | by eapply hist_wf_nonneg]. }
  assert (Htot : 0 + table_total (take n tbl) < u64_max).
  { pose proof (table_total_bound MAX_SLOTS bits (take n tbl)
                  (Forall_take _ _ _ Hwf)) as Hb.
    rewrite length_take, Nat.min_l in Hb by done.
    assert (0 < 2 ^ bits) by (apply Z.pow_pos_nonneg; lia).
    assert (Z.of_nat n <= Z.of_nat MAX_CPU_NR) by lia.
    assert (0 <= Z.of_nat MAX_SLOTS * (2 ^ bits - 1)) by nia.
    assert (Z.of_nat n * (Z.of_nat MAX_SLOTS * (2 ^ bits - 1))
            <= Z.of_nat MAX_CPU_NR * (Z.of_nat MAX_SLOTS * (2 ^ bits - 1)))
      by nia.
    destruct (decide (MAX_SLOTS = 0%nat)) as [->|Hs].
    - unfold u64_max in *. simpl in *. lia.
    - assert (1 <= Z.of_nat MAX_CPU_NR * Z.of_nat MAX_SLOTS) by nia.
      nia. }
  assert (Hsome : forall k h, (take n tbl) !! k = Some h -> tbl !! k = Some h).
  { intros k h Hk. by apply lookup_take_Some in Hk as [? _]. }
  exists (replicate n (zero MAX_SLOTS) ++ drop n tbl),
         (occ_lines MAX_SLOTS fm e 0 (0, 0) (take n tbl)).
  split; [by apply print_runq_occupancy_rows|].
  split; [by rewrite occ_lines_length, length_take, Nat.min_l|].
  split; [apply occ_lines_bounds; (done || lia)|].
  split; [|split; [|by apply runqocc_divisor_ge_1]].
  - intros j l Hl Hidle.
    eapply (occ_lines_all_idle MAX_SLOTS fm e Hfm (take n tbl) 0 0 j l);
      [done | lia | done | done |].
    intros k h Hk Hh. apply (Hidle k h Hk). by apply Hsome.
  - intros j l Hl Hzero.
    eapply (occ_lines_all_idle MAX_SLOTS fm e Hfm (take n tbl) 0 0 j l);
      [done | lia | done | done |].
    intros k h Hk Hh. apply hist_total_0_all_idle.
    + apply (Forall_lookup_1 _ _ _ _ Hrows Hh).
    + apply (Hzero k h Hk). by apply Hsome.
Qed.

(** The bounds for [runqlen -C -O] with two CPUs and 32-bit counters, on a
    tick in which CPU 0 took no sample and CPU 1 was idle at each of its
    four: both lines are 0. *)
Lemma occupancy_pct_in_range_witness :
  exists tbl' lines,
    print_runq_occupancy 4 exact_arith (env_flags true true 1) 2
      (RState [[0; 0; 0; 0]; [4; 0; 0; 0]] [])
    = Some (tt, RState tbl' ([] ++ lines))
    /\ length lines = 2%nat
    /\ Forall (fun l => exists p, line_pct l = Some p /\ (0 <= p <= 100)%Q)
              lines
    /\ (forall l, lines !! 0%nat = Some l ->
                  exists p, line_pct l = Some p /\ (p == 0)%Q)
    /\ (forall l, lines !! 1%nat = Some l ->
                  exists p, line_pct l = Some p /\ (p == 0)%Q).
Proof.
  destruct (occupancy_pct_in_range 4 2 32 exact_arith
              (env_flags true true 1) 2 [[0; 0; 0; 0]; [4; 0; 0; 0]] [])
    as (tbl' & lines & Heq & Hlen & Hrange & Hidle & Hempty & _).
  - apply exact_arith_ok.
  - lia.
  - by vm_compute.
  - split; [reflexivity|].
    repeat constructor; (reflexivity || by vm_compute).
  - lia.
  - lia.
  - exists tbl', lines.
    split; [exact Heq|]. split; [exact Hlen|]. split; [exact Hrange|].
    split.
    + intros l Hl. apply (Hempty 0%nat l Hl).
      intros k h Hk Hh. destruct k as [|k]; [|lia].
      compute in Hh. injection Hh as <-. reflexivity.
    + intros l Hl. apply (Hidle 1%nat l Hl).
      intros k h Hk Hh. destruct k as [|[|k]]; [| |lia];
        compute in Hh; injection Hh as <-;
        intros i v Hi Hv;
        (destruct i as [|[|[|[|i]]]]; [lia|..]; compute in Hv; congruence).
Defined.

(** ** Idle and empty histograms after a busy one *)

Section RoundingAcross.

Variable fm : float_model.
Hypothesis fm_ok : float_model_ok fm.

(** The value printed for [queued = 3] and [samples = 10], under any
    rounding: 3/10 lies between 1/4 and 1/2, which are exact. *)
Lemma runqocc_pct_3_10 : (25 <= runqocc_pct fm 3 10 <= 50)%Q.
Proof.
  unfold runqocc_pct, runqocc_ratio, runqocc_divisor.
  change (Z.max 1 10) with 10.
  assert (Hnum : (to_double fm (to_double fm (inject_Z 3) * 1) == 3)%Q).
  { assert (Hx : (to_double fm (inject_Z 3) * 1 == 3)%Q).
    { rewrite (to_double_int fm fm_ok 3) by (by vm_compute). by vm_compute. }
    eapply Qeq_trans; [|exact Hx].
    apply (to_double_dyadic fm fm_ok 3 0); [by vm_compute | lia |].
    rewrite Hx. by vm_compute. }
  assert (Hden : (to_double fm (inject_Z 10) == 10)%Q).
  { apply (to_double_int fm fm_ok 10). by vm_compute. }
  set (q := to_double fm (to_double fm (to_double fm (inject_Z 3) * 1)
                          / to_double fm (inject_Z 10))).
  assert (Hq : (1 # 4 <= q <= 1 # 2)%Q).
  { unfold q. split.
    - apply (to_double_ge fm fm_ok 1 2); [by vm_compute | lia | by vm_compute |].
      rewrite Hnum, Hden. by vm_compute.
    - apply (to_double_le fm fm_ok 1 1); [by vm_compute | lia | by vm_compute |].
      rewrite Hnum, Hden. by vm_compute. }
  assert (Hr : (1 # 4 <= to_float fm q <= 1 # 2)%Q).
  { split.
    - apply (to_float_ge fm fm_ok 1 2); [by vm_compute | lia | by vm_compute |].
      apply Hq.
    - apply (to_float_le fm fm_ok 1 1); [by vm_compute | lia | by vm_compute |].
      apply Hq. }
  pose proof (to_float_100 fm fm_ok) as H100.
  split.
  - apply (to_float_ge fm fm_ok 25 0); [by vm_compute | lia | by vm_compute |].
    rewrite H100. lra.
  - apply (to_float_le fm fm_ok 50 0); [by vm_compute | lia | by vm_compute |].
    rewrite H100. lra.
Qed.

(** The value printed for [queued = 3] and [samples = 3] is 100 under any
    rounding: every intermediate result is a small integer. *)
Lemma runqocc_pct_3_3 : (runqocc_pct fm 3 3 == 100)%Q.
Proof.
  unfold runqocc_pct, runqocc_ratio, runqocc_divisor.
  change (Z.max 1 3) with 3.
  assert (Hnum : (to_double fm (to_double fm (inject_Z 3) * 1) == 3)%Q).
  { assert (Hx : (to_double fm (inject_Z 3) * 1 == 3)%Q).
    { rewrite (to_double_int fm fm_ok 3) by (by vm_compute). by vm_compute. }
    eapply Qeq_trans; [|exact Hx].
    apply (to_double_dyadic fm fm_ok 3 0); [by vm_compute | lia |].
    rewrite Hx. by vm_compute. }
  assert (Hden : (to_double fm (inject_Z 3) == 3)%Q).
  { apply (to_double_int fm fm_ok 3). by vm_compute. }
  set (q := to_double fm (to_double fm (to_double fm (inject_Z 3) * 1)
                          / to_double fm (inject_Z 3))).
  assert (Hq : (1 <= q <= 1)%Q).
  { unfold q. split.
    - apply (to_double_ge fm fm_ok 1 0); [by vm_compute | lia | by vm_compute |].
      rewrite Hnum, Hden. by vm_compute.
    - apply (to_double_le fm fm_ok 1 0); [by vm_compute | lia | by vm_compute |].
      rewrite Hnum, Hden. by vm_compute. }
  assert (Hr : (1 <= to_float fm q <= 1)%Q).
  { split.
    - apply (to_float_ge fm fm_ok 1 0); [by vm_compute | lia | by vm_compute |].
      apply Hq.
    - apply (to_float_le fm fm_ok 1 0); [by vm_compute | lia | by vm_compute |].
      apply Hq. }
  pose proof (to_float_100 fm fm_ok) as H100.
  apply Qle_antisym.
  - apply (to_float_le fm fm_ok 100 0); [by vm_compute | lia | by vm_compute |].
    rewrite H100. lra.
  - apply (to_float_ge fm fm_ok 100 0); [by vm_compute | lia | by vm_compute |].
    rewrite H100. lra.
Qed.

End RoundingAcross.

(** C6: the percentages are not those of the histograms.  With [-C -O] and
    two CPUs, on the tick [[0,0,0,3],[7,0,0,0]] the histogram of CPU 1 has
    all its samples in bucket 0, yet the line of CPU 1 is computed from
    [queued = 3] and [samples = 10]: between 25 and 50 under any rounding,
    30 in exact arithmetic, not 0.  On the tick [[0,0,0,3],[0,0,0,0]] the
    histogram of CPU 1 has no sample at all, yet the line of CPU 1 is
    computed from [queued = 3] and [samples = 3]: 100, not 0.  In both the
    accumulators [idle] and [queued] still hold the row of CPU 0. *)
Theorem idle_cpu_reported_busy :
  (forall fm,
      print_runq_occupancy 4 fm (env_flags true true 1) 2
        (RState [[0; 0; 0; 3]; [7; 0; 0; 0]] [])
      = Some (tt, RState [[0; 0; 0; 0]; [0; 0; 0; 0]]
                         [OccCpu 0 (runqocc_pct fm 3 3);
                          OccCpu 1 (runqocc_pct fm 3 10)]))
  /\ all_idle [7; 0; 0; 0]
  /\ (spec_occupancy [7; 0; 0; 0]%Z == 0)%Q
  /\ (forall fm, float_model_ok fm -> (25 <= runqocc_pct fm 3 10 <= 50)%Q)
  /\ (runqocc_pct exact_arith 3 10 == 30)%Q
  /\ (forall fm,
        print_runq_occupancy 4 fm (env_flags true true 1) 2
          (RState [[0; 0; 0; 3]; [0; 0; 0; 0]] [])
        = Some (tt, RState [[0; 0; 0; 0]; [0; 0; 0; 0]]
                           [OccCpu 0 (runqocc_pct fm 3 3);
                            OccCpu 1 (runqocc_pct fm 3 3)]))
  /\ hist_total [0; 0; 0; 0] = 0
  /\ (spec_occupancy [0; 0; 0; 0]%Z == 0)%Q
  /\ (forall fm, float_model_ok fm -> (runqocc_pct fm 3 3 == 100)%Q).
Proof.
  split; [|split; [|split; [|split; [|split; [|split; [|split; [|split]]]]]]].
  - intros fm. reflexivity.
  - intros k v Hk Hv.
    destruct k as [|[|[|[|k]]]]; [lia|..]; compute in Hv; congruence.
  - by vm_compute.
  - apply runqocc_pct_3_10.
  - by vm_compute.
  - intros fm. reflexivity.
  - reflexivity.
  - by vm_compute.
  - apply runqocc_pct_3_3.
Qed.

(** C1: on the tick [[5,2,1,0],[0,0,0,3]] with two CPUs, the per-CPU
    occupancy report computes the line of CPU 1 from [queued = 6] and
    [samples = 11]: the accumulators [idle] and [queued] are not cleared
    between the rounds, so they hold the rows of CPU 0 and CPU 1 together.
    Under any rounding the value printed for CPU 1 lies between 50 and 75
    (it is 600/11, printed 54.55, in exact arithmetic), whereas the occupancy
    of the histogram of CPU 1 alone is 100. *)
Theorem per_cpu_occupancy_accumulates :
  (forall fm,
      print_runq_occupancy 4 fm (env_flags true true 1) 2 (RState tick1 [])
      = Some (tt, RState [[0; 0; 0; 0]; [0; 0; 0; 0]]
                         [OccCpu 0 (runqocc_pct fm 3 8);
                          OccCpu 1 (runqocc_pct fm 6 11)]))
  /\ (forall fm, float_model_ok fm -> (50 <= runqocc_pct fm 6 11 <= 75)%Q)
  /\ (runqocc_pct exact_arith 6 11 == 600 # 11)%Q
  /\ (spec_occupancy [0; 0; 0; 3]%Z == 100)%Q.
Proof.
  split; [|split; [|split]].
  - intros fm. reflexivity.
  - apply runqocc_pct_6_11.
  - by vm_compute.
  - by vm_compute.
Qed.

(** C3, as the specification states it, fails: in aggregate mode on the
    tick [[5,2,1,0],[0,0,0,3]] the linear report leaves row 1 as it is and
    prints row 0, not the sum of the rows. *)
Lemma aggregate_report_not_summed :
  ~ spec_aggregate_report 4 (env_flags false false 1) 2 tick1.
Proof.
  intros (r & Hr & Hzero & _).
  vm_compute in Hr. injection Hr as <-.
  specialize (Hzero 1%nat). simpl in Hzero.
  assert (H : (1 < 2)%Z) by lia. apply Hzero in H. discriminate H.
Qed.

Section Aggregate.

Variable MAX_SLOTS : nat.
Variable fm : float_model.
Variable e : env.
Variable nr_cpus : Z.
Hypothesis aggregate : per_cpu e = false.

Lemma aggregate_rounds : rounds e nr_cpus = 1%nat.
Proof. unfold rounds. by rewrite aggregate. Qed.

Lemma aggregate_table (tbl : list hist) (h : hist) :
  tbl !! 0%nat = Some h ->
  replicate 1 (zero MAX_SLOTS) ++ drop 1 tbl = <[0%nat := zero MAX_SLOTS]> tbl
  /\ take 1 tbl = [h] /\ (1 <= length tbl)%nat.
Proof.
  destruct tbl as [|h' t]; [done|]. intros [= ->]. simpl.
  rewrite drop_0. repeat split. lia.
Qed.

Lemma aggregate_linear (tbl : list hist) (h : hist) out :
  tbl !! 0%nat = Some h ->
  print_linear_hists MAX_SLOTS e nr_cpus (RState tbl out)
  = Some (tt, RState (<[0%nat := zero MAX_SLOTS]> tbl)
                     (out ++ [LinearHist h MAX_SLOTS "runqlen"])).
Proof.
  intros Hh. destruct (aggregate_table tbl h Hh) as (Ht & Hk & Hl).
  rewrite print_linear_hists_rows by (by rewrite aggregate_rounds).
  rewrite aggregate_rounds, Ht, Hk. simpl. by rewrite aggregate.
Qed.

Lemma aggregate_occupancy (tbl : list hist) (h : hist) out :
  tbl !! 0%nat = Some h ->
  print_runq_occupancy MAX_SLOTS fm e nr_cpus (RState tbl out)
  = Some (tt, RState (<[0%nat := zero MAX_SLOTS]> tbl)
                     (out ++ [occ_line fm e 0
                                (scan_slots MAX_SLOTS h (0, 0))])).
Proof.
  intros Hh. destruct (aggregate_table tbl h Hh) as (Ht & Hk & Hl).
  rewrite print_runq_occupancy_rows by (by rewrite aggregate_rounds).
  by rewrite aggregate_rounds, Ht, Hk.
Qed.

End Aggregate.

(** C3, amended: with per-CPU output off, one call of either report
    function reads and clears row 0 only, whatever [nr_cpus] is, and prints
    a single output made from row 0 alone: its buckets in the linear report,
    the occupancy of its buckets in the occupancy report. *)
Theorem aggregate_report_is_row_0 (MAX_SLOTS : nat) (fm : float_model)
    (e : env) (nr_cpus : Z) (tbl : list hist) (h : hist)
    (out : list out_line) :
  per_cpu e = false ->
  tbl !! 0%nat = Some h ->
  print_linear_hists MAX_SLOTS e nr_cpus (RState tbl out)
  = Some (tt, RState (<[0%nat := zero MAX_SLOTS]> tbl)
                     (out ++ [LinearHist h MAX_SLOTS "runqlen"]))
  /\ print_runq_occupancy MAX_SLOTS fm e nr_cpus (RState tbl out)
     = Some (tt, RState (<[0%nat := zero MAX_SLOTS]> tbl)
                   (out ++ [OccAll
                     (let '(idle, queued) := scan_slots MAX_SLOTS h (0, 0) in
                      runqocc_pct fm queued (u64 (idle + queued)))])).
Proof.
  intros Hagg Hh. split.
  - by apply aggregate_linear.
  - rewrite (aggregate_occupancy MAX_SLOTS fm e nr_cpus Hagg tbl h out Hh).
    unfold occ_line. rewrite Hagg.
    by destruct (scan_slots MAX_SLOTS h (0, 0)).
Qed.

(** The aggregate reports on the tick of the scenario. *)
Lemma aggregate_report_is_row_0_witness :
  print_linear_hists 4 (env_flags false false 1) 2 (RState tick1 [])
  = Some (tt, RState (<[0%nat := zero 4]> tick1)
                     ([] ++ [LinearHist [5; 2; 1; 0] 4 "runqlen"]))
  /\ print_runq_occupancy 4 exact_arith (env_flags false false 1) 2
       (RState tick1 [])
     = Some (tt, RState (<[0%nat := zero 4]> tick1)
                   ([] ++ [OccAll
                     (let '(idle, queued) :=
                        scan_slots 4 [5; 2; 1; 0] (0, 0) in
                      runqocc_pct exact_arith queued (u64 (idle + queued)))])).
Proof.
  apply (aggregate_report_is_row_0 4 exact_arith (env_flags false false 1) 2
           tick1 [5; 2; 1; 0] []); reflexivity.
Defined.

(** C9: with per-CPU output off, a report in either mode clears row 0 and
    leaves every row of index 1 or more as it was; and what it prints does
    not depend on those rows. *)
Theorem aggregate_report_frame (MAX_SLOTS : nat)
    (fm : float_model) (e : env) (nr_cpus : Z) (tbl : list hist)
    (out : list out_line) :
  per_cpu e = false ->
  (1 <= length tbl)%nat ->
  exists r,
    report MAX_SLOTS fm e nr_cpus (RState tbl out) = Some (tt, r)
    /\ st_hists r !! 0%nat = Some (zero MAX_SLOTS)
    /\ (forall i, (1 <= i)%nat -> st_hists r !! i = tbl !! i)
    /\ length (st_hists r) = length tbl
    /\ (forall tbl2,
          tbl2 !! 0%nat = tbl !! 0%nat ->
          exists r2,
            report MAX_SLOTS fm e nr_cpus (RState tbl2 out) = Some (tt, r2)
            /\ st_out r2 = st_out r).
Proof.
  intros Hagg Hlen.
  destruct tbl as [|h t] eqn:Htbl; [simpl in Hlen; lia|].
  rewrite <- Htbl in *.
  assert (Hh : tbl !! 0%nat = Some h) by (by rewrite Htbl).
  assert (Hframe : <[0%nat := zero MAX_SLOTS]> tbl !! 0%nat
                   = Some (zero MAX_SLOTS)
    /\ (forall i, (1 <= i)%nat ->
                  <[0%nat := zero MAX_SLOTS]> tbl !! i = tbl !! i)
    /\ length (<[0%nat := zero MAX_SLOTS]> tbl) = length tbl).
  { split; [apply list_lookup_insert_eq; lia|].
    split; [|apply length_insert].
    intros i Hi. apply list_lookup_insert_ne. lia. }
  destruct Hframe as (H0 & Hrest & Hl).
  unfold report. destruct (runqocc e).
  - eexists. split; [by apply aggregate_occupancy|].
    repeat split; try done.
    intros tbl2 H2. rewrite Hh in H2.
    eexists. split; [by apply aggregate_occupancy|]. done.
  - eexists. split; [by apply aggregate_linear|].
    repeat split; try done.
    intros tbl2 H2. rewrite Hh in H2.
    eexists. split; [by apply aggregate_linear|]. done.
Qed.

(** The frame of [runqlen -O] on the tick of the scenario. *)
Lemma aggregate_report_frame_witness :
  exists r,
    report 4 exact_arith (env_flags false true 1) 2 (RState tick1 [])
    = Some (tt, r)
    /\ st_hists r !! 0%nat = Some (zero 4)
    /\ (forall i, (1 <= i)%nat -> st_hists r !! i = tick1 !! i)
    /\ length (st_hists r) = length tick1
    /\ (forall tbl2,
          tbl2 !! 0%nat = tick1 !! 0%nat ->
          exists r2,
            report 4 exact_arith (env_flags false true 1) 2 (RState tbl2 [])
            = Some (tt, r2)
            /\ st_out r2 = st_out r).
Proof.
  apply (aggregate_report_frame 4 exact_arith (env_flags false true 1) 2
           tick1 []); [reflexivity | simpl; lia].
Defined.

Lemma read_reset_read (i : nat) (z : hist) (s s1 s2 : rstate) (h : hist) :
  read_hists i s = Some (h, s1) ->
  write_hists i z s1 = Some (tt, s2) ->
  read_hists i s2 = Some (z, s2).
Proof.
  unfold read_hists, write_hists. intros _ Hw.
  destruct (decide (i < length (st_hists s1))%nat) as [Hi|]; [|done].
  injection Hw as <-. simpl.
  by rewrite list_lookup_insert_eq.
Qed.

Lemma report_rows (MAX_SLOTS : nat) (fm : float_model) (e : env)
    (nr_cpus : Z) (tbl : list hist) (out : list out_line) :
  (rounds e nr_cpus <= length tbl)%nat ->
  exists lines,
    report MAX_SLOTS fm e nr_cpus (RState tbl out)
    = Some (tt, RState (replicate (rounds e nr_cpus) (zero MAX_SLOTS)
                          ++ drop (rounds e nr_cpus) tbl)
                       (out ++ lines)).
Proof.
  intros Hlen. unfold report. destruct (runqocc e).
  - eexists. by apply print_runq_occupancy_rows.
  - eexists. by apply print_linear_hists_rows.
Qed.

(** C5: a histogram that was read and reset reads as all zero when it is
    read again with no write in between: after the two statements
    [hist = bss->hists[i]; bss->hists[i] = zero;], and after a whole report
    for every index [i] the report went through. *)
Theorem second_read_is_zero (MAX_SLOTS : nat) (fm : float_model) (e : env)
    (nr_cpus : Z) (tbl : list hist) (out : list out_line) :
  (rounds e nr_cpus <= length tbl)%nat ->
  (forall i s h s1 s2,
      read_hists i s = Some (h, s1) ->
      write_hists i (zero MAX_SLOTS) s1 = Some (tt, s2) ->
      read_hists i s2 = Some (zero MAX_SLOTS, s2))
  /\ (exists r,
        report MAX_SLOTS fm e nr_cpus (RState tbl out) = Some (tt, r)
        /\ forall i, (i < rounds e nr_cpus)%nat ->
                     read_hists i r = Some (zero MAX_SLOTS, r))
  /\ Forall (fun v => v = 0) (zero MAX_SLOTS).
Proof.
  intros Hlen. split; [|split].
  - intros i s h s1 s2. apply read_reset_read.
  - destruct (report_rows MAX_SLOTS fm e nr_cpus tbl out Hlen)
      as [lines Hr].
    eexists. split; [exact Hr|].
    intros i Hi. unfold read_hists. simpl.
    rewrite lookup_app_l by (rewrite length_replicate; lia).
    by rewrite lookup_replicate_2.
  - unfold zero. by apply Forall_replicate.
Qed.

(** The second read after [runqlen -C] on the tick of the scenario. *)
Lemma second_read_is_zero_witness :
  (forall i s h s1 s2,
      read_hists i s = Some (h, s1) ->
      write_hists i (zero 4) s1 = Some (tt, s2) ->
      read_hists i s2 = Some (zero 4, s2))
  /\ (exists r,
        report 4 exact_arith (env_flags true false 1) 2 (RState tick1 [])
        = Some (tt, r)
        /\ forall i, (i < rounds (env_flags true false 1) 2)%nat ->
                     read_hists i r = Some (zero 4, r))
  /\ Forall (fun v => v = 0) (zero 4).
Proof.
  apply (second_read_is_zero 4 exact_arith (env_flags true false 1) 2
           tick1 []).
  vm_compute. lia.
Defined.

(** ** The loop of [main] *)

Lemma run_loop_snoc MAX_SLOTS fm e nr_cpus (sch : list action) a s :
  run_loop MAX_SLOTS fm e nr_cpus (sch ++ [a]) s
  = act MAX_SLOTS fm e nr_cpus a (run_loop MAX_SLOTS fm e nr_cpus sch s).
Proof. unfold run_loop. by rewrite foldl_app. Qed.

Lemma steps_snoc (sch : list action) a :
  steps (sch ++ [a]) = (steps sch + (if is_step a then 1 else 0))%nat.
Proof.
  unfold steps. rewrite filter_app, length_app. f_equal.
  destruct a; reflexivity.
Qed.

Lemma no_signal_snoc (sch : list action) a :
  no_signal (sch ++ [a]) -> no_signal sch /\ is_signal a = false.
Proof.
  unfold no_signal. rewrite Forall_app, Forall_singleton. tauto.
Qed.

Lemma report_calls_snoc (tr : list event) ev :
  report_calls (tr ++ [ev])
  = report_calls tr ++ match ev with Report ls => [ls] | _ => [] end.
Proof.
  unfold report_calls. rewrite omap_app. f_equal. by destruct ev.
Qed.

Lemma destroyed_links_app (tr1 tr2 : list event) :
  destroyed_links (tr1 ++ tr2) = destroyed_links tr1 ++ destroyed_links tr2.
Proof. apply omap_app. Qed.

Lemma report_calls_app (tr1 tr2 : list event) :
  report_calls (tr1 ++ tr2) = report_calls tr1 ++ report_calls tr2.
Proof. apply omap_app. Qed.

Lemma sampler_store_length cpu slot v (s : session) :
  length (s_hists (sampler_store cpu slot v s)) = length (s_hists s).
Proof.
  unfold sampler_store. simpl. destruct (s_hists s !! cpu); [|done].
  apply length_insert.
Qed.

(** Look at the statement the session stands at. *)
Ltac at_pc H := unfold loop_step; rewrite H.

Section LoopFacts.

Variable MAX_SLOTS : nat.
Variable fm : float_model.
Variable e : env.
Variable nr_cpus : Z.

(** A report succeeds on a table with enough rows and keeps its length. *)
Lemma loop_step_report (s : session) :
  s_pc s = PReport ->
  (rounds e nr_cpus <= length (s_hists s))%nat ->
  exists lines tbl',
    length tbl' = length (s_hists s)
    /\ loop_step MAX_SLOTS fm e nr_cpus s
       = {| s_pc := PCheck; s_exiting := s_exiting s;
            s_times := s_times s; s_hists := tbl';
            s_trace := s_trace s ++ [Report lines] |}.
Proof.
  intros Hpc Hlen. at_pc Hpc.
  destruct (report_rows MAX_SLOTS fm e nr_cpus (s_hists s) [] Hlen)
    as [lines Hr].
  rewrite Hr. simpl. eexists _, _. split; [|reflexivity].
  rewrite length_app, length_replicate, length_drop. lia.
Qed.

Lemma loop_inv_step t0 base n (s : session) :
  loop_inv e nr_cpus t0 base n s ->
  loop_inv e nr_cpus t0 base (n + 1) (loop_step MAX_SLOTS fm e nr_cpus s)
  \/ (s_pc s = PLeft \/ s_pc s = PUndefined).
Proof.
  intros (Hex & Hlen & Hpc).
  destruct (s_pc s) eqn:Epc; [..| by right; left | by right; right]; left.
  - (* PSleep *)
    at_pc Epc. unfold loop_inv, goto, ticks_done in *.
    simpl. repeat split; try done; lia.
  - (* PNewline *)
    at_pc Epc.
    unfold loop_inv, goto, emit, ticks_done in *.
    simpl. rewrite report_calls_snoc, app_nil_r.
    repeat split; try done; lia.
  - (* PTimestamp *)
    at_pc Epc.
    unfold loop_inv, goto, emit, ticks_done in *.
    destruct (timestamp e); simpl;
      rewrite ?report_calls_snoc, ?app_nil_r;
      repeat split; try done; lia.
  - (* PReport *)
    destruct (loop_step_report s Epc Hlen) as (lines & tbl' & Hl & ->).
    unfold loop_inv, ticks_done in *. simpl.
    rewrite report_calls_snoc, length_app. simpl.
    repeat split; try done; lia.
  - (* PCheck *)
    at_pc Epc. rewrite Hex.
    unfold loop_inv, goto, ticks_done, int_dec, INT_MIN in *.
    destruct (s_times s =? - 2 ^ 31) eqn:Emin.
    + apply Z.eqb_eq in Emin. simpl.
      repeat split; try done; lia.
    + apply Z.eqb_neq in Emin.
      destruct (s_times s - 1 =? 0) eqn:E0; simpl.
      * apply Z.eqb_eq in E0. repeat split; try done; lia.
      * apply Z.eqb_neq in E0. repeat split; try done; lia.
Qed.

Lemma loop_inv_left t0 base n (s : session) :
  loop_inv e nr_cpus t0 base n s ->
  forall m, n <= m -> (s_pc s = PLeft \/ s_pc s = PUndefined) ->
  loop_inv e nr_cpus t0 base m s.
Proof.
  intros (Hex & Hlen & Hpc) m Hm Hs.
  unfold loop_inv. repeat split; try done.
  destruct Hs as [Hs|Hs]; rewrite Hs in *; simpl in *; lia.
Qed.

Lemma loop_inv_sampler t0 base n cpu slot v (s : session) :
  loop_inv e nr_cpus t0 base n s ->
  loop_inv e nr_cpus t0 base n (sampler_store cpu slot v s).
Proof.
  intros (Hex & Hlen & Hpc). unfold loop_inv.
  rewrite sampler_store_length. done.
Qed.

(** The invariant holds after every schedule without SIGINT. *)
Lemma loop_inv_run t0 base (s0 : session) (sch : list action) :
  loop_inv e nr_cpus t0 base 0 s0 ->
  no_signal sch ->
  loop_inv e nr_cpus t0 base (Z.of_nat (steps sch))
           (run_loop MAX_SLOTS fm e nr_cpus sch s0).
Proof.
  intros H0. induction sch as [|a sch IH] using rev_ind; intros Hns.
  - exact H0.
  - apply no_signal_snoc in Hns as [Hns Ha].
    specialize (IH Hns). rewrite run_loop_snoc, steps_snoc.
    destruct a; simpl in Ha; [| done |].
    + simpl act. simpl is_step.
      destruct (loop_inv_step _ _ _ _ IH) as [H|H].
      * replace (Z.of_nat (steps sch + 1)) with (Z.of_nat (steps sch) + 1)
          by lia. exact H.
      * assert (Hid : loop_step MAX_SLOTS fm e nr_cpus
                  (run_loop MAX_SLOTS fm e nr_cpus sch s0)
                = run_loop MAX_SLOTS fm e nr_cpus sch s0).
        { unfold loop_step. by destruct H as [-> | ->]. }
        rewrite Hid. eapply loop_inv_left; [exact IH | lia | exact H].
    + simpl act. simpl is_step. rewrite Nat.add_0_r.
      by apply loop_inv_sampler.
Qed.

End LoopFacts.

(** ** [open_and_attach_perf_event] and [cleanup] *)

Lemma attach_loop_ok (w : world) (cpus : list nat) :
  (forall i, i ∈ cpus -> attach w i = AttachOk) ->
  forall links tr,
    exists links' tr',
      attach_loop w cpus links tr = (0, links', tr')
      /\ report_calls tr' = report_calls tr
      /\ length links' = length links.
Proof.
  induction cpus as [|i rest IH]; intros Hok links tr.
  - by exists links, tr.
  - simpl. rewrite Hok by apply list_elem_of_here.
    destruct (IH (fun i' Hi' => Hok i' (list_elem_of_further _ _ _ Hi'))
                 (<[i := Some i]> links)
                 (tr ++ [PerfEventOpen i; AttachPerfEvent i]))
      as (links' & tr' & -> & Htr & Hlen).
    exists links', tr'. split; [done|]. split.
    + rewrite Htr, report_calls_app. simpl. by rewrite app_nil_r.
    + by rewrite Hlen, length_insert.
Qed.

(** The array [links] when the attachment fails at CPU [j]: the links of the
    CPUs before [j], and [NULL] from [j] on. *)
Lemma attach_loop_fails (w : world) (j : nat) :
  attach w j <> AttachOk ->
  forall m a (pre : list link) tr,
    length pre = a ->
    (forall i, (a <= i < j)%nat -> attach w i = AttachOk) ->
    (a <= j < a + m)%nat ->
    exists tr',
      attach_loop w (seq a m) (pre ++ replicate m None) tr
      = (-1, pre ++ (Some <$> seq a (j - a)) ++ replicate (a + m - j) None,
         tr')
      /\ report_calls tr' = report_calls tr
      /\ destroyed_links tr' = destroyed_links tr.
Proof.
  intros Hj. induction m as [|m IH]; intros a pre tr Hpre Hok Hrange; [lia|].
  simpl seq. simpl attach_loop. simpl replicate.
  destruct (decide (a = j)) as [->|Hne].
  - replace (j - j)%nat with 0%nat by lia.
    replace (j + S m - j)%nat with (S m) by lia. simpl.
    destruct (attach w j) eqn:Ej; [done| |].
    + eexists. split; [reflexivity|].
      rewrite report_calls_app, destroyed_links_app. simpl.
      by rewrite !app_nil_r.
    + eexists. split.
      * replace j with (length pre + 0)%nat at 1 by lia.
        rewrite insert_app_r. reflexivity.
      * rewrite report_calls_app, destroyed_links_app. simpl.
        by rewrite !app_nil_r.
  - rewrite Hok by lia.
    replace (<[a := Some a]> (pre ++ None :: replicate m None))
      with ((pre ++ [Some a]) ++ replicate m None).
    2:{ replace a with (length pre + 0)%nat at 2 by lia.
        rewrite insert_app_r. simpl. by rewrite <- app_assoc. }
    destruct (IH (S a) (pre ++ [Some a])
                 (tr ++ [PerfEventOpen a; AttachPerfEvent a]))
      as (tr' & Heq & Hr & Hd).
    + rewrite length_app. simpl. lia.
    + intros i Hi. apply Hok. lia.
    + lia.
    + exists tr'. split; [|split].
      * etransitivity; [exact Heq|]. f_equal. f_equal.
        replace (j - a)%nat with (S (j - S a)) by lia.
        replace (a + S m - j)%nat with (S a + m - j)%nat by lia.
        simpl. by rewrite <- app_assoc.
      * rewrite Hr, report_calls_app. simpl. by rewrite app_nil_r.
      * rewrite Hd, destroyed_links_app. simpl. by rewrite app_nil_r.
Qed.

(** The [for] of [cleanup] calls [bpf_link__destroy] on each entry. *)
Lemma destroy_each (ls : list link) :
  map (fun i => LinkDestroy (default None (ls !! i))) (seq 0 (length ls))
  = map LinkDestroy ls.
Proof.
  induction ls as [|l ls IH]; [done|].
  simpl. f_equal. rewrite <- IH, <- seq_shift, map_map. done.
Qed.

Lemma destroyed_links_some (xs : list nat) :
  destroyed_links (map LinkDestroy (Some <$> xs)) = xs.
Proof.
  induction xs as [|x xs IH]; [done|].
  change (destroyed_links (map LinkDestroy (Some <$> x :: xs)))
    with (x :: destroyed_links (map LinkDestroy (Some <$> xs))).
  by rewrite IH.
Qed.

Lemma destroyed_links_null (k : nat) :
  destroyed_links (map LinkDestroy (replicate k None)) = [].
Proof. induction k as [|k IH]; [done|]. exact IH. Qed.

Lemma report_calls_destroy (ls : list link) :
  report_calls (map LinkDestroy ls) = [].
Proof. induction ls as [|l ls IH]; [done|]. exact IH. Qed.

Lemma cleanup_links (nr_cpus : Z) (ls : list link) (err : Z)
    (tr : list event) :
  length ls = Z.to_nat nr_cpus ->
  cleanup nr_cpus (Some ls) err tr
  = (Exit (if err =? 0 then 0 else 1),
     tr ++ map LinkDestroy ls ++ [FreeLinks; ObjDestroy]).
Proof. intros Hlen. unfold cleanup. by rewrite <- Hlen, destroy_each. Qed.

(** ** [main] *)

Section MainFacts.

Variable MAX_SLOTS : nat.
Variable MAX_CPU_NR : nat.
Variable fm : float_model.
Variable w : world.
Variable e : env.
Hypothesis setup : setup_ok MAX_CPU_NR w.

(** When every attachment succeeds [main] reaches the loop, and its
    result is that of the loop followed by [cleanup]. *)
Lemma main_enters_loop :
  (forall i, Z.of_nat i < possible_cpus w -> attach w i = AttachOk) ->
  exists links tr0,
    report_calls tr0 = []
    /\ length links = Z.to_nat (possible_cpus w)
    /\ forall sch,
         main MAX_SLOTS MAX_CPU_NR fm w e sch
         = let s := run_loop MAX_SLOTS fm e (possible_cpus w) sch
                      (session_start MAX_SLOTS MAX_CPU_NR e tr0) in
           match s_pc s with
           | PLeft => cleanup (possible_cpus w) (Some links) 0 (s_trace s)
           | PUndefined => (Undefined, s_trace s)
           | _ => (Running, s_trace s)
           end.
Proof.
  intros Hatt.
  destruct setup as (Hargp & Hrl & Hopen & Hnr & Hcalloc & Hload).
  destruct (attach_loop_ok w (seq 0 (Z.to_nat (possible_cpus w))))
    with (links := replicate (Z.to_nat (possible_cpus w)) (@None nat))
         (tr := [SetTargPerCpu (per_cpu e)])
    as (links & tr & Heq & Hrep & Hlen).
  { intros i Hi%elem_of_seq. apply Hatt. lia. }
  exists links, (tr ++ [Stdout Banner; SignalInstalled]).
  split; [|split].
  - rewrite report_calls_app, Hrep. done.
  - by rewrite Hlen, length_replicate.
  - intros sch. unfold main.
    rewrite Hargp, Hrl, Hopen, Hcalloc, Hload. simpl negb. cbv iota.
    apply Z.ltb_ge in Hnr. rewrite Hnr.
    unfold open_and_attach_perf_event. rewrite Heq. reflexivity.
Qed.

Lemma session_start_inv tr0 :
  (1 <= MAX_CPU_NR)%nat ->
  report_calls tr0 = [] ->
  loop_inv e (possible_cpus w) (times e) 0 0
           (session_start MAX_SLOTS MAX_CPU_NR e tr0).
Proof.
  intros H1 Hrep.
  destruct setup as (_ & _ & _ & Hnr & _).
  unfold loop_inv, session_start, ticks_done. simpl.
  rewrite Hrep, length_replicate. simpl.
  repeat split; try lia.
  unfold rounds. destruct (per_cpu e); lia.
Qed.

(** Without SIGINT a count of 0 or less never ends the loop. *)
Lemma main_deficit_no_exit (sch : list action) :
  (forall i, Z.of_nat i < possible_cpus w -> attach w i = AttachOk) ->
  (1 <= MAX_CPU_NR)%nat ->
  times e <= 0 ->
  no_signal sch ->
  forall status,
    fst (main MAX_SLOTS MAX_CPU_NR fm w e sch) <> Exit status.
Proof.
  intros Hatt H1 Ht Hns status.
  destruct (main_enters_loop Hatt) as (links & tr0 & Hrep & Hlen & ->).
  pose proof (loop_inv_run MAX_SLOTS fm e (possible_cpus w) (times e) 0
                _ sch (session_start_inv tr0 H1 Hrep) Hns)
    as (_ & _ & Hpc).
  cbv zeta in *. revert Hpc.
  destruct (s_pc (run_loop MAX_SLOTS fm e (possible_cpus w) sch
               (session_start MAX_SLOTS MAX_CPU_NR e tr0)));
    simpl; try done.
  lia.
Qed.

End MainFacts.

(** ** [main]: claims *)

Lemma world_ok_setup (MAX_CPU_NR : nat) (n : Z) :
  n <= Z.of_nat MAX_CPU_NR -> setup_ok MAX_CPU_NR (world_ok n).
Proof. intros Hn. by repeat split. Qed.

Lemma steps_repeat (n : nat) : steps (repeat Step n) = n.
Proof.
  unfold steps. induction n as [|n IH]; [done|].
  simpl repeat. rewrite filter_cons_True by done. simpl. by rewrite IH.
Qed.

Lemma no_signal_repeat (n : nat) : no_signal (repeat Step n).
Proof. unfold no_signal. induction n; by constructor. Qed.

(** C4, as the specification states it, fails for a count of 0: no run
    without SIGINT ends at all, let alone after 0 reports. *)
Lemma zero_budget_refutes_claim :
  ~ spec_budget_claim 4 2 exact_arith (world_ok 2) (env_flags false false 1) 0.
Proof.
  intros [n H].
  destruct (H (repeat Step n) (no_signal_repeat n)) as (tr & Hmain & _).
  { by rewrite steps_repeat. }
  eapply (main_deficit_no_exit 4 2 exact_arith (world_ok 2)
            (set_times (env_flags false false 1) 0)
            (world_ok_setup 2 2 ltac:(lia)) (repeat Step n));
    [done | lia | simpl; lia | apply no_signal_repeat |].
  rewrite Hmain. reflexivity.
Qed.

(** C4, amended: for a count [k] of 1 or more, a session that meets no
    SIGINT makes exactly [k] reports and then ends with status 0.  Each
    round of the loop is five statements, so the session has ended once
    [5 * k] statements were run and is still running before that; it never
    makes more than [k] reports. *)
Theorem budget_k_reports_then_exit_0 (MAX_SLOTS MAX_CPU_NR : nat)
    (fm : float_model) (w : world) (e : env) (sch : list action) :
  setup_ok MAX_CPU_NR w ->
  (forall i, Z.of_nat i < possible_cpus w -> attach w i = AttachOk) ->
  (1 <= MAX_CPU_NR)%nat ->
  1 <= times e ->
  no_signal sch ->
  exists out tr,
    main MAX_SLOTS MAX_CPU_NR fm w e sch = (out, tr)
    /\ Z.of_nat (length (report_calls tr)) <= times e
    /\ (5 * times e <= Z.of_nat (steps sch) ->
        out = Exit 0 /\ Z.of_nat (length (report_calls tr)) = times e)
    /\ (Z.of_nat (steps sch) < 5 * times e -> out = Running).
Proof.
  intros Hsetup Hatt H1 Hk Hns.
  destruct (main_enters_loop MAX_SLOTS MAX_CPU_NR fm w e Hsetup Hatt)
    as (links & tr0 & Hrep & Hlen & ->).
  pose proof (loop_inv_run MAX_SLOTS fm e (possible_cpus w) (times e) 0
                _ sch (session_start_inv MAX_SLOTS MAX_CPU_NR w e Hsetup
                         tr0 H1 Hrep) Hns)
    as (_ & _ & Hpc).
  cbv zeta in *. unfold ticks_done in Hpc. revert Hpc.
  set (s := run_loop MAX_SLOTS fm e (possible_cpus w) sch
              (session_start MAX_SLOTS MAX_CPU_NR e tr0)).
  destruct (s_pc s); intros Hpc;
    try (eexists _, _; split; [reflexivity|];
         repeat split; try done; lia).
  rewrite cleanup_links by done. simpl.
  eexists _, _. split; [reflexivity|].
  rewrite !report_calls_app, report_calls_destroy. simpl.
  rewrite !app_nil_r. repeat split; try done; lia.
Qed.

(** [runqlen -C -O 1 2] on two CPUs, run for ten statements. *)
Lemma budget_k_reports_then_exit_0_witness :
  exists out tr,
    main 4 2 exact_arith (world_ok 2) (env_flags true true 2)
         (repeat Step 10)
    = (out, tr)
    /\ Z.of_nat (length (report_calls tr)) <= times (env_flags true true 2)
    /\ (5 * times (env_flags true true 2)
        <= Z.of_nat (steps (repeat Step 10)) ->
        out = Exit 0
        /\ Z.of_nat (length (report_calls tr))
           = times (env_flags true true 2))
    /\ (Z.of_nat (steps (repeat Step 10))
        < 5 * times (env_flags true true 2) -> out = Running).
Proof.
  apply (budget_k_reports_then_exit_0 4 2 exact_arith (world_ok 2)
           (env_flags true true 2) (repeat Step 10)).
  - apply world_ok_setup. lia.
  - reflexivity.
  - lia.
  - simpl. lia.
  - apply no_signal_repeat.
Defined.

(** C10: with a count of 0 (or less) and no SIGINT the loop is never left
    through its budget test: [main] does not exit, however long it runs.
    With a count of exactly 0 the session is back in [sleep] after the five
    statements of the first round, with [env.times] at -1 and one report
    made. *)
Theorem zero_budget_keeps_running (MAX_SLOTS MAX_CPU_NR : nat)
    (fm : float_model) (w : world) (e : env) (sch : list action) :
  setup_ok MAX_CPU_NR w ->
  (forall i, Z.of_nat i < possible_cpus w -> attach w i = AttachOk) ->
  (1 <= MAX_CPU_NR)%nat ->
  times e <= 0 ->
  no_signal sch ->
  (forall status, fst (main MAX_SLOTS MAX_CPU_NR fm w e sch) <> Exit status)
  /\ (times e = 0 -> steps sch = 5%nat ->
      forall tr0,
        report_calls tr0 = [] ->
        let s := run_loop MAX_SLOTS fm e (possible_cpus w) sch
                   (session_start MAX_SLOTS MAX_CPU_NR e tr0) in
        s_pc s = PSleep /\ s_times s = -1
        /\ length (report_calls (s_trace s)) = 1%nat).
Proof.
  intros Hsetup Hatt H1 Hk Hns. split.
  - by apply main_deficit_no_exit.
  - intros H0 H5 tr0 Hrep.
    pose proof (loop_inv_run MAX_SLOTS fm e (possible_cpus w) (times e) 0
                  _ sch (session_start_inv MAX_SLOTS MAX_CPU_NR w e Hsetup
                           tr0 H1 Hrep) Hns)
      as (_ & _ & Hpc).
    cbv zeta in *. unfold ticks_done, INT_MIN in Hpc. revert Hpc.
    rewrite H5, H0.
    destruct (s_pc _); intros Hpc; try lia.
    repeat split; lia.
Qed.

(** [runqlen 1 0] on two CPUs, run for the five statements of one round. *)
Lemma zero_budget_keeps_running_witness :
  (forall status,
      fst (main 4 2 exact_arith (world_ok 2) (env_flags false false 0)
                (repeat Step 5))
      <> Exit status)
  /\ (times (env_flags false false 0) = 0 ->
      steps (repeat Step 5) = 5%nat ->
      forall tr0,
        report_calls tr0 = [] ->
        let s := run_loop 4 exact_arith (env_flags false false 0)
                   (possible_cpus (world_ok 2)) (repeat Step 5)
                   (session_start 4 2 (env_flags false false 0) tr0) in
        s_pc s = PSleep /\ s_times s = -1
        /\ length (report_calls (s_trace s)) = 1%nat).
Proof.
  apply (zero_budget_keeps_running 4 2 exact_arith (world_ok 2)
           (env_flags false false 0) (repeat Step 5)).
  - apply world_ok_setup. lia.
  - reflexivity.
  - lia.
  - simpl. lia.
  - apply no_signal_repeat.
Defined.

(** C7: when the attachment fails for CPU [j], after succeeding for the
    CPUs before it, [main] exits without having made a single report, and
    on its way out it destroys the links of the CPUs 0 to [j - 1], each
    once and no other. *)
Theorem attach_failure_aborts (MAX_SLOTS MAX_CPU_NR : nat)
    (fm : float_model) (w : world) (e : env) (sch : list action) (j : nat) :
  setup_ok MAX_CPU_NR w ->
  Z.of_nat j < possible_cpus w ->
  (forall i, (i < j)%nat -> attach w i = AttachOk) ->
  attach w j <> AttachOk ->
  exists status tr,
    main MAX_SLOTS MAX_CPU_NR fm w e sch = (Exit status, tr)
    /\ report_calls tr = []
    /\ destroyed_links tr = seq 0 j.
Proof.
  intros (Hargp & Hrl & Hopen & Hnr & Hcalloc & Hload) Hj Hok Hfail.
  destruct (attach_loop_fails w j Hfail (Z.to_nat (possible_cpus w)) 0 []
              [SetTargPerCpu (per_cpu e)])
    as (tr' & Heq & Hrep & Hdes); [done | intros i Hi; apply Hok; lia | lia |].
  simpl in Heq. rewrite Nat.sub_0_r in Heq.
  unfold main. rewrite Hargp, Hrl, Hopen, Hcalloc, Hload. simpl negb.
  cbv iota. apply Z.ltb_ge in Hnr. rewrite Hnr.
  unfold open_and_attach_perf_event. rewrite Heq. simpl negb. cbv iota.
  rewrite cleanup_links.
  - eexists _, _. split; [reflexivity|]. split.
    + rewrite !report_calls_app, Hrep, report_calls_destroy. reflexivity.
    + rewrite !destroyed_links_app, Hdes, map_app, destroyed_links_app.
      rewrite destroyed_links_some, destroyed_links_null.
      change (destroyed_links [SetTargPerCpu (per_cpu e)]) with (@nil nat).
      change (destroyed_links [FreeLinks; ObjDestroy]) with (@nil nat).
      by rewrite !app_nil_r.
  - rewrite length_app, length_fmap, length_seq, length_replicate. lia.
Qed.

(** Four CPUs, [perf_event_open] fails for CPU 1. *)
Lemma attach_failure_aborts_witness :
  exists status tr,
    main 4 8 exact_arith (world_attach_fails 4 1) (env_flags false false 1)
         (repeat Step 10)
    = (Exit status, tr)
    /\ report_calls tr = []
    /\ destroyed_links tr = seq 0 1.
Proof.
  apply (attach_failure_aborts 4 8 exact_arith (world_attach_fails 4 1)
           (env_flags false false 1) (repeat Step 10) 1).
  - repeat split; simpl; lia.
  - simpl. lia.
  - intros i Hi. assert (i = 0%nat) as -> by lia. reflexivity.
  - discriminate.
Defined.

(** C2: the exit status of [main] after a failure of the set-up.  When the
    attachment fails for CPU 1 of 4 the status is 0, because [err] is not
    set before [goto cleanup]; when [calloc] fails for 4 CPUs, [cleanup]
    reads [links[0]] through the null pointer, and with no CPU to clean up
    the status is again 0.  The failures of [bump_memlock_rlimit],
    [runqlen_bpf__open] and [runqlen_bpf__load] give status 1, and a session
    ended by SIGINT or by its count gives status 0. *)
Theorem setup_failure_exit_status (MAX_SLOTS : nat) (fm : float_model)
    (e : env) (sch : list action) :
  fst (main MAX_SLOTS 8 fm (world_attach_fails 4 1) e sch) = Exit 0
  /\ fst (main MAX_SLOTS 8 fm (world_calloc_fails 4) e sch) = Undefined
  /\ fst (main MAX_SLOTS 8 fm (world_calloc_fails 0) e sch) = Exit 0
  /\ fst (main MAX_SLOTS 8 fm (world_rlimit_fails 4) e sch) = Exit 1
  /\ fst (main MAX_SLOTS 8 fm (world_open_fails 4) e sch) = Exit 1
  /\ fst (main MAX_SLOTS 8 fm (world_load_fails 4) e sch) = Exit 1
  /\ fst (main 4 8 exact_arith (world_ok 4) (env_flags true true 9)
               [Step; Step; Signal; Step; Step; Step]) = Exit 0
  /\ fst (main 4 8 exact_arith (world_ok 4) (env_flags true true 1)
               [Step; Step; Step; Step; Step]) = Exit 0.
Proof. repeat split; reflexivity. Qed.

(** ** SIGINT *)

Lemma rounds_begun_snoc (tr : list event) ev :
  rounds_begun (tr ++ [ev])
  = rounds_begun tr ++ match ev with Stdout Newline => [tt] | _ => [] end.
Proof.
  unfold rounds_begun. rewrite omap_app. f_equal.
  destruct ev as [[]| | | | | | | | | |]; reflexivity.
Qed.

Section Signals.

Variable MAX_SLOTS : nat.
Variable fm : float_model.
Variable e : env.
Variable nr_cpus : Z.

Lemma step_ignores_flag (s : session) :
  s_pc s = PNewline \/ s_pc s = PTimestamp \/ s_pc s = PReport ->
  loop_step MAX_SLOTS fm e nr_cpus (sig_handler s)
  = sig_handler (loop_step MAX_SLOTS fm e nr_cpus s).
Proof.
  intros [H|[H|H]]; unfold loop_step, sig_handler; simpl; rewrite H; simpl.
  - reflexivity.
  - by destruct (timestamp e).
  - destruct (report MAX_SLOTS fm e nr_cpus _) as [[[] r]|]; reflexivity.
Qed.

Lemma leaves_at_check (a : action) (s : session) :
  s_pc s <> PLeft ->
  s_pc (act MAX_SLOTS fm e nr_cpus a s) = PLeft ->
  a = Step /\ s_pc s = PCheck.
Proof.
  intros Hpc. destruct a as [| |cpu slot v]; simpl.
  - unfold loop_step.
    destruct (s_pc s) eqn:E; simpl; try done; try (intros ?; congruence).
    by destruct (report MAX_SLOTS fm e nr_cpus _) as [[[] r]|].
  - by destruct (s_pc s).
  - done.
Qed.

Lemma check_with_flag (s : session) :
  s_pc s = PCheck -> s_exiting s = true ->
  loop_step MAX_SLOTS fm e nr_cpus s
  = {| s_pc := PLeft; s_exiting := true; s_times := s_times s;
       s_hists := s_hists s; s_trace := s_trace s |}.
Proof.
  intros Hpc Hex. unfold loop_step, goto. by rewrite Hpc, Hex.
Qed.

Lemma loop_step_length (s : session) :
  (rounds e nr_cpus <= length (s_hists s))%nat ->
  length (s_hists (loop_step MAX_SLOTS fm e nr_cpus s))
  = length (s_hists s).
Proof.
  intros Hlen. destruct (s_pc s) eqn:Epc;
    try (unfold loop_step; rewrite Epc; simpl; done).
  - at_pc Epc. by destruct (timestamp e).
  - by destruct (loop_step_report MAX_SLOTS fm e nr_cpus s Epc Hlen)
      as (lines & tbl' & Hl & ->).
  - at_pc Epc.
    destruct (s_exiting s); [done|].
    by destruct (int_dec (s_times s)).
Qed.

Lemma act_length (a : action) (s : session) :
  (rounds e nr_cpus <= length (s_hists s))%nat ->
  length (s_hists (act MAX_SLOTS fm e nr_cpus a s)) = length (s_hists s).
Proof.
  intros Hlen. destruct a; simpl.
  - by apply loop_step_length.
  - done.
  - apply sampler_store_length.
Qed.

(** A round that has begun runs to its report under every schedule. *)
Lemma round_inv_run (tr : list event) (s : session) (sch : list action) :
  round_inv e nr_cpus tr 0 s ->
  round_inv e nr_cpus tr (steps sch)
            (run_loop MAX_SLOTS fm e nr_cpus sch s).
Proof.
  intros H0. induction sch as [|a sch IH] using rev_ind; [exact H0|].
  rewrite run_loop_snoc, steps_snoc.
  set (s' := run_loop MAX_SLOTS fm e nr_cpus sch s) in *. clearbody s'.
  destruct IH as [Hlen IH]. split.
  { by rewrite act_length. }
  destruct a as [| |cpu slot v]; simpl is_step; simpl act;
    rewrite ?Nat.add_0_r.
  - rewrite Nat.add_1_r.
    destruct (steps sch) as [|[|[|n]]]; [| | |by destruct n].
    + destruct IH as [Hpc Htr]. at_pc Hpc. simpl.
      by rewrite Htr.
    + destruct IH as [Hpc Htr]. at_pc Hpc.
      destruct (timestamp e); simpl; rewrite Htr, <- ?app_assoc;
        by rewrite ?app_nil_r.
    + destruct IH as [Hpc Htr].
      destruct (loop_step_report MAX_SLOTS fm e nr_cpus s' Hpc Hlen)
        as (lines & tbl' & Hl & ->).
      simpl. split; [done|]. exists lines.
      by rewrite Htr, <- !app_assoc.
  - destruct (steps sch) as [|[|[|[|n]]]]; [| | | |done];
      destruct IH as [Hpc Htr]; unfold sig_handler; simpl;
      by rewrite Hpc.
  - by destruct (steps sch) as [|[|[|[|n]]]].
Qed.

(** Every round begun has made its report whenever the session is not
    inside a round. *)
Lemma reports_inv_run (s : session) (sch : list action) :
  reports_inv e nr_cpus s ->
  reports_inv e nr_cpus (run_loop MAX_SLOTS fm e nr_cpus sch s).
Proof.
  intros H0. induction sch as [|a sch IH] using rev_ind; [exact H0|].
  rewrite run_loop_snoc.
  set (s' := run_loop MAX_SLOTS fm e nr_cpus sch s) in *. clearbody s'.
  destruct IH as [Hlen IH]. split.
  { by rewrite act_length. }
  destruct a as [| |cpu slot v]; simpl act.
  - destruct (s_pc s') eqn:Epc.
    + unfold loop_step. by rewrite Epc.
    + at_pc Epc. simpl.
      rewrite rounds_begun_snoc, report_calls_snoc, !length_app.
      simpl. rewrite ?Nat.add_1_r, ?Nat.add_0_r. congruence.
    + at_pc Epc.
      destruct (timestamp e); simpl; [|done].
      rewrite rounds_begun_snoc, report_calls_snoc. simpl.
      by rewrite ?app_nil_r.
    + destruct (loop_step_report MAX_SLOTS fm e nr_cpus s' Epc Hlen)
        as (lines & tbl' & Hl & ->).
      simpl. rewrite rounds_begun_snoc, report_calls_snoc, !length_app.
      simpl. rewrite ?Nat.add_1_r, ?Nat.add_0_r. congruence.
    + at_pc Epc.
      destruct (s_exiting s'); [exact IH|].
      destruct (int_dec (s_times s')) as [t|]; [|exact IH].
      simpl. destruct (t =? 0); exact IH.
    + at_pc Epc. simpl. rewrite Epc. exact IH.
    + at_pc Epc. simpl. rewrite Epc. exact IH.
  - unfold sig_handler. simpl. by destruct (s_pc s').
  - done.
Qed.

End Signals.

(** C8: SIGINT only sets the flag (and ends a [sleep] in progress); the
    statements of a round before the test behave the same whether the flag
    is set or not; the loop is left from the test and from nowhere else.
    So a round that has begun makes its report whatever signals arrive
    during it, the test that sees the flag comes after that report, and
    when [main] has left the loop every round that was begun has made its
    report. *)
Theorem sigint_waits_for_report (MAX_SLOTS MAX_CPU_NR : nat)
    (fm : float_model) (e : env) (nr_cpus : Z) :
  (1 <= MAX_CPU_NR)%nat ->
  nr_cpus <= Z.of_nat MAX_CPU_NR ->
  (forall s,
      s_exiting (sig_handler s) = true
      /\ s_times (sig_handler s) = s_times s
      /\ s_hists (sig_handler s) = s_hists s
      /\ s_trace (sig_handler s) = s_trace s
      /\ s_pc (sig_handler s)
         = match s_pc s with PSleep => PNewline | p => p end)
  /\ (forall s,
        s_pc s = PNewline \/ s_pc s = PTimestamp \/ s_pc s = PReport ->
        loop_step MAX_SLOTS fm e nr_cpus (sig_handler s)
        = sig_handler (loop_step MAX_SLOTS fm e nr_cpus s))
  /\ (forall a s,
        s_pc s <> PLeft ->
        s_pc (act MAX_SLOTS fm e nr_cpus a s) = PLeft ->
        a = Step /\ s_pc s = PCheck)
  /\ (forall s,
        s_pc s = PCheck -> s_exiting s = true ->
        loop_step MAX_SLOTS fm e nr_cpus s
        = {| s_pc := PLeft; s_exiting := true; s_times := s_times s;
             s_hists := s_hists s; s_trace := s_trace s |})
  /\ (forall s sch,
        s_pc s = PNewline ->
        length (s_hists s) = MAX_CPU_NR ->
        steps sch = 3%nat ->
        let s' := run_loop MAX_SLOTS fm e nr_cpus sch s in
        s_pc s' = PCheck
        /\ exists lines,
             s_trace s'
             = s_trace s ++ [Stdout Newline]
                 ++ (if timestamp e then [Stdout Timestamp] else [])
                 ++ [Report lines])
  /\ (forall tr0 sch,
        rounds_begun tr0 = [] -> report_calls tr0 = [] ->
        let s := run_loop MAX_SLOTS fm e nr_cpus sch
                   (session_start MAX_SLOTS MAX_CPU_NR e tr0) in
        s_pc s = PLeft ->
        length (rounds_begun (s_trace s)) = length (report_calls (s_trace s))).
Proof.
  intros H1 Hnr.
  assert (Hrounds : (rounds e nr_cpus <= MAX_CPU_NR)%nat).
  { unfold rounds. destruct (per_cpu e); lia. }
  split; [|split; [|split; [|split; [|split]]]].
  - intros s. by destruct s as [[] ? ? ? ?].
  - apply step_ignores_flag.
  - apply leaves_at_check.
  - apply check_with_flag.
  - intros s sch Hpc Hlen H3 s'.
    pose proof (round_inv_run MAX_SLOTS fm e nr_cpus (s_trace s) s sch)
      as H.
    rewrite H3 in H. apply H. split; [lia | done].
  - intros tr0 sch Hb Hr s Hpc.
    pose proof (reports_inv_run MAX_SLOTS fm e nr_cpus
                  (session_start MAX_SLOTS MAX_CPU_NR e tr0) sch) as H.
    destruct H as [_ H].
    + split; simpl; [by rewrite length_replicate | by rewrite Hb, Hr].
    + fold s in H. by rewrite Hpc in H.
Qed.

(** A round of [runqlen -C -O] during which SIGINT arrives twice. *)
Lemma sigint_waits_for_report_witness :
  let s := {| s_pc := PNewline; s_exiting := false; s_times := 3;
              s_hists := tick1; s_trace := [] |} in
  let s' := run_loop 4 exact_arith (env_flags true true 3) 2
              [Step; Signal; Step; Signal; Step] s in
  s_pc s' = PCheck
  /\ exists lines,
       s_trace s'
       = s_trace s ++ [Stdout Newline]
           ++ (if timestamp (env_flags true true 3)
               then [Stdout Timestamp] else [])
           ++ [Report lines].
Proof.
  destruct (sigint_waits_for_report 4 2 exact_arith (env_flags true true 3) 2)
    as (_ & _ & _ & _ & H & _); [lia | lia |].
  apply H; reflexivity.
Defined.

(** * Further facts *)

(** ** [parse_arg] *)

(** An option key sets its flag and leaves the rest of the state. *)
Lemma parse_arg_option strtol (key : arg_key) (arg : string)
    (st : parse_state) :
  key <> KeyArg ->
  exists st',
    (parse_arg strtol key arg st = ParseOk st'
     \/ parse_arg strtol key arg st = ParseUnknown st')
    /\ ps_err st' = ps_err st
    /\ ps_pos_args st' = ps_pos_args st
    /\ interval (ps_env st') = interval (ps_env st)
    /\ times (ps_env st') = times (ps_env st).
Proof.
  intros Hk. destruct key; try done; eexists; (split; [by (left + right)|]);
    done.
Qed.

Lemma arg_key_cases (key : arg_key) : key = KeyArg \/ key <> KeyArg.
Proof. destruct key; (by left) || (by right). Qed.

Lemma positionals_option (key : arg_key) (arg : string) calls :
  key <> KeyArg -> positionals ((key, arg) :: calls) = positionals calls.
Proof. by destruct key. Qed.

Section Positionals.

Variable strtol : string -> Z * Z.

(** After two positional arguments any further one is refused. *)
Lemma parse_calls_full (calls : list (arg_key * string)) :
  forall st,
    ps_pos_args st <> 0 -> ps_pos_args st <> 1 ->
    match positionals calls with
    | [] =>
        parsed_with strtol calls st (interval (ps_env st))
                    (times (ps_env st)) (ps_pos_args st)
    | _ :: _ => usage_with strtol calls st "unrecognized positional argument"
    end.
Proof.
  induction calls as [|[key arg] rest IH]; intros st H0 H1.
  - simpl. by exists st.
  - destruct (arg_key_cases key) as [->|Hk].
    + unfold usage_with. simpl.
      rewrite (proj2 (Z.eqb_neq _ _) H0), (proj2 (Z.eqb_neq _ _) H1).
      by eexists.
    + rewrite (positionals_option key arg rest Hk).
      destruct (parse_arg_option strtol key arg st Hk)
        as (st1 & Hst1 & He & Hp & Hi & Ht).
      specialize (IH st1). rewrite Hp in IH. specialize (IH H0 H1).
      assert (Hcalls : parse_calls strtol ((key, arg) :: rest) st
                       = parse_calls strtol rest st1).
      { simpl. by destruct Hst1 as [-> | ->]. }
      unfold parsed_with, usage_with in *. rewrite Hcalls.
      rewrite ?He, ?Hi, ?Ht in IH. exact IH.
Qed.

Lemma parse_calls_skip (key : arg_key) (arg : string) rest st :
  key <> KeyArg ->
  exists st1,
    parse_calls strtol ((key, arg) :: rest) st = parse_calls strtol rest st1
    /\ ps_err st1 = ps_err st
    /\ ps_pos_args st1 = ps_pos_args st
    /\ interval (ps_env st1) = interval (ps_env st)
    /\ times (ps_env st1) = times (ps_env st).
Proof.
  intros Hk.
  destruct (parse_arg_option strtol key arg st Hk) as (st1 & Hst1 & H).
  exists st1. split; [|exact H].
  simpl. by destruct Hst1 as [-> | ->].
Qed.

(** With the interval read, the next positional argument is the count. *)
Lemma parse_calls_count (calls : list (arg_key * string)) :
  forall st,
    ps_pos_args st = 1 ->
    match positionals calls with
    | [] =>
        parsed_with strtol calls st (interval (ps_env st))
                    (times (ps_env st)) 1
    | b :: r =>
        if negb (snd (strtol b) =? 0)
        then usage_with strtol calls st "invalid times"
        else match r with
             | [] =>
                 parsed_with strtol calls st (interval (ps_env st))
                             (int_of_long (fst (strtol b))) 2
             | _ :: _ =>
                 usage_with strtol calls st "unrecognized positional argument"
             end
    end.
Proof.
  induction calls as [|[key arg] rest IH]; intros st H1.
  - simpl. by exists st.
  - destruct (arg_key_cases key) as [->|Hk].
    + change (positionals ((KeyArg, arg) :: rest))
        with (arg :: positionals rest).
      unfold usage_with, parsed_with. simpl parse_calls.
      rewrite H1. simpl Z.eqb. cbv iota.
      destruct (strtol arg) as [v errno]. simpl fst. simpl snd.
      destruct (errno =? 0) eqn:Eerr; simpl negb; cbv iota.
      * pose proof (parse_calls_full rest
          (count_pos_arg
             (with_env st (set_times (ps_env st) (int_of_long v))))) as H.
        simpl in H. rewrite H1 in H.
        specialize (H ltac:(lia) ltac:(lia)).
        unfold usage_with, parsed_with in H. simpl in H.
        destruct (positionals rest); exact H.
      * by eexists.
    + rewrite (positionals_option key arg rest Hk).
      destruct (parse_calls_skip key arg rest st Hk)
        as (st1 & Hcalls & He & Hp & Hi & Ht).
      specialize (IH st1). rewrite Hp in IH. specialize (IH H1).
      unfold parsed_with, usage_with in *. rewrite Hcalls.
      rewrite ?He, ?Hi, ?Ht in IH. exact IH.
Qed.

(** From the start: the interval, then the count, then nothing. *)
Lemma parse_calls_interval (calls : list (arg_key * string)) :
  forall st,
    ps_pos_args st = 0 ->
    match positionals calls with
    | [] =>
        parsed_with strtol calls st (interval (ps_env st))
                    (times (ps_env st)) 0
    | a :: r =>
        if negb (snd (strtol a) =? 0)
        then usage_with strtol calls st "invalid internal"
        else
          match r with
          | [] =>
              parsed_with strtol calls st (fst (strtol a))
                          (times (ps_env st)) 1
          | b :: r' =>
              if negb (snd (strtol b) =? 0)
              then usage_with strtol calls st "invalid times"
              else match r' with
                   | [] =>
                       parsed_with strtol calls st (fst (strtol a))
                                   (int_of_long (fst (strtol b))) 2
                   | _ :: _ =>
                       usage_with strtol calls st
                                  "unrecognized positional argument"
                   end
          end
    end.
Proof.
  induction calls as [|[key arg] rest IH]; intros st H0.
  - simpl. by exists st.
  - destruct (arg_key_cases key) as [->|Hk].
    + change (positionals ((KeyArg, arg) :: rest))
        with (arg :: positionals rest).
      unfold usage_with, parsed_with. simpl parse_calls.
      rewrite H0. simpl Z.eqb. cbv iota.
      destruct (strtol arg) as [v errno]. simpl fst. simpl snd.
      destruct (errno =? 0) eqn:Eerr; simpl negb; cbv iota.
      * pose proof (parse_calls_count rest
          (count_pos_arg (with_env st (set_interval (ps_env st) v)))) as H.
        simpl in H. rewrite H0 in H. specialize (H eq_refl).
        unfold usage_with, parsed_with in H. simpl in H.
        destruct (positionals rest) as [|b r']; [exact H|].
        destruct (negb (snd (strtol b) =? 0)); [exact H|].
        destruct r'; exact H.
      * by eexists.
    + rewrite (positionals_option key arg rest Hk).
      destruct (parse_calls_skip key arg rest st Hk)
        as (st1 & Hcalls & He & Hp & Hi & Ht).
      specialize (IH st1). rewrite Hp in IH. specialize (IH H0).
      unfold parsed_with, usage_with in *. rewrite Hcalls.
      rewrite ?He, ?Hi, ?Ht in IH. exact IH.
Qed.

End Positionals.

Lemma existsb_is_key_other (k key : arg_key) (arg : string) calls :
  is_key k (key, arg) = false ->
  has_key k ((key, arg) :: calls) = has_key k calls.
Proof. intros H. unfold has_key. simpl. by rewrite H. Qed.

(** One call that returns sets the flag of its key and no other. *)
Lemma parse_arg_flags (strtol : string -> Z * Z) (key : arg_key)
    (arg : string) (st st1 : parse_state) :
  parse_arg strtol key arg st = ParseOk st1
  \/ parse_arg strtol key arg st = ParseUnknown st1 ->
  per_cpu (ps_env st1) = per_cpu (ps_env st) || is_key KeyCpus (key, arg)
  /\ runqocc (ps_env st1)
     = runqocc (ps_env st) || is_key KeyRunqocc (key, arg)
  /\ timestamp (ps_env st1)
     = timestamp (ps_env st) || is_key KeyTimestamp (key, arg)
  /\ verbose (ps_env st1)
     = verbose (ps_env st) || is_key KeyVerbose (key, arg).
Proof.
  intros Hcall.
  assert (Hflags : forall e : env,
    per_cpu e = per_cpu (ps_env st) -> runqocc e = runqocc (ps_env st) ->
    timestamp e = timestamp (ps_env st) -> verbose e = verbose (ps_env st) ->
    per_cpu e = per_cpu (ps_env st) || false
    /\ runqocc e = runqocc (ps_env st) || false
    /\ timestamp e = timestamp (ps_env st) || false
    /\ verbose e = verbose (ps_env st) || false).
  { intros e -> -> -> ->. by rewrite !orb_false_r. }
  destruct key; simpl in Hcall; unfold is_key; simpl fst.
  - destruct Hcall as [[= <-]|[=]]. simpl. by rewrite !orb_false_r, orb_true_r.
  - destruct Hcall as [[= <-]|[=]]. simpl. by rewrite !orb_false_r, orb_true_r.
  - destruct Hcall as [[= <-]|[=]]. simpl. by rewrite !orb_false_r, orb_true_r.
  - destruct Hcall as [[= <-]|[=]]. simpl. by rewrite !orb_false_r, orb_true_r.
  - destruct (ps_pos_args st =? 0).
    + destruct (strtol arg) as [v errno].
      destruct (negb (errno =? 0)); destruct Hcall as [Hc|Hc]; try done.
      injection Hc as <-. by apply Hflags.
    + destruct (ps_pos_args st =? 1); [|by destruct Hcall].
      destruct (strtol arg) as [v errno].
      destruct (negb (errno =? 0)); destruct Hcall as [Hc|Hc]; try done.
      injection Hc as <-. by apply Hflags.
  - destruct Hcall as [[=]|[= <-]]. by apply Hflags.
Qed.

Lemma parse_calls_step (strtol : string -> Z * Z) (key : arg_key)
    (arg : string) rest (st st' : parse_state) :
  parse_calls strtol ((key, arg) :: rest) st = ParseOk st' ->
  exists st1,
    (parse_arg strtol key arg st = ParseOk st1
     \/ parse_arg strtol key arg st = ParseUnknown st1)
    /\ parse_calls strtol rest st1 = ParseOk st'.
Proof.
  simpl. intros Hok.
  destruct (parse_arg strtol key arg st) as [st1|st1|st1];
    [exists st1; split; [by left | done]
    |exists st1; split; [by right | done] | done].
Qed.

(** X1: when the calls all return, each of the flags [per_cpu], [runqocc]
    and [timestamp] is what it was before or is set because its option
    occurred among the calls; no call clears a flag, and the order of the
    options does not matter. *)
Theorem parse_calls_flags (strtol : string -> Z * Z)
    (calls : list (arg_key * string)) (st st' : parse_state) :
  parse_calls strtol calls st = ParseOk st' ->
  per_cpu (ps_env st') = per_cpu (ps_env st) || has_key KeyCpus calls
  /\ runqocc (ps_env st') = runqocc (ps_env st) || has_key KeyRunqocc calls
  /\ timestamp (ps_env st')
     = timestamp (ps_env st) || has_key KeyTimestamp calls.
Proof.
  revert st. induction calls as [|[key arg] rest IH]; intros st Hok.
  - simpl in Hok. injection Hok as <-. unfold has_key. simpl.
    by rewrite !orb_false_r.
  - apply parse_calls_step in Hok as (st1 & Hcall & Hrest).
    apply parse_arg_flags in Hcall as (Hc & Ho & Ht & _).
    apply IH in Hrest as (Hc' & Ho' & Ht').
    rewrite Hc', Ho', Ht', Hc, Ho, Ht.
    unfold has_key. simpl existsb. by rewrite !orb_assoc.
Qed.

(** [runqlen -C 1 -v 5 -C]. *)
Lemma parse_calls_flags_witness :
  let calls := [(KeyCpus, ""); (KeyArg, "1"); (KeyVerbose, "");
                (KeyArg, "5"); (KeyCpus, "")]%string in
  exists st',
    parse_calls strtol_digits calls parse_start = ParseOk st'
    /\ per_cpu (ps_env st') = true /\ runqocc (ps_env st') = false
    /\ timestamp (ps_env st') = false.
Proof.
  intros calls. eexists. split; [reflexivity|].
  apply (parse_calls_flags strtol_digits calls parse_start). reflexivity.
Defined.

Lemma usage_message_none (strtol : string -> Z * Z) (ps : list string) :
  usage_message strtol ps = None
  <-> (length ps <= 2)%nat /\ Forall (fun a => snd (strtol a) = 0) ps.
Proof.
  destruct ps as [|a [|b [|c r]]]; simpl.
  - split; [intros _; split; [lia | constructor] | done].
  - destruct (snd (strtol a) =? 0) eqn:Ea; simpl.
    + apply Z.eqb_eq in Ea. split; [|done].
      intros _. split; [lia|]. by repeat constructor.
    + apply Z.eqb_neq in Ea. split; [done|].
      intros [_ H]. by apply Forall_cons_1 in H as [? _].
  - destruct (snd (strtol a) =? 0) eqn:Ea; simpl.
    + apply Z.eqb_eq in Ea.
      destruct (snd (strtol b) =? 0) eqn:Eb; simpl.
      * apply Z.eqb_eq in Eb. split; [|done].
        intros _. split; [lia|]. by repeat constructor.
      * apply Z.eqb_neq in Eb. split; [done|].
        intros [_ H]. apply Forall_cons_1 in H as [_ H].
        by apply Forall_cons_1 in H as [? _].
    + apply Z.eqb_neq in Ea. split; [done|].
      intros [_ H]. by apply Forall_cons_1 in H as [? _].
  - split; [|intros [H _]; lia].
    destruct (negb (snd (strtol a) =? 0)); [done|].
    by destruct (negb (snd (strtol b) =? 0)).
Qed.

(** X2: calls with at most two positional arguments, each of which [strtol]
    converts without error, all return and write no diagnostic.  The first
    positional argument becomes [env.interval] and the second, reduced to
    an [int], [env.times]; a value that is not given stays as it was.  No
    range is checked. *)
Theorem parse_calls_accepts (strtol : string -> Z * Z)
    (calls : list (arg_key * string)) (st : parse_state) :
  ps_pos_args st = 0 ->
  (length (positionals calls) <= 2)%nat ->
  Forall (fun a => snd (strtol a) = 0) (positionals calls) ->
  exists st',
    parse_calls strtol calls st = ParseOk st'
    /\ ps_err st' = ps_err st
    /\ ps_pos_args st' = Z.of_nat (length (positionals calls))
    /\ interval (ps_env st')
       = from_option (fun a => fst (strtol a)) (interval (ps_env st))
                     (positionals calls !! 0%nat)
    /\ times (ps_env st')
       = from_option (fun b => int_of_long (fst (strtol b)))
                     (times (ps_env st)) (positionals calls !! 1%nat).
Proof.
  intros H0 Hlen Herr.
  pose proof (parse_calls_interval strtol calls st H0) as H.
  destruct (positionals calls) as [|a [|b [|c r]]]; simpl in *.
  - destruct H as (st' & ? & ? & ? & ? & ?). by exists st'.
  - apply Forall_cons_1 in Herr as [Ha _].
    rewrite Ha in H. simpl in H.
    destruct H as (st' & ? & ? & ? & ? & ?). by exists st'.
  - apply Forall_cons_1 in Herr as [Ha Herr].
    apply Forall_cons_1 in Herr as [Hb _].
    rewrite Ha, Hb in H. simpl in H.
    destruct H as (st' & ? & ? & ? & ? & ?). by exists st'.
  - lia.
Qed.

(** [runqlen -O 2 7]. *)
Lemma parse_calls_accepts_witness :
  let calls := [(KeyRunqocc, ""); (KeyArg, "2"); (KeyArg, "7")]%string in
  exists st',
    parse_calls strtol_digits calls parse_start = ParseOk st'
    /\ ps_err st' = []
    /\ ps_pos_args st' = 2
    /\ interval (ps_env st') = 2
    /\ times (ps_env st') = 7.
Proof.
  intros calls.
  apply (parse_calls_accepts strtol_digits calls parse_start);
    [reflexivity | simpl; lia | by repeat constructor].
Defined.

(** Close a case in which the calls end in [argp_usage]. *)
Ltac refused H :=
  let st' := fresh "st" in
  destruct H as (st' & ? & ?); exists st'; eexists;
  split; [reflexivity | done].

(** X3: calls with a third positional argument, or with one of the first
    two that [strtol] reports an error for, end in [argp_usage] after
    exactly one diagnostic: the one of the first positional argument that
    is at fault. *)
Theorem parse_calls_refuses (strtol : string -> Z * Z)
    (calls : list (arg_key * string)) (st : parse_state) :
  ps_pos_args st = 0 ->
  (3 <= length (positionals calls))%nat
  \/ Exists (fun a => snd (strtol a) <> 0) (take 2 (positionals calls)) ->
  exists st' m,
    usage_message strtol (positionals calls) = Some m
    /\ parse_calls strtol calls st = ParseUsage st'
    /\ ps_err st' = ps_err st ++ [m].
Proof.
  intros H0 Hbad.
  pose proof (parse_calls_interval strtol calls st H0) as H.
  pose proof (usage_message_none strtol (positionals calls)) as Hnone.
  destruct (usage_message strtol (positionals calls)) as [m|] eqn:Hm.
  - clear Hnone Hbad.
    destruct (positionals calls) as [|a [|b [|c r]]]; simpl in *; [done|..].
    + destruct (negb (snd (strtol a) =? 0)); [|done].
      injection Hm as <-. refused H.
    + destruct (negb (snd (strtol a) =? 0)).
      * injection Hm as <-. refused H.
      * destruct (negb (snd (strtol b) =? 0)); [|done].
        injection Hm as <-. refused H.
    + destruct (negb (snd (strtol a) =? 0)).
      * injection Hm as <-. refused H.
      * destruct (negb (snd (strtol b) =? 0)).
        -- injection Hm as <-. refused H.
        -- injection Hm as <-. refused H.
  - exfalso. destruct (proj1 Hnone eq_refl) as [Hlen Hall].
    destruct Hbad as [Hbad|Hbad]; [lia|].
    apply Exists_exists in Hbad as (a & Ha & Herr).
    apply Herr. apply (proj1 (Forall_forall _ _) Hall a).
    by apply (subseteq_take 2 (positionals calls)).
Qed.

(** [runqlen 1 10 3]. *)
Lemma parse_calls_refuses_witness :
  let calls := [(KeyArg, "1"); (KeyArg, "10"); (KeyArg, "3")]%string in
  exists st' m,
    usage_message strtol_digits (positionals calls) = Some m
    /\ parse_calls strtol_digits calls parse_start = ParseUsage st'
    /\ ps_err st' = ps_err parse_start ++ [m].
Proof.
  intros calls.
  apply (parse_calls_refuses strtol_digits calls parse_start);
    [reflexivity | left; simpl; lia].
Defined.

Lemma int_of_long_range (v : Z) : INT_MIN <= int_of_long v < 2 ^ 31.
Proof.
  unfold int_of_long, INT_MIN.
  pose proof (Z.mod_pos_bound (v + 2 ^ 31) (2 ^ 32) ltac:(lia)). lia.
Qed.

Lemma int_of_long_fits (v : Z) :
  INT_MIN <= v < 2 ^ 31 -> int_of_long v = v.
Proof.
  unfold int_of_long, INT_MIN. intros Hv.
  rewrite Z.mod_small by lia. lia.
Qed.

Lemma int_of_long_congruent (v : Z) : (int_of_long v - v) mod 2 ^ 32 = 0.
Proof.
  unfold int_of_long.
  replace ((v + 2 ^ 31) mod 2 ^ 32 - 2 ^ 31 - v)
    with ((v + 2 ^ 31) mod 2 ^ 32 - (v + 2 ^ 31)) by lia.
  rewrite Zminus_mod, Z.mod_mod by lia.
  rewrite Z.sub_diag. reflexivity.
Qed.

(** X4: the count is stored without a range check.  When [strtol] reports
    no error, the second positional argument always returns; what is stored
    in [env.times] is the value reduced to an [int]: the value itself when
    it fits, zero and negative values included, and a value congruent to it
    modulo 2^32 otherwise. *)
Theorem count_is_reduced_to_int (strtol : string -> Z * Z) (arg : string)
    (st : parse_state) :
  ps_pos_args st = 1 ->
  snd (strtol arg) = 0 ->
  exists st',
    parse_arg strtol KeyArg arg st = ParseOk st'
    /\ ps_pos_args st' = 2
    /\ INT_MIN <= times (ps_env st') < 2 ^ 31
    /\ (times (ps_env st') - fst (strtol arg)) mod 2 ^ 32 = 0
    /\ (INT_MIN <= fst (strtol arg) < 2 ^ 31 ->
        times (ps_env st') = fst (strtol arg)).
Proof.
  intros H1 Herr. simpl. rewrite H1. simpl Z.eqb. cbv iota.
  destruct (strtol arg) as [v errno]. simpl in *. subst errno. simpl.
  eexists. split; [reflexivity|]. simpl. rewrite H1.
  split; [done|]. split; [apply int_of_long_range|].
  split; [apply int_of_long_congruent | apply int_of_long_fits].
Qed.

(** The count [4294967297] after an interval: stored as 1. *)
Lemma count_is_reduced_to_int_witness :
  exists st',
    parse_arg strtol_digits KeyArg "4294967297"
              (count_pos_arg parse_start) = ParseOk st'
    /\ ps_pos_args st' = 2
    /\ INT_MIN <= times (ps_env st') < 2 ^ 31
    /\ (times (ps_env st') - 4294967297) mod 2 ^ 32 = 0
    /\ (INT_MIN <= 4294967297 < 2 ^ 31 -> times (ps_env st') = 4294967297).
Proof.
  apply (count_is_reduced_to_int strtol_digits "4294967297"
           (count_pos_arg parse_start)); reflexivity.
Defined.

(** ** [libbpf_print_fn] *)

(** X5: after calls that all return, starting from the initial [env],
    [libbpf_print_fn] passes a debug message of libbpf on to [stderr]
    exactly when the option [-v] was among the calls, and otherwise drops
    it and returns 0; warnings and informational messages are always
    passed on. *)
Theorem debug_printed_iff_verbose (strtol : string -> Z * Z)
    (calls : list (arg_key * string)) (st' : parse_state)
    (msg : string) (n : Z) :
  parse_calls strtol calls parse_start = ParseOk st' ->
  libbpf_print_fn (ps_env st') LIBBPF_DEBUG msg n
  = (if has_key KeyVerbose calls then (n, [Stderr msg]) else (0, []))
  /\ libbpf_print_fn (ps_env st') LIBBPF_INFO msg n = (n, [Stderr msg])
  /\ libbpf_print_fn (ps_env st') LIBBPF_WARN msg n = (n, [Stderr msg]).
Proof.
  intros Hok. split; [|done].
  assert (Hv : forall calls st,
    parse_calls strtol calls st = ParseOk st' ->
    verbose (ps_env st') = verbose (ps_env st) || has_key KeyVerbose calls).
  { clear calls Hok. induction calls as [|[key arg] rest IH]; intros st Hok.
    - simpl in Hok. injection Hok as <-. by rewrite orb_false_r.
    - apply parse_calls_step in Hok as (st1 & Hcall & Hrest).
      apply parse_arg_flags in Hcall as (_ & _ & _ & Hv).
      rewrite (IH st1 Hrest), Hv.
      unfold has_key. simpl existsb. by rewrite orb_assoc. }
  unfold libbpf_print_fn. rewrite (Hv calls parse_start Hok). done.
Qed.

(** [runqlen -v 1] and a debug message of 12 characters. *)
Lemma debug_printed_iff_verbose_witness :
  let calls := [(KeyVerbose, ""); (KeyArg, "1")]%string in
  let e := set_interval (set_verbose env_default true) 1 in
  libbpf_print_fn e LIBBPF_DEBUG "libbpf: ..." 12
  = (if has_key KeyVerbose calls then (12, [Stderr "libbpf: ..."])
     else (0, []))
  /\ libbpf_print_fn e LIBBPF_INFO "libbpf: ..." 12
     = (12, [Stderr "libbpf: ..."])
  /\ libbpf_print_fn e LIBBPF_WARN "libbpf: ..." 12
     = (12, [Stderr "libbpf: ..."]).
Proof.
  intros calls e.
  apply (debug_printed_iff_verbose strtol_digits calls
           (count_pos_arg (with_env parse_start e)) "libbpf: ..." 12).
  reflexivity.
Defined.

(** ** The report functions: shape of the output *)

(** In per-CPU mode the linear report is a block of two lines per row. *)
Lemma lin_lines_blocks (MAX_SLOTS : nat) (e : env) (rows : list hist) :
  per_cpu e = true ->
  forall i0,
    length (lin_lines MAX_SLOTS e i0 rows) = (2 * length rows)%nat
    /\ forall k h,
         rows !! k = Some h ->
         lin_lines MAX_SLOTS e i0 rows !! (2 * k)%nat
         = Some (CpuHeader (i0 + k))
         /\ lin_lines MAX_SLOTS e i0 rows !! (2 * k + 1)%nat
            = Some (LinearHist h MAX_SLOTS "runqlen").
Proof.
  intros Hc. induction rows as [|h0 rest IH]; intros i0.
  - split; [done|]. intros k h Hk. done.
  - destruct (IH (S i0)) as [Hlen Hblocks].
    cbn [lin_lines]. rewrite Hc. split.
    + simpl. rewrite Hlen. lia.
    + intros [|k] h Hk.
      * injection Hk as ->. rewrite Nat.add_0_r. done.
      * simpl in Hk. destruct (Hblocks k h Hk) as [H1 H2].
        replace (2 * S k)%nat with (S (S (2 * k))) by lia.
        replace (S (S (2 * k)) + 1)%nat with (S (S (2 * k + 1))) by lia.
        replace (i0 + S k)%nat with (S i0 + k)%nat by lia.
        simpl. done.
Qed.

(** X6: in per-CPU mode [print_linear_hists] prints, for each CPU below
    [nr_cpus] in order, the line [cpu = i] followed by the histogram that
    row [i] held when the call began, clears those rows and leaves the
    others.  CPU 0 is reported even when [nr_cpus] is 0 or negative. *)
Theorem print_linear_hists_per_cpu (MAX_SLOTS : nat) (e : env)
    (nr_cpus : Z) (tbl : list hist) (out : list out_line) :
  per_cpu e = true ->
  (Z.to_nat (Z.max 1 nr_cpus) <= length tbl)%nat ->
  exists lines,
    print_linear_hists MAX_SLOTS e nr_cpus (RState tbl out)
    = Some (tt, RState (replicate (Z.to_nat (Z.max 1 nr_cpus))
                                  (zero MAX_SLOTS)
                          ++ drop (Z.to_nat (Z.max 1 nr_cpus)) tbl)
                       (out ++ lines))
    /\ length lines = (2 * Z.to_nat (Z.max 1 nr_cpus))%nat
    /\ forall i h,
         (i < Z.to_nat (Z.max 1 nr_cpus))%nat ->
         tbl !! i = Some h ->
         lines !! (2 * i)%nat = Some (CpuHeader i)
         /\ lines !! (2 * i + 1)%nat = Some (LinearHist h MAX_SLOTS "runqlen").
Proof.
  intros Hc Hlen.
  assert (Hr : rounds e nr_cpus = Z.to_nat (Z.max 1 nr_cpus)).
  { unfold rounds. by rewrite Hc. }
  rewrite <- Hr in *.
  destruct (lin_lines_blocks MAX_SLOTS e (take (rounds e nr_cpus) tbl) Hc 0)
    as [Hl Hblocks].
  eexists. split; [by apply print_linear_hists_rows|]. split.
  - rewrite Hl, length_take. lia.
  - intros i h Hi Hh. apply Hblocks. by rewrite lookup_take_lt.
Qed.

(** [runqlen -C] on the tick of the scenario. *)
Lemma print_linear_hists_per_cpu_witness :
  exists lines,
    print_linear_hists 4 (env_flags true false 1) 2 (RState tick1 [])
    = Some (tt, RState (replicate (Z.to_nat (Z.max 1 2)) (zero 4)
                          ++ drop (Z.to_nat (Z.max 1 2)) tick1)
                       ([] ++ lines))
    /\ length lines = (2 * Z.to_nat (Z.max 1 2))%nat
    /\ forall i h,
         (i < Z.to_nat (Z.max 1 2))%nat ->
         tick1 !! i = Some h ->
         lines !! (2 * i)%nat = Some (CpuHeader i)
         /\ lines !! (2 * i + 1)%nat = Some (LinearHist h 4 "runqlen").
Proof.
  apply (print_linear_hists_per_cpu 4 (env_flags true false 1) 2 tick1 []);
    [reflexivity | simpl; lia].
Defined.

Lemma occ_lines_labels (MAX_SLOTS : nat) (fm : float_model) (e : env)
    (rows : list hist) :
  per_cpu e = true ->
  forall i0 acc k,
    (k < length rows)%nat ->
    exists p,
      occ_lines MAX_SLOTS fm e i0 acc rows !! k = Some (OccCpu (i0 + k) p).
Proof.
  intros Hc. induction rows as [|h rest IH]; intros i0 acc k Hk.
  - simpl in Hk. lia.
  - cbn [occ_lines]. destruct k as [|k].
    + simpl. unfold occ_line. rewrite Hc, Nat.add_0_r. by eexists.
    + simpl in Hk.
      destruct (IH (S i0) (scan_slots MAX_SLOTS h acc) k ltac:(lia))
        as [p Hp].
      exists p. simpl. rewrite Hp. f_equal. f_equal. lia.
Qed.

(** X7: in per-CPU mode [print_runq_occupancy] prints exactly one line for
    each CPU below [nr_cpus], labelled with the CPUs 0, 1, ... in order,
    and clears their rows; CPU 0 is reported even when [nr_cpus] is 0 or
    negative. *)
Theorem print_runq_occupancy_per_cpu (MAX_SLOTS : nat) (fm : float_model)
    (e : env) (nr_cpus : Z) (tbl : list hist) (out : list out_line) :
  per_cpu e = true ->
  (Z.to_nat (Z.max 1 nr_cpus) <= length tbl)%nat ->
  exists lines,
    print_runq_occupancy MAX_SLOTS fm e nr_cpus (RState tbl out)
    = Some (tt, RState (replicate (Z.to_nat (Z.max 1 nr_cpus))
                                  (zero MAX_SLOTS)
                          ++ drop (Z.to_nat (Z.max 1 nr_cpus)) tbl)
                       (out ++ lines))
    /\ length lines = Z.to_nat (Z.max 1 nr_cpus)
    /\ forall i,
         (i < Z.to_nat (Z.max 1 nr_cpus))%nat ->
         exists p, lines !! i = Some (OccCpu i p).
Proof.
  intros Hc Hlen.
  assert (Hr : rounds e nr_cpus = Z.to_nat (Z.max 1 nr_cpus)).
  { unfold rounds. by rewrite Hc. }
  rewrite <- Hr in *.
  eexists. split; [by apply print_runq_occupancy_rows|]. split.
  - rewrite occ_lines_length, length_take. lia.
  - intros i Hi.
    apply (occ_lines_labels MAX_SLOTS fm e _ Hc 0 (0, 0) i).
    rewrite length_take. lia.
Qed.

(** [runqlen -C -O] on the tick of the scenario. *)
Lemma print_runq_occupancy_per_cpu_witness :
  exists lines,
    print_runq_occupancy 4 exact_arith (env_flags true true 1) 2
      (RState tick1 [])
    = Some (tt, RState (replicate (Z.to_nat (Z.max 1 2)) (zero 4)
                          ++ drop (Z.to_nat (Z.max 1 2)) tick1)
                       ([] ++ lines))
    /\ length lines = Z.to_nat (Z.max 1 2)
    /\ forall i,
         (i < Z.to_nat (Z.max 1 2))%nat ->
         exists p, lines !! i = Some (OccCpu i p).
Proof.
  apply (print_runq_occupancy_per_cpu 4 exact_arith (env_flags true true 1)
           2 tick1 []); [reflexivity | simpl; lia].
Defined.

Lemma hist_total_take_1 (h : hist) :
  hist_total (take 1 h) = default 0 (h !! 0%nat).
Proof. destruct h as [|v t]; unfold hist_total; simpl; [done | lia]. Qed.

(** In exact arithmetic the C expression is the quotient of the formula. *)
Lemma runqocc_pct_exact (queued samples : Z) :
  (runqocc_pct exact_arith queued samples
   == 100 * (inject_Z queued / inject_Z (Z.max 1 samples)))%Q.
Proof.
  unfold runqocc_pct, runqocc_ratio, runqocc_divisor. simpl.
  unfold Qdiv. ring.
Qed.

(** X8: the first line of an occupancy report, which in aggregate mode is
    the only one, is computed from row 0 alone: from [queued], the sum of
    its buckets 1 and up, and [samples], the sum of all its buckets.  In
    exact arithmetic it is the occupancy 100 * queued / max(1, samples) of
    that histogram.  The counters of the row are not negative and their
    sum is below 2^64. *)
Theorem first_line_is_occupancy_of_row_0 (MAX_SLOTS : nat)
    (fm : float_model) (e : env) (nr_cpus : Z) (tbl : list hist)
    (h : hist) (out : list out_line) :
  tbl !! 0%nat = Some h ->
  length h = MAX_SLOTS ->
  Forall (fun v => 0 <= v) h ->
  hist_total h < u64_max ->
  (rounds e nr_cpus <= length tbl)%nat ->
  exists l rest r,
    print_runq_occupancy MAX_SLOTS fm e nr_cpus (RState tbl out)
    = Some (tt, r)
    /\ st_out r = out ++ l :: rest
    /\ (per_cpu e = false -> rest = [])
    /\ line_pct l
       = Some (runqocc_pct fm (hist_total (drop 1 h)) (hist_total h))
    /\ (runqocc_pct exact_arith (hist_total (drop 1 h)) (hist_total h)
        == spec_occupancy h)%Q.
Proof.
  intros Hh Hlen Hnn Htot Hr.
  pose proof (hist_total_nonneg h Hnn) as Hpos.
  pose proof (hist_total_split h) as Hsplit.
  assert (0 <= hist_total (take 1 h))
    by (apply hist_total_nonneg, Forall_take, Hnn).
  assert (0 <= hist_total (drop 1 h))
    by (apply hist_total_nonneg, Forall_drop, Hnn).
  assert (Hscan : scan_slots MAX_SLOTS h (0, 0)
                  = (hist_total (take 1 h), hist_total (drop 1 h))).
  { rewrite <- Hlen. rewrite scan_slots_exact by (done || lia). done. }
  destruct tbl as [|h0 t]; [done|]. injection Hh as ->.
  assert (Hn : exists n, rounds e nr_cpus = S n).
  { unfold rounds. destruct (per_cpu e); [|by exists 0%nat].
    exists (Z.to_nat (Z.max 1 nr_cpus) - 1)%nat. lia. }
  destruct Hn as [n Hn].
  rewrite print_runq_occupancy_rows by done.
  rewrite Hn. cbn [take occ_lines]. rewrite Hscan.
  eexists _, _, _. split; [reflexivity|]. split; [reflexivity|].
  split; [|split].
  - intros Hagg. unfold rounds in Hn. rewrite Hagg in Hn.
    injection Hn as <-. done.
  - rewrite occ_line_pct. cbn [fst snd].
    rewrite <- Hsplit, u64_small by lia. done.
  - rewrite runqocc_pct_exact. unfold spec_occupancy.
    rewrite <- hist_total_take_1.
    change (foldr Z.add 0 (drop 1 h)) with (hist_total (drop 1 h)).
    rewrite <- Hsplit. apply Qeq_refl.
Qed.

(** [runqlen -O] on the tick of the scenario: 37.5 from row 0. *)
Lemma first_line_is_occupancy_of_row_0_witness :
  exists l rest r,
    print_runq_occupancy 4 exact_arith (env_flags false true 1) 2
      (RState tick1 [])
    = Some (tt, r)
    /\ st_out r = [] ++ l :: rest
    /\ (per_cpu (env_flags false true 1) = false -> rest = [])
    /\ line_pct l
       = Some (runqocc_pct exact_arith (hist_total (drop 1 [5; 2; 1; 0]))
                           (hist_total [5; 2; 1; 0]))
    /\ (runqocc_pct exact_arith (hist_total (drop 1 [5; 2; 1; 0]%Z))
                    (hist_total [5; 2; 1; 0]%Z)
        == spec_occupancy [5; 2; 1; 0]%Z)%Q.
Proof.
  apply (first_line_is_occupancy_of_row_0 4 exact_arith
           (env_flags false true 1) 2 tick1 [5; 2; 1; 0] []).
  - reflexivity.
  - reflexivity.
  - repeat (constructor; [lia|]). constructor.
  - by vm_compute.
  - vm_compute. lia.
Defined.

(** ** The report functions: two reports in a row, and the table bounds *)

Lemma hist_total_zero (MAX_SLOTS : nat) : hist_total (zero MAX_SLOTS) = 0.
Proof.
  unfold zero, hist_total. induction MAX_SLOTS as [|n IH]; simpl; lia.
Qed.

Lemma table_total_zero (MAX_SLOTS n : nat) :
  table_total (replicate n (zero MAX_SLOTS)) = 0.
Proof.
  unfold table_total. induction n as [|n IH]; simpl; [done|].
  rewrite hist_total_zero. lia.
Qed.

Lemma zero_all_idle (MAX_SLOTS : nat) : all_idle (zero MAX_SLOTS).
Proof.
  intros k v _ Hk. unfold zero in Hk.
  by apply lookup_replicate_1 in Hk as [-> _].
Qed.

Lemma lin_lines_zero (MAX_SLOTS : nat) (e : env) (n : nat) :
  forall i,
    Forall (quiet_line MAX_SLOTS)
           (lin_lines MAX_SLOTS e i (replicate n (zero MAX_SLOTS))).
Proof.
  induction n as [|n IH]; intros i; simpl; [constructor|].
  destruct (per_cpu e); simpl; repeat (constructor; [done|]); apply IH.
Qed.

Lemma occ_lines_zero (MAX_SLOTS : nat) (fm : float_model) (e : env)
    (n : nat) :
  float_model_ok fm ->
  Forall (quiet_line MAX_SLOTS)
         (occ_lines MAX_SLOTS fm e 0 (0, 0) (replicate n (zero MAX_SLOTS))).
Proof.
  intros Hfm. apply Forall_lookup_2. intros j l Hl.
  destruct (occ_lines_all_idle MAX_SLOTS fm e Hfm
              (replicate n (zero MAX_SLOTS)) 0 0 j l) as (p & Hp & H0).
  - apply Forall_replicate. split.
    + unfold zero. apply length_replicate.
    + unfold zero. by apply Forall_replicate.
  - lia.
  - rewrite table_total_zero. by vm_compute.
  - exact Hl.
  - intros k h _ Hk. apply lookup_replicate_1 in Hk as [-> _].
    apply zero_all_idle.
  - destruct l; simpl in Hp; try done; by injection Hp as ->.
Qed.

(** X9: a report that follows another with no store of the sampler in
    between leaves the table as the first one left it and reports no
    sample: occupancy 0 on every line, or the all-zero histogram for every
    row. *)
Theorem second_report_is_quiet (MAX_SLOTS : nat) (fm : float_model)
    (e : env) (nr_cpus : Z) (tbl : list hist) (out : list out_line) :
  float_model_ok fm ->
  (rounds e nr_cpus <= length tbl)%nat ->
  exists r1 r2 lines2,
    report MAX_SLOTS fm e nr_cpus (RState tbl out) = Some (tt, r1)
    /\ report MAX_SLOTS fm e nr_cpus r1 = Some (tt, r2)
    /\ st_hists r2 = st_hists r1
    /\ st_out r2 = st_out r1 ++ lines2
    /\ Forall (quiet_line MAX_SLOTS) lines2.
Proof.
  intros Hfm Hlen.
  set (n := rounds e nr_cpus) in *.
  set (tbl1 := replicate n (zero MAX_SLOTS) ++ drop n tbl).
  assert (Hlen1 : (n <= length tbl1)%nat).
  { unfold tbl1. rewrite length_app, length_replicate. lia. }
  assert (Hdrop : replicate n (zero MAX_SLOTS) ++ drop n tbl1 = tbl1).
  { unfold tbl1 at 1. f_equal.
    rewrite drop_app_length'; [done | by rewrite length_replicate]. }
  assert (Htake : take n tbl1 = replicate n (zero MAX_SLOTS)).
  { unfold tbl1. rewrite take_app_length'; [done | by rewrite length_replicate]. }
  unfold report. destruct (runqocc e).
  - eexists _, _, _. split; [by apply print_runq_occupancy_rows|].
    split; [by apply print_runq_occupancy_rows|].
    fold n tbl1. simpl. rewrite Hdrop, Htake.
    split; [done|]. split; [done|]. by apply occ_lines_zero.
  - eexists _, _, _. split; [by apply print_linear_hists_rows|].
    split; [by apply print_linear_hists_rows|].
    fold n tbl1. simpl. rewrite Hdrop, Htake.
    split; [done|]. split; [done|]. apply lin_lines_zero.
Qed.

(** Two reports of [runqlen -C -O] on the tick of the scenario. *)
Lemma second_report_is_quiet_witness :
  exists r1 r2 lines2,
    report 4 exact_arith (env_flags true true 1) 2 (RState tick1 [])
    = Some (tt, r1)
    /\ report 4 exact_arith (env_flags true true 1) 2 r1 = Some (tt, r2)
    /\ st_hists r2 = st_hists r1
    /\ st_out r2 = st_out r1 ++ lines2
    /\ Forall (quiet_line 4) lines2.
Proof.
  apply (second_report_is_quiet 4 exact_arith (env_flags true true 1) 2
           tick1 []); [apply exact_arith_ok | vm_compute; lia].
Defined.

Section ShortTable.

Variable MAX_SLOTS : nat.
Variable fm : float_model.
Variable e : env.
Variable nr_cpus : Z.

(** A loop that has more rounds to run than the table has rows left steps
    outside the table. *)
Lemma runq_occupancy_loop_short (rows : list hist) :
  forall fuel i idle queued pre out,
    length pre = i ->
    (length rows < rounds_from e nr_cpus i)%nat ->
    runq_occupancy_loop MAX_SLOTS fm e nr_cpus fuel i idle queued
      (RState (pre ++ rows) out)
    = None.
Proof.
  induction rows as [|h rest IH]; intros fuel i idle queued pre out Hi Hn;
    (destruct fuel as [|fuel]; [done|]); subst i;
    simpl runq_occupancy_loop; unfold bind at 1.
  - unfold read_hists. simpl. rewrite app_nil_r.
    by rewrite lookup_ge_None_2.
  - rewrite read_hists_middle. unfold bind at 1.
    rewrite write_hists_middle.
    destruct (scan_slots MAX_SLOTS h (idle, queued)) as [idle' queued'].
    unfold bind at 1.
    destruct (per_cpu e && (Z.of_nat (S (length pre)) <? nr_cpus)) eqn:Hgo.
    + apply loop_goes_on in Hgo.
      assert (Hrest :
        runq_occupancy_loop MAX_SLOTS fm e nr_cpus fuel (S (length pre))
          idle' queued'
          (RState ((pre ++ [zero MAX_SLOTS]) ++ rest)
                  (out ++ [occ_line fm e (length pre) (idle', queued')]))
        = None).
      { apply IH; [rewrite length_app; simpl; lia | simpl in Hn; lia]. }
      rewrite <- app_assoc in Hrest. simpl in Hrest.
      unfold occ_line in Hrest. simpl in Hrest.
      destruct (per_cpu e); simpl; exact Hrest.
    + apply loop_stops in Hgo. simpl in Hn. lia.
Qed.

Lemma linear_hists_loop_short (rows : list hist) :
  forall fuel i pre out,
    length pre = i ->
    (length rows < rounds_from e nr_cpus i)%nat ->
    linear_hists_loop MAX_SLOTS e nr_cpus fuel i (RState (pre ++ rows) out)
    = None.
Proof.
  induction rows as [|h rest IH]; intros fuel i pre out Hi Hn;
    (destruct fuel as [|fuel]; [done|]); subst i;
    simpl linear_hists_loop; unfold bind at 1.
  - unfold read_hists. simpl. rewrite app_nil_r.
    by rewrite lookup_ge_None_2.
  - rewrite read_hists_middle. unfold bind at 1.
    rewrite write_hists_middle.
    destruct (per_cpu e && (Z.of_nat (S (length pre)) <? nr_cpus)) eqn:Hgo.
    + apply loop_goes_on in Hgo.
      assert (Hrest : forall o,
        linear_hists_loop MAX_SLOTS e nr_cpus fuel (S (length pre))
          (RState ((pre ++ [zero MAX_SLOTS]) ++ rest) o)
        = None).
      { intros o. apply IH; [rewrite length_app; simpl; lia|].
        simpl in Hn. lia. }
      setoid_rewrite <- app_assoc in Hrest. simpl in Hrest.
      unfold bind, printf, ret.
      destruct (per_cpu e); simpl; apply Hrest.
    + apply loop_stops in Hgo. simpl in Hn. lia.
Qed.

End ShortTable.

(** X10: a report steps outside the table exactly when the table has fewer
    rows than the loop has rounds: [nr_cpus] rounds in per-CPU mode, one
    otherwise.  When it stays inside, it keeps the length of the table and
    leaves every row from that number on as it was. *)
Theorem report_table_bounds (MAX_SLOTS : nat) (fm : float_model) (e : env)
    (nr_cpus : Z) (tbl : list hist) (out : list out_line) :
  (report MAX_SLOTS fm e nr_cpus (RState tbl out) = None
   <-> (length tbl < rounds e nr_cpus)%nat)
  /\ (forall r,
        report MAX_SLOTS fm e nr_cpus (RState tbl out) = Some (tt, r) ->
        length (st_hists r) = length tbl
        /\ forall i, (rounds e nr_cpus <= i)%nat ->
                     st_hists r !! i = tbl !! i).
Proof.
  destruct (decide (length tbl < rounds e nr_cpus)%nat) as [Hshort|Hlong].
  - assert (Hnone : report MAX_SLOTS fm e nr_cpus (RState tbl out) = None).
    { unfold report, print_runq_occupancy, print_linear_hists.
      destruct (runqocc e).
      - apply (runq_occupancy_loop_short MAX_SLOTS fm e nr_cpus tbl
                 _ 0%nat 0 0 [] out); [done | by rewrite rounds_from_0].
      - apply (linear_hists_loop_short MAX_SLOTS e nr_cpus tbl
                 _ 0%nat [] out); [done | by rewrite rounds_from_0]. }
    split; [done|]. intros r Hr. by rewrite Hnone in Hr.
  - destruct (report_rows MAX_SLOTS fm e nr_cpus tbl out ltac:(lia))
      as [lines Hr].
    split; [split; [by rewrite Hr | lia]|].
    intros r Hr'. rewrite Hr in Hr'. injection Hr' as <-. simpl. split.
    + rewrite length_app, length_replicate, length_drop. lia.
    + intros i Hi.
      rewrite lookup_app_r by (rewrite length_replicate; lia).
      rewrite length_replicate, lookup_drop. f_equal. lia.
Qed.

(** ** [open_and_attach_perf_event] *)

(** Either every CPU below [n] attaches or there is a first one that does
    not. *)
Lemma first_attach_failure (w : world) (n : nat) :
  (forall i, (i < n)%nat -> attach w i = AttachOk)
  \/ exists j, (j < n)%nat /\ attach w j <> AttachOk
               /\ forall i, (i < j)%nat -> attach w i = AttachOk.
Proof.
  induction n as [|n [IH|(j & Hj & Hf & Hb)]].
  - left. intros i Hi. lia.
  - destruct (attach w n) eqn:En.
    + left. intros i Hi.
      destruct (decide (i = n)) as [->|]; [done | apply IH; lia].
    + right. exists n. split; [lia|]. split; [by rewrite En | done].
    + right. exists n. split; [lia|]. split; [by rewrite En | done].
  - right. exists j. split; [lia | done].
Qed.

Lemma attach_loop_all (w : world) :
  forall m a (pre : list link) tr,
    length pre = a ->
    (forall i, (a <= i < a + m)%nat -> attach w i = AttachOk) ->
    exists tr',
      attach_loop w (seq a m) (pre ++ replicate m None) tr
      = (0, pre ++ (Some <$> seq a m), tr')
      /\ report_calls tr' = report_calls tr
      /\ destroyed_links tr' = destroyed_links tr
      /\ rounds_begun tr' = rounds_begun tr
      /\ timestamps tr' = timestamps tr.
Proof.
  induction m as [|m IH]; intros a pre tr Hpre Hok.
  - exists tr. by rewrite !app_nil_r.
  - simpl seq. simpl attach_loop. simpl replicate.
    rewrite Hok by lia.
    replace (<[a := Some a]> (pre ++ None :: replicate m None))
      with ((pre ++ [Some a]) ++ replicate m None).
    2:{ replace a with (length pre + 0)%nat at 2 by lia.
        rewrite insert_app_r. simpl. by rewrite <- app_assoc. }
    destruct (IH (S a) (pre ++ [Some a])
                 (tr ++ [PerfEventOpen a; AttachPerfEvent a]))
      as (tr' & Heq & Hr & Hd & Hb & Ht).
    + rewrite length_app. simpl. lia.
    + intros i Hi. apply Hok. lia.
    + exists tr'. split.
      * etransitivity; [exact Heq|]. simpl. by rewrite <- app_assoc.
      * rewrite Hr, Hd, Hb, Ht.
        unfold report_calls, destroyed_links, rounds_begun, timestamps.
        rewrite !omap_app. simpl. by rewrite !app_nil_r.
Qed.

(** X11: called on the zeroed array of [main],
    [open_and_attach_perf_event] returns 0 exactly when every CPU below
    [nr_cpus] attaches, and the array then holds the link of each CPU at
    its index.  Otherwise it returns -1 at the first CPU [j] that fails,
    with the links of the CPUs before [j] in the array and [NULL] from
    [j] on. *)
Theorem open_and_attach_all_or_first_failure (w : world) (nr_cpus : Z)
    (tr : list event) :
  let n := Z.to_nat nr_cpus in
  exists links' tr',
    (open_and_attach_perf_event w nr_cpus (replicate n None) tr
     = (0, links', tr')
     /\ (forall i, (i < n)%nat -> attach w i = AttachOk)
     /\ links' = Some <$> seq 0 n)
    \/ (exists j,
          open_and_attach_perf_event w nr_cpus (replicate n None) tr
          = (-1, links', tr')
          /\ (j < n)%nat
          /\ attach w j <> AttachOk
          /\ (forall i, (i < j)%nat -> attach w i = AttachOk)
          /\ links' = (Some <$> seq 0 j) ++ replicate (n - j) None).
Proof.
  intros n. unfold open_and_attach_perf_event. fold n.
  destruct (first_attach_failure w n) as [Hall|(j & Hj & Hf & Hb)].
  - destruct (attach_loop_all w n 0 [] tr eq_refl) as (tr' & Heq & _).
    { intros i Hi. apply Hall. lia. }
    exists (Some <$> seq 0 n), tr'. left. done.
  - destruct (attach_loop_fails w j Hf n 0 [] tr eq_refl)
      as (tr' & Heq & _); [intros i Hi; apply Hb; lia | lia |].
    simpl in Heq. rewrite Nat.sub_0_r in Heq.
    eexists _, tr'. right. exists j. done.
Qed.

(** ** The loop under any schedule *)

Lemma run_loop_app MAX_SLOTS fm e nr_cpus (sch1 sch2 : list action) s :
  run_loop MAX_SLOTS fm e nr_cpus (sch1 ++ sch2) s
  = run_loop MAX_SLOTS fm e nr_cpus sch2
      (run_loop MAX_SLOTS fm e nr_cpus sch1 s).
Proof. unfold run_loop. by rewrite foldl_app. Qed.

Lemma timestamps_snoc (tr : list event) ev :
  timestamps (tr ++ [ev])
  = timestamps tr ++ match ev with Stdout Timestamp => [tt] | _ => [] end.
Proof.
  unfold timestamps. rewrite omap_app. f_equal.
  destruct ev as [[]| | | | | | | | | |]; reflexivity.
Qed.

Lemma destroyed_links_loop_events (ext : list event) :
  Forall loop_event ext -> destroyed_links ext = [].
Proof.
  induction 1 as [|ev ext Hev _ IH]; [done|].
  destruct ev; try done; exact IH.
Qed.

Section AnySchedule.

Variable MAX_SLOTS : nat.
Variable fm : float_model.
Variable e : env.
Variable nr_cpus : Z.

(** The loop only prints and reports. *)
Lemma act_events (a : action) (s : session) :
  exists ext,
    s_trace (act MAX_SLOTS fm e nr_cpus a s) = s_trace s ++ ext
    /\ Forall loop_event ext.
Proof.
  destruct a as [| |cpu slot v]; simpl;
    [|exists []; by rewrite app_nil_r..].
  unfold loop_step. destruct (s_pc s); simpl;
    try (exists []; by rewrite app_nil_r).
  - eexists. split; [reflexivity|]. by repeat constructor.
  - destruct (timestamp e); simpl.
    + eexists. split; [reflexivity|]. by repeat constructor.
    + exists []. by rewrite app_nil_r.
  - destruct (report MAX_SLOTS fm e nr_cpus _) as [[[] r]|]; simpl.
    + eexists. split; [reflexivity|]. by repeat constructor.
    + exists []. by rewrite app_nil_r.
  - destruct (s_exiting s); simpl; [exists []; by rewrite app_nil_r|].
    destruct (int_dec (s_times s)); simpl; exists []; by rewrite app_nil_r.
Qed.

Lemma run_loop_events (sch : list action) (s : session) :
  exists ext,
    s_trace (run_loop MAX_SLOTS fm e nr_cpus sch s) = s_trace s ++ ext
    /\ Forall loop_event ext.
Proof.
  induction sch as [|a sch IH] using rev_ind.
  - exists []. by rewrite app_nil_r.
  - destruct IH as (ext & Hext & Hall). rewrite run_loop_snoc.
    destruct (act_events a (run_loop MAX_SLOTS fm e nr_cpus sch s))
      as (ext' & Hext' & Hall').
    exists (ext ++ ext'). rewrite Hext', Hext, app_assoc.
    split; [done | by apply Forall_app].
Qed.

(** A session that started with a count of 1 or more stays defined. *)
Lemma alive_inv_act (a : action) (s : session) :
  alive_inv e nr_cpus s ->
  alive_inv e nr_cpus (act MAX_SLOTS fm e nr_cpus a s).
Proof.
  intros (Hlen & Hdef & Ht).
  split; [by rewrite act_length|].
  destruct a as [| |cpu slot v]; simpl.
  - destruct (s_pc s) eqn:Epc; try done.
    + at_pc Epc. simpl. split; [done|]. intros _. by apply Ht.
    + at_pc Epc. simpl. split; [done|]. intros _. by apply Ht.
    + at_pc Epc. destruct (timestamp e); simpl;
        (split; [done|]; intros _; by apply Ht).
    + destruct (loop_step_report MAX_SLOTS fm e nr_cpus s Epc Hlen)
        as (lines & tbl' & _ & ->).
      simpl. split; [done|]. intros _. by apply Ht.
    + at_pc Epc. destruct (s_exiting s); [done|].
      assert (1 <= s_times s) by (by apply Ht).
      unfold int_dec, INT_MIN.
      destruct (s_times s =? - 2 ^ 31) eqn:Emin; [lia|].
      destruct (s_times s - 1 =? 0) eqn:E0; simpl; [done|].
      split; [done|]. intros _. lia.
    + at_pc Epc. simpl. by rewrite Epc.
  - unfold sig_handler. simpl. destruct (s_pc s); try done;
      (split; [done|]; intros _; by apply Ht).
  - done.
Qed.

Lemma alive_inv_run (sch : list action) (s : session) :
  alive_inv e nr_cpus s ->
  alive_inv e nr_cpus (run_loop MAX_SLOTS fm e nr_cpus sch s).
Proof.
  intros H. induction sch as [|a sch IH] using rev_ind; [done|].
  rewrite run_loop_snoc. by apply alive_inv_act.
Qed.

(** Once [exiting] is set each statement brings the [break] nearer, and at
    most one report is made on the way. *)
Lemma stopping_act (a : action) (s : session) :
  s_exiting s = true ->
  alive_inv e nr_cpus s ->
  let s' := act MAX_SLOTS fm e nr_cpus a s in
  s_exiting s' = true
  /\ (dist_to_exit (s_pc s') + (if is_step a then 1 else 0)
      <= Nat.max 1 (dist_to_exit (s_pc s)))%nat
  /\ (dist_to_exit (s_pc s) = 0 -> dist_to_exit (s_pc s') = 0)%nat
  /\ (length (report_calls (s_trace s')) + reports_ahead (s_pc s')
      <= length (report_calls (s_trace s)) + reports_ahead (s_pc s))%nat.
Proof.
  intros Hex (Hlen & Hdef & Ht).
  destruct a as [| |cpu slot v]; simpl.
  - destruct (s_pc s) eqn:Epc; try done.
    + at_pc Epc. simpl. repeat split; (done || lia).
    + at_pc Epc. simpl. rewrite report_calls_snoc, app_nil_r.
      repeat split; (done || lia).
    + at_pc Epc. destruct (timestamp e); simpl;
        rewrite ?report_calls_snoc, ?app_nil_r;
        repeat split; (done || lia).
    + destruct (loop_step_report MAX_SLOTS fm e nr_cpus s Epc Hlen)
        as (lines & tbl' & _ & ->).
      simpl. rewrite report_calls_snoc, length_app. simpl.
      repeat split; (done || lia).
    + at_pc Epc. rewrite Hex. simpl. repeat split; (done || lia).
    + at_pc Epc. simpl. rewrite Epc. simpl. repeat split; (done || lia).
  - unfold sig_handler. simpl.
    destruct (s_pc s); simpl; repeat split; (done || lia).
  - repeat split; (done || lia).
Qed.

Lemma stopping_run (sch : list action) :
  forall s,
    s_exiting s = true ->
    alive_inv e nr_cpus s ->
    let s' := run_loop MAX_SLOTS fm e nr_cpus sch s in
    ((dist_to_exit (s_pc s) <= steps sch)%nat -> s_pc s' = PLeft)
    /\ (length (report_calls (s_trace s'))
        <= length (report_calls (s_trace s)) + reports_ahead (s_pc s))%nat.
Proof.
  induction sch as [|a sch IH]; intros s Hex Halive.
  - simpl. split; [|lia].
    destruct Halive as (_ & Hdef & _).
    unfold steps. simpl. destruct (s_pc s); simpl; (done || lia).
  - destruct (stopping_act a s Hex Halive) as (Hex' & Hd & H0 & Hr).
    pose proof (alive_inv_act a s Halive) as Halive'.
    destruct (IH _ Hex' Halive') as [Hleft Hrep].
    change (run_loop MAX_SLOTS fm e nr_cpus (a :: sch) s)
      with (run_loop MAX_SLOTS fm e nr_cpus sch
              (act MAX_SLOTS fm e nr_cpus a s)).
    split; [|simpl in *; lia].
    intros Hsteps. apply Hleft.
    assert (Hs : steps (a :: sch)
                 = ((if is_step a then 1 else 0) + steps sch)%nat).
    { unfold steps. by destruct a. }
    rewrite Hs in Hsteps. cbv zeta in *. lia.
Qed.

(** With [-T] a timestamp goes with every report. *)
Lemma stamps_inv_act (a : action) (s : session) :
  stamps_inv e nr_cpus s ->
  stamps_inv e nr_cpus (act MAX_SLOTS fm e nr_cpus a s).
Proof.
  intros [Hlen Hst]. split; [by rewrite act_length|].
  destruct a as [| |cpu slot v]; simpl.
  - destruct (s_pc s) eqn:Epc.
    + at_pc Epc. simpl. by destruct (timestamp e).
    + at_pc Epc. simpl. rewrite timestamps_snoc, report_calls_snoc.
      simpl. rewrite !app_nil_r. by destruct (timestamp e).
    + at_pc Epc. destruct (timestamp e); simpl; [|done].
      rewrite timestamps_snoc, report_calls_snoc, length_app. simpl.
      rewrite app_nil_r. lia.
    + destruct (loop_step_report MAX_SLOTS fm e nr_cpus s Epc Hlen)
        as (lines & tbl' & _ & ->).
      simpl. rewrite timestamps_snoc, report_calls_snoc. simpl.
      rewrite app_nil_r. destruct (timestamp e); [|done].
      rewrite length_app. simpl. lia.
    + at_pc Epc. destruct (s_exiting s); simpl;
        [by destruct (timestamp e)|].
      destruct (int_dec (s_times s)) as [t|]; simpl;
        [|by destruct (timestamp e)].
      destruct (timestamp e); [|done]. by destruct (t =? 0).
    + at_pc Epc. simpl. rewrite Epc. by destruct (timestamp e).
    + at_pc Epc. simpl. rewrite Epc. by destruct (timestamp e).
  - unfold sig_handler. simpl.
    destruct (timestamp e); [|done]. by destruct (s_pc s).
  - done.
Qed.

Lemma stamps_inv_run (sch : list action) (s : session) :
  stamps_inv e nr_cpus s ->
  stamps_inv e nr_cpus (run_loop MAX_SLOTS fm e nr_cpus sch s).
Proof.
  intros H. induction sch as [|a sch IH] using rev_ind; [done|].
  rewrite run_loop_snoc. by apply stamps_inv_act.
Qed.

End AnySchedule.

(** ** [main] under any world and schedule *)

Lemma timestamps_app (tr1 tr2 : list event) :
  timestamps (tr1 ++ tr2) = timestamps tr1 ++ timestamps tr2.
Proof. unfold timestamps. by rewrite omap_app. Qed.

Lemma timestamps_destroy (ls : list link) :
  timestamps (map LinkDestroy ls) = [].
Proof. induction ls as [|l ls IH]; [done|]. exact IH. Qed.

(** The attachments neither report nor print a timestamp, whether they
    succeed or not. *)
Lemma attach_loop_quiet (w : world) (cpus : list nat) :
  forall links tr,
    exists rc links' tr',
      attach_loop w cpus links tr = (rc, links', tr')
      /\ report_calls tr' = report_calls tr
      /\ timestamps tr' = timestamps tr.
Proof.
  induction cpus as [|i rest IH]; intros links tr.
  - by exists 0, links, tr.
  - simpl. destruct (attach w i).
    + destruct (IH (<[i := Some i]> links)
                   (tr ++ [PerfEventOpen i; AttachPerfEvent i]))
        as (rc & links' & tr' & -> & Hr & Ht).
      exists rc, links', tr'. split; [done|].
      rewrite Hr, Ht, report_calls_app, timestamps_app. simpl.
      by rewrite !app_nil_r.
    + eexists _, _, _. split; [reflexivity|].
      rewrite report_calls_app, timestamps_app. simpl.
      by rewrite !app_nil_r.
    + eexists _, _, _. split; [reflexivity|].
      rewrite report_calls_app, timestamps_app. simpl.
      by rewrite !app_nil_r.
Qed.

Lemma cleanup_quiet (nr_cpus : Z) (links : option (list link)) (err : Z)
    (tr : list event) :
  report_calls (snd (cleanup nr_cpus links err tr)) = report_calls tr
  /\ timestamps (snd (cleanup nr_cpus links err tr)) = timestamps tr.
Proof.
  unfold cleanup. destruct links as [ls|]; simpl.
  - rewrite !report_calls_app, !timestamps_app.
    change (report_calls [FreeLinks; ObjDestroy]) with (@nil (list out_line)).
    change (timestamps [FreeLinks; ObjDestroy]) with (@nil unit).
    rewrite !app_nil_r.
    split.
    + replace (report_calls (map _ _)) with (@nil (list out_line));
        [by rewrite app_nil_r|].
      symmetry. generalize (seq 0 (Z.to_nat nr_cpus)).
      intros l. induction l as [|x l IHl]; [done|]. exact IHl.
    + replace (timestamps (map _ _)) with (@nil unit);
        [by rewrite app_nil_r|].
      symmetry. generalize (seq 0 (Z.to_nat nr_cpus)).
      intros l. induction l as [|x l IHl]; [done|]. exact IHl.
  - destruct (0 <? nr_cpus); simpl; [done|].
    rewrite !report_calls_app, !timestamps_app. simpl.
    by rewrite !app_nil_r.
Qed.

Lemma cleanup_outcome (nr_cpus : Z) (links : option (list link)) (err : Z)
    (tr : list event) :
  (exists status, fst (cleanup nr_cpus links err tr) = Exit status)
  \/ (links = None /\ fst (cleanup nr_cpus links err tr) = Undefined).
Proof.
  unfold cleanup. destruct links as [ls|]; simpl.
  - left. by eexists.
  - destruct (0 <? nr_cpus); simpl; [by right | left; by eexists].
Qed.

Section AnyWorld.

Variable MAX_SLOTS : nat.
Variable MAX_CPU_NR : nat.
Variable fm : float_model.
Variable w : world.
Variable e : env.

(** [main] either ends before the loop, having made no report, or runs the
    loop from a trace without reports and ends in [cleanup] with the links
    it allocated. *)
Lemma main_cases (sch : list action) :
  (report_calls (snd (main MAX_SLOTS MAX_CPU_NR fm w e sch)) = []
   /\ timestamps (snd (main MAX_SLOTS MAX_CPU_NR fm w e sch)) = []
   /\ ((exists status,
          fst (main MAX_SLOTS MAX_CPU_NR fm w e sch) = Exit status)
       \/ (calloc_ok w = false
           /\ fst (main MAX_SLOTS MAX_CPU_NR fm w e sch) = Undefined)))
  \/ (possible_cpus w <= Z.of_nat MAX_CPU_NR
      /\ exists links tr0,
           report_calls tr0 = [] /\ timestamps tr0 = []
           /\ main MAX_SLOTS MAX_CPU_NR fm w e sch
              = let s := run_loop MAX_SLOTS fm e (possible_cpus w) sch
                           (session_start MAX_SLOTS MAX_CPU_NR e tr0) in
                match s_pc s with
                | PLeft =>
                    cleanup (possible_cpus w) (Some links) (load_err w)
                            (s_trace s)
                | PUndefined => (Undefined, s_trace s)
                | _ => (Running, s_trace s)
                end).
Proof.
  unfold main.
  destruct (argp_err w =? 0) eqn:Eargp; simpl negb; cbv iota;
    [|left; simpl; repeat split; left; by eexists].
  destruct (rlimit_err w =? 0) eqn:Erl; simpl negb; cbv iota;
    [|left; simpl; repeat split; left; by eexists].
  destruct (open_ok w); simpl negb; cbv iota;
    [|left; simpl; repeat split; left; by eexists].
  destruct (Z.of_nat MAX_CPU_NR <? possible_cpus w) eqn:Enr;
    [left; simpl; repeat split; left; by eexists|].
  apply Z.ltb_ge in Enr.
  destruct (calloc_ok w) eqn:Ecalloc; simpl negb; cbv iota.
  2:{ left.
      destruct (cleanup_quiet (possible_cpus w) None (rlimit_err w)
                  [Stderr "failed to alloc links"]) as [-> ->].
      repeat split.
      destruct (cleanup_outcome (possible_cpus w) None (rlimit_err w)
                  [Stderr "failed to alloc links"]) as [H|[_ H]];
        [by left | by right]. }
  destruct (load_err w =? 0) eqn:Eload; simpl negb; cbv iota.
  2:{ left.
      match goal with
      | |- context [cleanup ?n ?l ?x ?t] =>
          destruct (cleanup_quiet n l x t) as [-> ->];
          destruct (cleanup_outcome n l x t) as [H|[? _]]; [|done]
      end.
      repeat split. by left. }
  unfold open_and_attach_perf_event.
  destruct (attach_loop_quiet w (seq 0 (Z.to_nat (possible_cpus w)))
              (replicate (Z.to_nat (possible_cpus w)) None)
              [SetTargPerCpu (per_cpu e)])
    as (rc & links & tr & -> & Hr & Ht).
  simpl in Hr, Ht.
  destruct (rc =? 0); simpl negb; cbv iota.
  - right. split; [done|].
    exists links, (tr ++ [Stdout Banner; SignalInstalled]).
    rewrite report_calls_app, timestamps_app, Hr, Ht. by repeat split.
  - left.
    destruct (cleanup_quiet (possible_cpus w) (Some links) (load_err w) tr)
      as [-> ->].
    destruct (cleanup_outcome (possible_cpus w) (Some links) (load_err w) tr)
      as [H|[? _]]; [|done].
    repeat split; [done.. | by left].
Qed.

Lemma session_start_alive tr0 :
  (1 <= MAX_CPU_NR)%nat ->
  possible_cpus w <= Z.of_nat MAX_CPU_NR ->
  1 <= times e ->
  alive_inv e (possible_cpus w) (session_start MAX_SLOTS MAX_CPU_NR e tr0).
Proof.
  intros H1 Hnr Ht. unfold alive_inv, session_start. simpl.
  rewrite length_replicate. repeat split; try done.
  unfold rounds. destruct (per_cpu e); lia.
Qed.

Lemma session_start_stamps tr0 :
  (1 <= MAX_CPU_NR)%nat ->
  possible_cpus w <= Z.of_nat MAX_CPU_NR ->
  report_calls tr0 = [] -> timestamps tr0 = [] ->
  stamps_inv e (possible_cpus w) (session_start MAX_SLOTS MAX_CPU_NR e tr0).
Proof.
  intros H1 Hnr Hr Ht. unfold stamps_inv, session_start. simpl.
  rewrite length_replicate, Hr, Ht.
  split; [|by destruct (timestamp e)].
  unfold rounds. destruct (per_cpu e); lia.
Qed.

End AnyWorld.

(** X12: when [calloc] returns memory and the count is 1 or more, [main]
    meets no undefined behaviour, whatever the set-up calls answer and
    whatever signals and samples arrive: it exits or is still in its
    loop. *)
Theorem main_stays_defined (MAX_SLOTS MAX_CPU_NR : nat) (fm : float_model)
    (w : world) (e : env) (sch : list action) :
  (1 <= MAX_CPU_NR)%nat ->
  calloc_ok w = true ->
  1 <= times e ->
  fst (main MAX_SLOTS MAX_CPU_NR fm w e sch) <> Undefined.
Proof.
  intros H1 Hcalloc Ht.
  destruct (main_cases MAX_SLOTS MAX_CPU_NR fm w e sch)
    as [(_ & _ & [[status ->]|[Hc _]])|(Hnr & links & tr0 & _ & _ & ->)];
    [done | congruence |].
  pose proof (alive_inv_run MAX_SLOTS fm e (possible_cpus w) sch _
                (session_start_alive MAX_SLOTS MAX_CPU_NR w e tr0 H1 Hnr Ht))
    as (_ & Hdef & _).
  cbv zeta. revert Hdef.
  by destruct (s_pc (run_loop MAX_SLOTS fm e (possible_cpus w) sch _)).
Qed.

(** A run of two rounds with [-C -O] on two CPUs: a sampler store before
    the first report, the test of [--env.times], then SIGINT and another
    store during the second round, its report, and the exit. *)
Lemma main_stays_defined_witness :
  let sch := [Step; Sampler 0 1 4; Step; Step; Step; Step;
              Step; Step; Signal; Sampler 1 0 2; Step; Step; Step] in
  fst (main 2 2 exact_arith (world_ok 2) (env_flags true true 2) sch)
  <> Undefined
  /\ fst (main 2 2 exact_arith (world_ok 2) (env_flags true true 2) sch)
     = Exit 0
  /\ length (report_calls
               (snd (main 2 2 exact_arith (world_ok 2)
                       (env_flags true true 2) sch))) = 2%nat.
Proof.
  intros sch. split; [|split].
  - apply main_stays_defined; [lia | reflexivity | simpl; lia].
  - reflexivity.
  - reflexivity.
Defined.

(** X13: with [-T] an exited run has printed exactly one timestamp for
    each report, and without [-T] none. *)
Theorem one_timestamp_per_report (MAX_SLOTS MAX_CPU_NR : nat)
    (fm : float_model) (w : world) (e : env) (sch : list action)
    (status : Z) (tr : list event) :
  (1 <= MAX_CPU_NR)%nat ->
  main MAX_SLOTS MAX_CPU_NR fm w e sch = (Exit status, tr) ->
  length (timestamps tr)
  = if timestamp e then length (report_calls tr) else 0%nat.
Proof.
  intros H1 Hmain.
  destruct (main_cases MAX_SLOTS MAX_CPU_NR fm w e sch)
    as [(Hr & Hts & _)|(Hnr & links & tr0 & Hr & Hts & Heq)].
  - rewrite Hmain in Hr, Hts. simpl in Hr, Hts. rewrite Hr, Hts.
    by destruct (timestamp e).
  - rewrite Hmain in Heq. cbv zeta in Heq.
    pose proof (stamps_inv_run MAX_SLOTS fm e (possible_cpus w) sch _
                  (session_start_stamps MAX_SLOTS MAX_CPU_NR w e tr0
                     H1 Hnr Hr Hts))
      as [_ Hst].
    revert Heq Hst.
    destruct (s_pc (run_loop MAX_SLOTS fm e (possible_cpus w) sch _));
      try done.
    intros Heq Hst.
    destruct (cleanup_quiet (possible_cpus w) (Some links) (load_err w)
                (s_trace (run_loop MAX_SLOTS fm e (possible_cpus w) sch
                   (session_start MAX_SLOTS MAX_CPU_NR e tr0))))
      as [Hcr Hct].
    rewrite <- Heq in Hcr, Hct. simpl in Hcr, Hct.
    rewrite Hcr, Hct.
    destruct (timestamp e); [done | by rewrite Hst].
Qed.

Lemma one_timestamp_per_report_witness :
  let e := set_timestamp (env_flags true false 1) true in
  let sch := replicate 5 Step in
  length (timestamps (snd (main 2 2 exact_arith (world_ok 2) e sch)))
  = length (report_calls (snd (main 2 2 exact_arith (world_ok 2) e sch))).
Proof.
  intros e sch.
  apply (one_timestamp_per_report 2 2 exact_arith (world_ok 2) e sch 0);
    [lia | reflexivity].
Defined.

(** ** A run whose set-up succeeds *)

Section GoodWorld.

Variable MAX_SLOTS : nat.
Variable MAX_CPU_NR : nat.
Variable fm : float_model.
Variable w : world.
Variable e : env.
Hypothesis setup : setup_ok MAX_CPU_NR w.
Hypothesis attached :
  forall i, Z.of_nat i < possible_cpus w -> attach w i = AttachOk.

(** [main] reaches the loop holding one link for each CPU. *)
Lemma main_holds_all_links :
  exists tr0,
    report_calls tr0 = [] /\ destroyed_links tr0 = []
    /\ forall sch,
         main MAX_SLOTS MAX_CPU_NR fm w e sch
         = let s := run_loop MAX_SLOTS fm e (possible_cpus w) sch
                      (session_start MAX_SLOTS MAX_CPU_NR e tr0) in
           match s_pc s with
           | PLeft =>
               cleanup (possible_cpus w)
                       (Some (Some <$> seq 0 (Z.to_nat (possible_cpus w))))
                       0 (s_trace s)
           | PUndefined => (Undefined, s_trace s)
           | _ => (Running, s_trace s)
           end.
Proof.
  destruct setup as (Hargp & Hrl & Hopen & Hnr & Hcalloc & Hload).
  destruct (attach_loop_all w (Z.to_nat (possible_cpus w)) 0 []
              [SetTargPerCpu (per_cpu e)] eq_refl)
    as (tr & Heq & Hrep & Hd & _ & _).
  { intros i Hi. apply attached. lia. }
  simpl in Heq, Hrep, Hd.
  exists (tr ++ [Stdout Banner; SignalInstalled]).
  split; [|split].
  - by rewrite report_calls_app, Hrep.
  - by rewrite destroyed_links_app, Hd.
  - intros sch. unfold main.
    rewrite Hargp, Hrl, Hopen, Hcalloc, Hload. simpl negb. cbv iota.
    apply Z.ltb_ge in Hnr. rewrite Hnr.
    unfold open_and_attach_perf_event. rewrite Heq. reflexivity.
Qed.

End GoodWorld.

(** X14: a run whose set-up and attachments succeeded and that exits, for
    whatever reason and after whatever signals and samples, exits with
    status 0, has destroyed the link of every CPU exactly once, in the
    order of the CPUs, and ends by freeing the array of links and
    destroying the BPF object. *)
Theorem exit_destroys_every_link (MAX_SLOTS MAX_CPU_NR : nat)
    (fm : float_model) (w : world) (e : env) (sch : list action)
    (status : Z) (tr : list event) :
  setup_ok MAX_CPU_NR w ->
  (forall i, Z.of_nat i < possible_cpus w -> attach w i = AttachOk) ->
  main MAX_SLOTS MAX_CPU_NR fm w e sch = (Exit status, tr) ->
  status = 0
  /\ destroyed_links tr = seq 0 (Z.to_nat (possible_cpus w))
  /\ exists tr', tr = tr' ++ [FreeLinks; ObjDestroy].
Proof.
  intros Hsetup Hatt Hmain.
  destruct (main_holds_all_links MAX_SLOTS MAX_CPU_NR fm w e Hsetup Hatt)
    as (tr0 & _ & Hd0 & Hform).
  rewrite Hform in Hmain. cbv zeta in Hmain.
  destruct (run_loop_events MAX_SLOTS fm e (possible_cpus w) sch
              (session_start MAX_SLOTS MAX_CPU_NR e tr0))
    as (ext & Hext & Hall).
  simpl in Hext. revert Hmain.
  destruct (s_pc (run_loop MAX_SLOTS fm e (possible_cpus w) sch _));
    try done.
  rewrite cleanup_links by (by rewrite length_fmap, length_seq).
  intros [= <- <-]. split; [done|]. split.
  - rewrite Hext, !destroyed_links_app, Hd0.
    rewrite (destroyed_links_loop_events ext Hall).
    rewrite destroyed_links_some. simpl. by rewrite app_nil_r.
  - eexists. by rewrite app_assoc.
Qed.

Lemma exit_destroys_every_link_witness :
  destroyed_links
    (snd (main 2 3 exact_arith (world_ok 3) (env_flags true false 7)
            [Step; Sampler 1 0 4; Signal; Step; Step; Step; Step]))
  = [0; 1; 2]%nat.
Proof.
  refine (proj1 (proj2 (exit_destroys_every_link 2 3 exact_arith (world_ok 3)
                          (env_flags true false 7)
                          [Step; Sampler 1 0 4; Signal; Step; Step; Step; Step]
                          0 _ _ _ _))).
  - unfold setup_ok. simpl. repeat split; lia.
  - reflexivity.
  - reflexivity.
Defined.

(** X15: SIGINT ends a running session.  Whenever it is delivered, once
    [main] has run five more statements it has exited with status 0; the
    reports made before the signal are all there, and at most one was made
    after it. *)
Theorem sigint_ends_the_run (MAX_SLOTS MAX_CPU_NR : nat)
    (fm : float_model) (w : world) (e : env) (sch1 sch2 : list action) :
  setup_ok MAX_CPU_NR w ->
  (forall i, Z.of_nat i < possible_cpus w -> attach w i = AttachOk) ->
  (1 <= MAX_CPU_NR)%nat ->
  1 <= times e ->
  (5 <= steps sch2)%nat ->
  let before := report_calls (snd (main MAX_SLOTS MAX_CPU_NR fm w e sch1)) in
  exists tr after,
    main MAX_SLOTS MAX_CPU_NR fm w e (sch1 ++ Signal :: sch2) = (Exit 0, tr)
    /\ report_calls tr = before ++ after
    /\ (length after <= 1)%nat.
Proof.
  intros Hsetup Hatt H1 Ht Hsteps before.
  destruct (main_holds_all_links MAX_SLOTS MAX_CPU_NR fm w e Hsetup Hatt)
    as (tr0 & _ & _ & Hform).
  assert (Hnr : possible_cpus w <= Z.of_nat MAX_CPU_NR)
    by (by destruct Hsetup as (_ & _ & _ & ? & _)).
  set (s0 := session_start MAX_SLOTS MAX_CPU_NR e tr0) in *.
  set (s1 := run_loop MAX_SLOTS fm e (possible_cpus w) sch1 s0).
  assert (Hbefore : before = report_calls (s_trace s1)).
  { unfold before. rewrite Hform. cbv zeta. fold s0. fold s1.
    destruct (s_pc s1); try done.
    by destruct (cleanup_quiet (possible_cpus w)
                   (Some (Some <$> seq 0 (Z.to_nat (possible_cpus w)))) 0
                   (s_trace s1)) as [-> _]. }
  pose proof (alive_inv_run MAX_SLOTS fm e (possible_cpus w) sch1 s0
                (session_start_alive MAX_SLOTS MAX_CPU_NR w e tr0 H1 Hnr Ht))
    as Halive1.
  fold s1 in Halive1.
  pose proof (alive_inv_act MAX_SLOTS fm e (possible_cpus w) Signal s1
                Halive1) as Halive2.
  simpl in Halive2.
  destruct (stopping_run MAX_SLOTS fm e (possible_cpus w) sch2
              (sig_handler s1) eq_refl Halive2) as [Hleft Hcount].
  destruct (run_loop_events MAX_SLOTS fm e (possible_cpus w) sch2
              (sig_handler s1)) as (ext & Hext & _).
  simpl in Hext.
  rewrite Hform. cbv zeta. fold s0.
  rewrite run_loop_app. fold s1.
  change (run_loop MAX_SLOTS fm e (possible_cpus w) (Signal :: sch2) s1)
    with (run_loop MAX_SLOTS fm e (possible_cpus w) sch2 (sig_handler s1)).
  rewrite Hleft.
  2:{ etrans; [|exact Hsteps]. simpl. by destruct (s_pc s1); simpl; lia. }
  rewrite cleanup_links by (by rewrite length_fmap, length_seq).
  eexists _, (report_calls ext). split; [reflexivity|]. split.
  - rewrite !report_calls_app, report_calls_destroy, Hext, report_calls_app.
    simpl. by rewrite app_nil_r, Hbefore.
  - rewrite Hext, report_calls_app, length_app in Hcount.
    simpl in Hcount.
    assert (reports_ahead
              match s_pc s1 with PSleep => PNewline | p => p end <= 1)%nat
      by (destruct (s_pc s1); simpl; lia).
    lia.
Qed.

Lemma sigint_ends_the_run_witness :
  exists tr after,
    main 2 2 exact_arith (world_ok 2) (env_flags false true 9)
         ([Step; Step; Sampler 0 1 3] ++ Signal :: replicate 5 Step)
    = (Exit 0, tr)
    /\ report_calls tr
       = report_calls
           (snd (main 2 2 exact_arith (world_ok 2) (env_flags false true 9)
                   [Step; Step; Sampler 0 1 3])) ++ after
    /\ (length after <= 1)%nat.
Proof.
  apply sigint_ends_the_run.
  - unfold setup_ok. simpl. repeat split; lia.
  - reflexivity.
  - lia.
  - simpl. lia.
  - vm_compute. lia.
Defined.
